(** * HttpClient: a fetch wrapper with interceptors, cancellation and retry

    Shallow embedding of [HttpClient.ts] (types, the class [HttpClient] and
    its private helpers) and the properties of its request pipeline.

    Modelling conventions.
    - A JavaScript string is a [string] holding the UTF-8 bytes of a
      well-formed text.
    - The [count] of a retry policy, the number that the client computes
      with, is an IEEE 754 binary64 value ([Js.number]). The other numbers
      that the client inspects ([status], [timeout], [delay], numeric query
      parameters) are integer valued and modelled in [Z].
    - The [headers] of the options are a [HeadersInit]: a plain object, an
      array of pairs or a [Headers] instance, of which an object spread
      copies the own enumerable properties.
    - [request] calls itself when it retries, and nothing in the code
      bounds these calls: the model of [request] takes the number of
      nested calls that it may make, and gives no result when that number
      does not suffice.
    - [async] functions run to completion one after the other: a computation
      is a function from the state of the instance and of its host to an
      outcome (a returned value or a thrown one) and a new state.
    - The host (the transport [fetch] and the [shouldRetry] closures that a
      retry policy refers to) is a parameter of the development. *)

From Stdlib Require Import ZArith Lia Ascii String SpecFloat.
From stdpp Require Import base option list strings pretty gmap.

Local Open Scope Z_scope.
Local Open Scope string_scope.

(** ** JavaScript strings *)

Module Js.

(** [s.includes(needle)] *)
Fixpoint includes (s needle : string) : bool :=
  String.prefix needle s ||
  match s with
  | EmptyString => false
  | String _ s' => includes s' needle
  end.

Definition upper_char (c : ascii) : ascii :=
  let n := Ascii.N_of_ascii c in
  if ((97 <=? n) && (n <=? 122))%N then Ascii.ascii_of_N (n - 32) else c.

(** [s.toUpperCase()]; outside ASCII no character is mapped to a letter
    of [GET] or [HEAD], the only words the result is compared with. *)
Fixpoint toUpperCase (s : string) : string :=
  match s with
  | EmptyString => EmptyString
  | String c s' => String (upper_char c) (toUpperCase s')
  end.

(** Truthiness of a string: [""] is falsy. *)
Definition truthy (s : string) : bool :=
  match s with EmptyString => false | _ => true end.

(** [a || b] on optional strings. *)
Definition or_else (o : option string) (d : string) : string :=
  match o with
  | Some s => if truthy s then s else d
  | None => d
  end.

Definition byte (c : ascii) : N := Ascii.N_of_ascii c.

(** White space and line terminators of ECMAScript, as UTF-8 sequences:
    [skip_ws s] removes one such character from the front of [s]. *)
Definition skip_ws (s : string) : option string :=
  match s with
  | String c1 r1 =>
      let b1 := byte c1 in
      if ((9 <=? b1) && (b1 <=? 13) || (b1 =? 32))%N then Some r1
      else match r1 with
      | String c2 r2 =>
          let b2 := byte c2 in
          if ((b1 =? 194) && (b2 =? 160))%N then Some r2
          else match r2 with
          | String c3 r3 =>
              let b3 := byte c3 in
              if ((b1 =? 225) && (b2 =? 154) && (b3 =? 128)
                  || (b1 =? 226) && (b2 =? 128) &&
                     ((128 <=? b3) && (b3 <=? 138) || (b3 =? 168)
                      || (b3 =? 169) || (b3 =? 175))
                  || (b1 =? 226) && (b2 =? 129) && (b3 =? 159)
                  || (b1 =? 227) && (b2 =? 128) && (b3 =? 128)
                  || (b1 =? 239) && (b2 =? 187) && (b3 =? 191))%N
              then Some r3 else None
          | EmptyString => None
          end
      | EmptyString => None
      end
  | EmptyString => None
  end.

(** [s.trimStart()], by recursion on a bound on the length. *)
Fixpoint trimStart_upto (n : nat) (s : string) : string :=
  match n with
  | O => s
  | S n' =>
      match skip_ws s with
      | Some r => trimStart_upto n' r
      | None => s
      end
  end.

Definition trimStart (s : string) : string :=
  trimStart_upto (String.length s) s.

(** White space read backwards, on the reversed string. *)
Definition skip_ws_rev (s : string) : option string :=
  match s with
  | String c1 r1 =>
      let b1 := byte c1 in
      if ((9 <=? b1) && (b1 <=? 13) || (b1 =? 32))%N then Some r1
      else match r1 with
      | String c2 r2 =>
          let b2 := byte c2 in
          if ((b2 =? 194) && (b1 =? 160))%N then Some r2
          else match r2 with
          | String c3 r3 =>
              let b3 := byte c3 in
              if ((b3 =? 225) && (b2 =? 154) && (b1 =? 128)
                  || (b3 =? 226) && (b2 =? 128) &&
                     ((128 <=? b1) && (b1 <=? 138) || (b1 =? 168)
                      || (b1 =? 169) || (b1 =? 175))
                  || (b3 =? 226) && (b2 =? 129) && (b1 =? 159)
                  || (b3 =? 227) && (b2 =? 128) && (b1 =? 128)
                  || (b3 =? 239) && (b2 =? 187) && (b1 =? 191))%N
              then Some r3 else None
          | EmptyString => None
          end
      | EmptyString => None
      end
  | EmptyString => None
  end.

Fixpoint trimEnd_upto (n : nat) (rs : string) : string :=
  match n with
  | O => rs
  | S n' =>
      match skip_ws_rev rs with
      | Some r => trimEnd_upto n' r
      | None => rs
      end
  end.

Definition trimEnd (s : string) : string :=
  String.rev (trimEnd_upto (String.length s) (String.rev s)).

(** [s.trim()] *)
Definition trim (s : string) : string := trimEnd (trimStart s).

Definition hex_digit (upper : bool) (n : N) : ascii :=
  if (n <? 10)%N then Ascii.ascii_of_N (48 + n)
  else Ascii.ascii_of_N ((if upper then 55 else 87) + n).

Definition hex2 (upper : bool) (n : N) : string :=
  String (hex_digit upper (n / 16)) (String (hex_digit upper (n mod 16)) "").

(** Bytes that the application/x-www-form-urlencoded serializer leaves
    as they are: ASCII letters and digits, and [*], [-], [.], [_]. *)
Definition form_safe (c : ascii) : bool :=
  let n := byte c in
  ((48 <=? n) && (n <=? 57) || (65 <=? n) && (n <=? 90)
   || (97 <=? n) && (n <=? 122)
   || (n =? 42) || (n =? 45) || (n =? 46) || (n =? 95))%N.

Definition form_encode_byte (c : ascii) : string :=
  if (byte c =? 32)%N then "+"
  else if form_safe c then String c ""
  else String "%" (hex2 true (byte c)).

Fixpoint form_encode (s : string) : string :=
  match s with
  | EmptyString => EmptyString
  | String c s' => form_encode_byte c ++ form_encode s'
  end.

Definition quote : string := String (Ascii.ascii_of_N 34) "".
Definition backslash : string := String (Ascii.ascii_of_N 92) "".

(** [JSON.stringify(s)] for a string [s]. *)
Definition json_quote_byte (c : ascii) : string :=
  let n := byte c in
  if (n =? 34)%N then backslash ++ quote
  else if (n =? 92)%N then backslash ++ backslash
  else if (n =? 8)%N then backslash ++ "b"
  else if (n =? 9)%N then backslash ++ "t"
  else if (n =? 10)%N then backslash ++ "n"
  else if (n =? 12)%N then backslash ++ "f"
  else if (n =? 13)%N then backslash ++ "r"
  else if (n <? 32)%N then backslash ++ "u00" ++ hex2 false n
  else String c "".

Fixpoint json_quote_body (s : string) : string :=
  match s with
  | EmptyString => EmptyString
  | String c s' => json_quote_byte c ++ json_quote_body s'
  end.

Definition JSON_stringify (s : string) : string :=
  quote ++ json_quote_body s ++ quote.

(** *** Numbers

    A number is an IEEE 754 binary64 value, as [SpecFloat] has them: a
    zero, an infinity, NaN, or a finite [(-1)^s * m * 2^e]. The numbers of
    JavaScript are those of this type whose representation is canonical
    ([is_number]); the operations below are those of [SpecFloat] at
    precision 53, with rounding to nearest, ties to even. *)
Definition number : Type := spec_float.

Definition prec : Z := 53.
Definition emax : Z := 1024.

Definition is_number (x : number) : bool := valid_binary prec emax x.

(** The number that the integer literal [n] denotes. *)
Definition number_of_Z (n : Z) : number := binary_normalize prec emax n 0 false.

Definition zero : number := number_of_Z 0.
Definition one : number := number_of_Z 1.

(** [0.5] *)
Definition half : number := binary_normalize prec emax 1 (-1) false.

Definition Infinity : number := S754_infinity false.
Definition NaN : number := S754_nan.

(** [a - b], [a > b], [a <= b], [a < b]; a comparison with NaN is
    false. *)
Definition minus (a b : number) : number := SFsub prec emax a b.
Definition gt (a b : number) : bool := SFltb b a.
Definition le (a b : number) : bool := SFleb a b.
Definition lt (a b : number) : bool := SFltb a b.

End Js.

(** ** types.ts *)

(** Values carried as response data. *)
Unset Elimination Schemes.
Inductive JsValue : Type :=
| VNull
| VBool (b : bool)
| VNum (n : Z)
| VStr (s : string)
| VArr (items : list JsValue)
| VObj (fields : list (string * JsValue)).
Set Elimination Schemes.

(** [HeadersInit]: a plain object, an array of name-value pairs, or a
    [Headers] instance. A property of the plain object is a string, or
    whatever a spread has put there. *)
Inductive HeadersInit : Type :=
| HeadersRecord (entries : gmap string JsValue)
| HeadersPairs (pairs : list (string * string))
| HeadersObject (entries : list (string * string)).

(** [{ ...headers }]: the own enumerable properties of [headers]. A plain
    object has its entries, an array has its elements under their
    indices, a [Headers] instance has none. *)
Definition spread_headers (headers : HeadersInit) : gmap string JsValue :=
  match headers with
  | HeadersRecord entries => entries
  | HeadersPairs pairs =>
      list_to_map
        (imap (fun (index : nat) (pair : string * string) =>
                 (pretty index, VArr [VStr (fst pair); VStr (snd pair)]))
              pairs)
  | HeadersObject _ => ∅
  end.

Inductive RequestCredentials : Type := Omit | SameOrigin | Include.

Definition credentials_string (c : RequestCredentials) : string :=
  match c with
  | Omit => "omit"
  | SameOrigin => "same-origin"
  | Include => "include"
  end.

(** A value found under a key of [params] at run time. *)
Inductive ParamValue : Type :=
| PUndefined
| PNull
| PString (s : string)
| PNumber (n : Z)
| PBoolean (b : bool).

(** [String(value)] *)
Definition String_of (value : ParamValue) : string :=
  match value with
  | PUndefined => "undefined"
  | PNull => "null"
  | PString s => s
  | PNumber n => pretty n
  | PBoolean b => if b then "true" else "false"
  end.

Module RetryConfig.
(** [shouldRetry] refers to a closure of the host by its number. *)
Record t : Type := mk {
  count : Js.number;
  delay : option Z;
  shouldRetry : option nat
}.
End RetryConfig.

Module RequestOptions.
(** [params] lists the entries of the object in the order of
    [Object.entries]. Options without [headers] have the empty object
    here: the code only spreads them, and both spread to nothing. *)
Record t : Type := mk {
  method : option string;
  headers : HeadersInit;
  body : option string;
  params : option (list (string * ParamValue));
  timeout : option Z;
  credentials : option RequestCredentials;
  retry : option RetryConfig.t;
  url : option string
}.

Definition empty : t :=
  mk None (HeadersRecord ∅) None None None None None None.

Definition with_method (m : option string) (o : t) : t :=
  mk m (headers o) (body o) (params o) (timeout o) (credentials o)
     (retry o) (url o).

Definition with_body (b : option string) (o : t) : t :=
  mk (method o) (headers o) b (params o) (timeout o) (credentials o)
     (retry o) (url o).

Definition with_retry (r : option RetryConfig.t) (o : t) : t :=
  mk (method o) (headers o) (body o) (params o) (timeout o) (credentials o)
     r (url o).
End RequestOptions.

Module HttpClientConfig.
Record t : Type := mk {
  baseURL : option string;
  defaultHeaders : option (gmap string string);
  timeout : option Z;
  credentials : option RequestCredentials;
  retry : option RetryConfig.t
}.

Definition empty : t := mk None None None None None.
End HttpClientConfig.

Module HttpResponse.
Record t : Type := mk {
  data : JsValue;
  status : Z;
  headers : gmap string string;
  config : RequestOptions.t
}.
End HttpResponse.

(** An instance of [Error]: [TypeError], [SyntaxError], the [AbortError]
    of an aborted transport. *)
Module NativeError.
Record t : Type := mk {
  name : string;
  message : string
}.
End NativeError.

Module HttpRequestError.
Record t : Type := mk {
  message : string;
  status : option Z;
  data : option JsValue;
  config : option RequestOptions.t;
  cause : option NativeError.t
}.
End HttpRequestError.

(** What a [throw] carries: an [Error] of the platform or a plain record. *)
Inductive Thrown : Type :=
| ThrownError (e : NativeError.t)
| ThrownRecord (r : HttpRequestError.t).

(** [error.status] *)
Definition status_of (error : Thrown) : option Z :=
  match error with
  | ThrownError _ => None
  | ThrownRecord r => HttpRequestError.status r
  end.

(** [error instanceof Error && error.name === name] *)
Definition is_error_named (name : string) (error : Thrown) : bool :=
  match error with
  | ThrownError e => String.eqb (NativeError.name e) name
  | ThrownRecord _ => false
  end.

(** The outcome of awaiting a promise. *)
Inductive Result (A : Type) : Type :=
| Returns (a : A)
| Throws (e : Thrown).

Arguments Returns {A} a.
Arguments Throws {A} e.

(** What [request] resolves to: an envelope, or the record that a
    response-error function returned. *)
Inductive Settled : Type :=
| Envelope (r : HttpResponse.t)
| Returned (e : HttpRequestError.t).

Module RequestInterceptor.
Record t : Type := mk {
  onRequest : option (RequestOptions.t -> Result RequestOptions.t);
  onRequestError : option (Thrown -> Result (option HttpRequestError.t))
}.
End RequestInterceptor.

Module ResponseInterceptor.
Record t : Type := mk {
  onResponse : option (HttpResponse.t -> Result HttpResponse.t);
  onResponseError : option (Thrown -> Result Settled)
}.
End ResponseInterceptor.

(** ** The host *)

(** The [Response] of the platform: [json] and [text] give the outcome of
    awaiting the method of that name, [body] tells whether [response.body]
    is not null, [headers] is keyed by lower-case names. *)
Module Response.
Record t : Type := mk {
  status : Z;
  headers : gmap string string;
  body : bool;
  json : Result JsValue;
  text : Result string
}.

Definition ok (r : t) : bool :=
  ((200 <=? status r) && (status r <=? 299))%Z.
End Response.

(** The members of [fetchOptions] that the transport reads. *)
Module RequestInit.
Record t : Type := mk {
  method : option string;
  headers : gmap string JsValue;
  body : option string;
  credentials : RequestCredentials;
  signal : nat
}.

Definition delete_body (i : t) : t :=
  mk (method i) (headers i) None (credentials i) (signal i).
End RequestInit.

(** How a call of the transport ends: with a response, with a failure, or
    with the timer of the request firing first, upon which the aborted
    transport rejects with an [AbortError] of the given message. *)
Inductive FetchResult : Type :=
| Resolves (r : Response.t)
| Rejects (e : Thrown)
| TimesOut (message : string).

(** [fetch n url init] is the result of the call of the transport that
    comes after [n] earlier ones. *)
Record Host : Type := mkHost {
  fetch : nat -> string -> RequestInit.t -> FetchResult;
  closure : nat -> Thrown -> bool
}.

(** ** HttpClient.ts: the instance and its state *)

Module HttpClient.
(** [pendingRequests] maps a request key to an [AbortController]. *)
Record t : Type := mk {
  baseURL : string;
  defaultHeaders : gmap string string;
  defaultTimeout : Z;
  defaultCredentials : RequestCredentials;
  defaultRetry : option RetryConfig.t;
  pendingRequests : gmap string nat;
  requestInterceptors : list RequestInterceptor.t;
  responseInterceptors : list ResponseInterceptor.t
}.

Definition with_pendingRequests (m : gmap string nat) (c : t) : t :=
  mk (baseURL c) (defaultHeaders c) (defaultTimeout c)
     (defaultCredentials c) (defaultRetry c) m (requestInterceptors c)
     (responseInterceptors c).

Definition with_requestInterceptors (l : list RequestInterceptor.t)
    (c : t) : t :=
  mk (baseURL c) (defaultHeaders c) (defaultTimeout c)
     (defaultCredentials c) (defaultRetry c) (pendingRequests c) l
     (responseInterceptors c).

Definition with_responseInterceptors (l : list ResponseInterceptor.t)
    (c : t) : t :=
  mk (baseURL c) (defaultHeaders c) (defaultTimeout c)
     (defaultCredentials c) (defaultRetry c) (pendingRequests c)
     (requestInterceptors c) l.
End HttpClient.

(** Effects that the properties below observe. Interceptors are named by
    their position in the list they are registered in. *)
Inductive Event : Type :=
| EvNewController (controller : nat)
| EvSetTimeout (timeoutId : nat) (ms : Z)
| EvClearTimeout (timeoutId : nat)
| EvAbort (controller : nat)
| EvFetch (url : string) (init : RequestInit.t)
| EvDelay (ms : Z)
| EvRequestError (index : nat) (error : Thrown)
| EvResponseError (index : nat) (error : Thrown).

Record State : Type := mkState {
  this : HttpClient.t;
  fetched : nat;
  fresh : nat;
  trace : list Event
}.

Definition with_this (c : HttpClient.t) (st : State) : State :=
  mkState c (fetched st) (fresh st) (trace st).

(** ** Computations *)

Definition M (A : Type) : Type := State -> Result A * State.

Definition ret {A} (a : A) : M A := fun st => (Returns a, st).

Definition throw {A} (e : Thrown) : M A := fun st => (Throws e, st).

Definition bind {A B} (m : M A) (k : A -> M B) : M B :=
  fun st =>
    match m st with
    | (Returns a, st') => k a st'
    | (Throws e, st') => (Throws e, st')
    end.

Definition try_catch {A} (m : M A) (handler : Thrown -> M A) : M A :=
  fun st =>
    match m st with
    | (Returns a, st') => (Returns a, st')
    | (Throws e, st') => handler e st'
    end.

(** [await p] for a promise of the host that settles as [r]. *)
Definition await {A} (r : Result A) : M A := fun st => (r, st).

(** The state after some more events. *)
Definition log (evs : list Event) (st : State) : State :=
  mkState (this st) (fetched st) (fresh st) (trace st ++ evs)%list.

Definition emit (ev : Event) : M unit :=
  fun st => (Returns tt, log [ev] st).

Definition read_this : M HttpClient.t := fun st => (Returns (this st), st).

Declare Scope js_scope.
Delimit Scope js_scope with js.
Notation "x <- m ;; k" := (bind m (fun x => k))
  (at level 100, m at next level, right associativity) : js_scope.
Notation "m ;; k" := (bind m (fun _ => k))
  (at level 100, right associativity) : js_scope.
Local Open Scope js_scope.

(** ** HttpClient.ts: the class *)

Definition constructor (config : HttpClientConfig.t) : HttpClient.t :=
  HttpClient.mk
    (Js.or_else (HttpClientConfig.baseURL config) "")
    (default ∅ (HttpClientConfig.defaultHeaders config)
       ∪ {[ "Content-Type" := "application/json" ]})
    (match HttpClientConfig.timeout config with
     | Some ms => if (ms =? 0)%Z then 3000 else ms
     | None => 3000
     end)
    (default SameOrigin (HttpClientConfig.credentials config))
    (HttpClientConfig.retry config)
    ∅ [] [].

Definition addRequestInterceptor (interceptor : RequestInterceptor.t)
    : M unit :=
  fun st =>
    (Returns tt,
     with_this (HttpClient.with_requestInterceptors
                  (HttpClient.requestInterceptors (this st) ++ [interceptor])%list
                  (this st)) st).

Definition addResponseInterceptor (interceptor : ResponseInterceptor.t)
    : M unit :=
  fun st =>
    (Returns tt,
     with_this (HttpClient.with_responseInterceptors
                  (HttpClient.responseInterceptors (this st) ++ [interceptor])%list
                  (this st)) st).

(** The state once [requestKey] is out of [pendingRequests]. *)
Definition unregister (requestKey : string) (st : State) : State :=
  with_this (HttpClient.with_pendingRequests
               (delete requestKey (HttpClient.pendingRequests (this st)))
               (this st)) st.

(** [this.pendingRequests.delete(requestKey)] *)
Definition pendingRequests_delete (requestKey : string) : M unit :=
  fun st => (Returns tt, unregister requestKey st).

Definition cancelRequest (requestKey : string) : M unit :=
  this <- read_this ;;
  match HttpClient.pendingRequests this !! requestKey with
  | Some controller =>
      emit (EvAbort controller) ;;
      pendingRequests_delete requestKey
  | None => ret tt
  end.

Definition createRequestKey (this : HttpClient.t) (url : string)
    (options : RequestOptions.t) : string :=
  Js.or_else (RequestOptions.method options) "GET" ++ "-" ++ url ++ "-"
  ++ credentials_string
       (default (HttpClient.defaultCredentials this)
                (RequestOptions.credentials options))
  ++ "-" ++ Js.JSON_stringify (Js.or_else (RequestOptions.body options) "").

Definition getRequestKey (this : HttpClient.t) (url : string)
    (options : RequestOptions.t) : string :=
  createRequestKey this url options.

(** [URLSearchParams]: the list of name-value pairs, [append] and
    [toString]. *)
Module URLSearchParams.
Definition t : Type := list (string * string).

Definition append (sp : t) (name value : string) : t :=
  (sp ++ [(name, value)])%list.

Definition pair_toString (p : string * string) : string :=
  Js.form_encode (fst p) ++ "=" ++ Js.form_encode (snd p).

Fixpoint toString (sp : t) : string :=
  match sp with
  | [] => ""
  | [p] => pair_toString p
  | p :: rest => pair_toString p ++ "&" ++ toString rest
  end.
End URLSearchParams.

Definition is_undefined (value : ParamValue) : bool :=
  match value with PUndefined => true | _ => false end.

Definition is_null (value : ParamValue) : bool :=
  match value with PNull => true | _ => false end.

Definition createURLWithParams (url : string)
    (params : option (list (string * ParamValue))) : string :=
  match params with
  | None => url
  | Some entries =>
      let searchParams :=
        fold_left
          (fun (sp : URLSearchParams.t) (entry : string * ParamValue) =>
             let (key, value) := entry in
             if negb (is_undefined value) && negb (is_null value)
                && negb (String.eqb (Js.trim (String_of value)) "")
             then URLSearchParams.append sp key (String_of value)
             else sp)
          entries [] in
      let queryString := URLSearchParams.toString searchParams in
      if Js.truthy queryString
      then url ++ (if Js.includes url "?" then "&" else "?") ++ queryString
      else url
  end.

(** [response.json()] or [response.text()], as the declared content type
    has it. *)
Definition read_body (response : Response.t) : Result JsValue :=
  let contentType := Response.headers response !! "content-type" in
  if match contentType with
     | Some ct => Js.includes ct "application/json"
     | None => false
     end
  then Response.json response
  else match Response.text response with
       | Returns text => Returns (VStr text)
       | Throws e => Throws e
       end.

Definition handleResponse (response : Response.t)
    (config : RequestOptions.t) : M HttpResponse.t :=
  try_catch
    (data <-
       (if Response.body response
           && negb (bool_decide
                      (Response.headers response !! "content-length"
                       = Some "0"))
        then await (read_body response)
        else ret VNull) ;;
     if negb (Response.ok response)
     then throw (ThrownRecord
                   (HttpRequestError.mk
                      ("HTTP error! status: "
                       ++ pretty (Response.status response))
                      (Some (Response.status response))
                      (Some data)
                      (Some config)
                      None))
     else ret (HttpResponse.mk data (Response.status response)
                 (Response.headers response) config))
    (fun error =>
       match error with
       | ThrownError e =>
           if String.eqb (NativeError.name e) "SyntaxError"
           then throw (ThrownRecord
                         (HttpRequestError.mk
                            "Invalid response format"
                            (Some (Response.status response))
                            (Some VNull)
                            (Some config)
                            (Some e)))
           else throw error
       | ThrownRecord _ => throw error
       end).

(** The inner loop of [applyRequestInterceptors]: every [onRequestError]
    is awaited in turn and what it returns is dropped. *)
Fixpoint notifyRequestError (index : nat)
    (interceptors : list RequestInterceptor.t) (error : Thrown) : M unit :=
  match interceptors with
  | [] => ret tt
  | interceptor :: rest =>
      match RequestInterceptor.onRequestError interceptor with
      | Some onRequestError =>
          emit (EvRequestError index error) ;;
          _ <- await (onRequestError error) ;;
          notifyRequestError (S index) rest error
      | None => notifyRequestError (S index) rest error
      end
  end.

Fixpoint requestInterceptors_loop (interceptors : list RequestInterceptor.t)
    (currentConfig : RequestOptions.t) : M RequestOptions.t :=
  match interceptors with
  | [] => ret currentConfig
  | interceptor :: rest =>
      currentConfig <-
        try_catch
          (match RequestInterceptor.onRequest interceptor with
           | Some onRequest => await (onRequest currentConfig)
           | None => ret currentConfig
           end)
          (fun error =>
             this <- read_this ;;
             notifyRequestError 0 (HttpClient.requestInterceptors this) error ;;
             throw error) ;;
      requestInterceptors_loop rest currentConfig
  end.

Definition applyRequestInterceptors (config : RequestOptions.t)
    : M RequestOptions.t :=
  this <- read_this ;;
  requestInterceptors_loop (HttpClient.requestInterceptors this) config.

Fixpoint notifyResponseError (index : nat)
    (interceptors : list ResponseInterceptor.t) (error : Thrown) : M unit :=
  match interceptors with
  | [] => ret tt
  | interceptor :: rest =>
      match ResponseInterceptor.onResponseError interceptor with
      | Some onResponseError =>
          emit (EvResponseError index error) ;;
          _ <- await (onResponseError error) ;;
          notifyResponseError (S index) rest error
      | None => notifyResponseError (S index) rest error
      end
  end.

Fixpoint responseInterceptors_loop
    (interceptors : list ResponseInterceptor.t)
    (currentResponse : HttpResponse.t) : M HttpResponse.t :=
  match interceptors with
  | [] => ret currentResponse
  | interceptor :: rest =>
      currentResponse <-
        try_catch
          (match ResponseInterceptor.onResponse interceptor with
           | Some onResponse => await (onResponse currentResponse)
           | None => ret currentResponse
           end)
          (fun error =>
             this <- read_this ;;
             notifyResponseError 0 (HttpClient.responseInterceptors this)
               error ;;
             throw error) ;;
      responseInterceptors_loop rest currentResponse
  end.

Definition applyResponseInterceptors (response : HttpResponse.t)
    : M HttpResponse.t :=
  this <- read_this ;;
  responseInterceptors_loop (HttpClient.responseInterceptors this) response.

Definition clearTimeout (timeoutId : nat) : M unit :=
  emit (EvClearTimeout timeoutId).

(** [this.delay(ms)] *)
Definition delay (ms : Z) : M unit := emit (EvDelay ms).

(** The variables of one call of [request]. *)
Record Call : Type := mkCall {
  controller : nat;
  requestKey : string;
  retryConfig : option RetryConfig.t;
  timeoutId : nat
}.

(** The callback that [request] arms. *)
Definition timeout_callback (controller : nat) (requestKey : string)
    : M unit :=
  emit (EvAbort controller) ;;
  pendingRequests_delete requestKey.

(** [request] up to its [try]: [new AbortController()], the request key,
    the policy in effect and [setTimeout]; none of them throws. *)
Definition request_start (url : string) (options : RequestOptions.t)
    (st : State) : Call * State :=
  let controller := fresh st in
  let requestKey := createRequestKey (this st) url options in
  let retryConfig :=
    match RequestOptions.retry options with
    | Some r => Some r
    | None => HttpClient.defaultRetry (this st)
    end in
  let timeoutId := S (fresh st) in
  let ms :=
    match RequestOptions.timeout options with
    | Some ms =>
        if (ms =? 0)%Z then HttpClient.defaultTimeout (this st) else ms
    | None => HttpClient.defaultTimeout (this st)
    end in
  (mkCall controller requestKey retryConfig timeoutId,
   mkState (this st) (fetched st) (S (S (fresh st)))
     (trace st ++ [EvNewController controller; EvSetTimeout timeoutId ms])%list).

(** [fetchOptions], as [request] builds it from the intercepted options
    and hands it to the transport. *)
Definition fetchOptions_of (this : HttpClient.t) (call : Call)
    (interceptedOptions : RequestOptions.t) : RequestInit.t :=
  let fetchOptions :=
    RequestInit.mk
      (RequestOptions.method interceptedOptions)
      (spread_headers (RequestOptions.headers interceptedOptions)
         ∪ (VStr <$> HttpClient.defaultHeaders this))
      (RequestOptions.body interceptedOptions)
      (default (HttpClient.defaultCredentials this)
               (RequestOptions.credentials interceptedOptions))
      (controller call) in
  if bool_decide
       (Js.or_else (Js.toUpperCase <$> RequestInit.method fetchOptions) ""
        ∈ ["GET"; "HEAD"])
  then RequestInit.delete_body fetchOptions
  else fetchOptions.

(** The end of the [catch] of [request]: after the loop over
    [onResponseError], an [AbortError] is wrapped and the failure thrown. *)
Definition rethrow (options : RequestOptions.t) (error : Thrown)
    : Thrown :=
  match error with
  | ThrownError e =>
      if String.eqb (NativeError.name e) "AbortError"
      then ThrownRecord
             (HttpRequestError.mk "Request was cancelled" None None
                (Some options) (Some e))
      else error
  | ThrownRecord _ => error
  end.

(** The loop over [onResponseError] in the [catch] of [request]. *)
Fixpoint recover_loop (index : nat)
    (interceptors : list ResponseInterceptor.t)
    (options : RequestOptions.t) (httpError error : Thrown) : M Settled :=
  match interceptors with
  | [] => throw (rethrow options error)
  | interceptor :: rest =>
      match ResponseInterceptor.onResponseError interceptor with
      | Some onResponseError =>
          try_catch
            (emit (EvResponseError index httpError) ;;
             await (onResponseError httpError))
            (fun interceptorError =>
               recover_loop (S index) rest options httpError interceptorError)
      | None => recover_loop (S index) rest options httpError error
      end
  end.

Definition request_recover (options : RequestOptions.t)
    (httpError : Thrown) : M Settled :=
  this <- read_this ;;
  recover_loop 0 (HttpClient.responseInterceptors this) options
    httpError httpError.

(** The state once the transport has been called. *)
Definition fetching (fullUrl : string) (fetchOptions : RequestInit.t)
    (st : State) : State :=
  mkState (this st) (S (fetched st)) (fresh st)
    (trace st ++ [EvFetch fullUrl fetchOptions])%list.

Section Client.

Variable host : Host.

(** [await fetch(fullUrl, fetchOptions)], with the timer of the call
    armed. *)
Definition call_fetch (call : Call) (fullUrl : string)
    (fetchOptions : RequestInit.t) : M Response.t :=
  fun st =>
    let st' := fetching fullUrl fetchOptions st in
    match fetch host (fetched st) fullUrl fetchOptions with
    | Resolves response => (Returns response, st')
    | Rejects error => (Throws error, st')
    | TimesOut message =>
        (timeout_callback (controller call) (requestKey call) ;;
         throw (ThrownError (NativeError.mk "AbortError" message))) st'
    end.

(** The [try] of [request], up to the normalized response. *)
Definition request_send (call : Call) (url : string)
    (options : RequestOptions.t) : M HttpResponse.t :=
  interceptedOptions <- applyRequestInterceptors options ;;
  this <- read_this ;;
  let fullUrl :=
    createURLWithParams (HttpClient.baseURL this ++ url)
      (RequestOptions.params interceptedOptions) in
  let fetchOptions := fetchOptions_of this call interceptedOptions in
  response <- call_fetch call fullUrl fetchOptions ;;
  clearTimeout (timeoutId call) ;;
  pendingRequests_delete (requestKey call) ;;
  handleResponse response interceptedOptions.

(** The [try] of [request]. *)
Definition request_try (call : Call) (url : string)
    (options : RequestOptions.t) : M HttpResponse.t :=
  handledResponse <- request_send call url options ;;
  applyResponseInterceptors handledResponse.

(** The first two statements of the [catch] of [request]. *)
Definition request_cleanup (call : Call) : M unit :=
  clearTimeout (timeoutId call) ;;
  pendingRequests_delete (requestKey call).

(** [retryConfig.shouldRetry?.(error) ??
     (error.status ? error.status >= 500 : true)] *)
Definition shouldRetry (retryConfig : RetryConfig.t) (error : Thrown)
    : bool :=
  match RetryConfig.shouldRetry retryConfig with
  | Some f => closure host f error
  | None =>
      match status_of error with
      | Some status => if (status =? 0)%Z then true else (500 <=? status)%Z
      | None => true
      end
  end.

(** A computation that may call [request] again is run with a bound on
    the depth of these calls; [None] tells that the bound was reached
    before the computation had settled. *)
Definition Reentrant : Type := State -> option (Result Settled * State).

(** [if (retryConfig.delay) await this.delay(retryConfig.delay)] *)
Definition wait_delay (retryConfig : RetryConfig.t) : M unit :=
  match RetryConfig.delay retryConfig with
  | Some ms => if (ms =? 0)%Z then ret tt else delay ms
  | None => ret tt
  end.

(** [retryRequest]; the parameter [request] is [this.request]. *)
Definition retryRequest
    (request : string -> RequestOptions.t -> Reentrant)
    (url : string) (options : RequestOptions.t) (error : Thrown)
    (retryCount : Js.number) (retryConfig : RetryConfig.t) : Reentrant :=
  fun st =>
    if Js.le retryCount Js.zero then Some (Throws error, st)
    else if negb (shouldRetry retryConfig error)
    then Some (Throws error, st)
    else
      let st' := snd (wait_delay retryConfig st) in
      request url
        (RequestOptions.with_retry
           (Some (RetryConfig.mk (Js.minus retryCount Js.one)
                    (RetryConfig.delay retryConfig)
                    (RetryConfig.shouldRetry retryConfig)))
           options)
        st'.

(** The body of [request]; the parameter [request] is the [this.request]
    that [retryRequest] calls. *)
Definition request_body
    (request : string -> RequestOptions.t -> Reentrant)
    (url : string) (options : RequestOptions.t) : Reentrant :=
  fun st =>
    let (call, st1) := request_start url options st in
    match request_try call url options st1 with
    | (Returns response, st2) =>
        Some (Returns (Envelope response), st2)
    | (Throws httpError, st2) =>
        let st3 := snd (request_cleanup call st2) in
        match retryConfig call with
        | Some retryConfig =>
            if Js.gt (RetryConfig.count retryConfig) Js.zero
            then retryRequest request url options
                   httpError (RetryConfig.count retryConfig)
                   retryConfig st3
            else Some (request_recover options httpError st3)
        | None => Some (request_recover options httpError st3)
        end
    end.

(** [request], run with room for [depth] nested calls of itself, the
    outermost included. *)
Fixpoint request (depth : nat) (url : string)
    (options : RequestOptions.t) : Reentrant :=
  match depth with
  | O => fun _ => None
  | S depth' => request_body (request depth') url options
  end.

Definition get (depth : nat) (url : string) (options : RequestOptions.t)
    : Reentrant :=
  request depth url (RequestOptions.with_method (Some "GET") options).

End Client.

(** ** Common interceptors *)


Definition createRetryInterceptor (retryConfig : RetryConfig.t)
    : ResponseInterceptor.t :=
  ResponseInterceptor.mk
    None
    (Some (fun error =>
             match error with
             | ThrownRecord r =>
                 match HttpRequestError.status r with
                 | Some status =>
                     if negb (status =? 0)%Z && (500 <=? status)%Z
                        && Js.gt (RetryConfig.count retryConfig) Js.zero
                     then Returns (Returned r)
                     else Throws error
                 | None => Throws error
                 end
             | ThrownError _ => Throws error
             end)).

Definition createLoggingInterceptor
    : RequestInterceptor.t * ResponseInterceptor.t :=
  (RequestInterceptor.mk (Some (fun config => Returns config)) None,
   ResponseInterceptor.mk
     (Some (fun response => Returns response))
     (Some (fun error => Throws error))).

Definition with_message (message : string) (r : HttpRequestError.t)
    : HttpRequestError.t :=
  HttpRequestError.mk message (HttpRequestError.status r)
    (HttpRequestError.data r) (HttpRequestError.config r)
    (HttpRequestError.cause r).

Definition createErrorTransformInterceptor : ResponseInterceptor.t :=
  ResponseInterceptor.mk
    None
    (Some (fun error =>
             match error with
             | ThrownRecord r =>
                 if bool_decide (HttpRequestError.status r = Some 401)
                 then Throws (ThrownRecord
                                (with_message "Authentication required" r))
                 else if bool_decide (HttpRequestError.status r = Some 403)
                 then Throws (ThrownRecord
                                (with_message "Permission denied" r))
                 else Throws error
             | ThrownError _ => Throws error
             end)).

(** ** Notions used in the statements *)

Definition returns {A} (r : Result A) : bool :=
  match r with Returns _ => true | Throws _ => false end.

(** What the [onRequest] functions make of a configuration when each is
    awaited in turn. *)
Fixpoint onRequest_chain (interceptors : list RequestInterceptor.t)
    (config : RequestOptions.t) : Result RequestOptions.t :=
  match interceptors with
  | [] => Returns config
  | interceptor :: rest =>
      match RequestInterceptor.onRequest interceptor with
      | Some onRequest =>
          match onRequest config with
          | Returns config' => onRequest_chain rest config'
          | Throws e => Throws e
          end
      | None => onRequest_chain rest config
      end
  end.

Fixpoint onResponse_chain (interceptors : list ResponseInterceptor.t)
    (response : HttpResponse.t) : Result HttpResponse.t :=
  match interceptors with
  | [] => Returns response
  | interceptor :: rest =>
      match ResponseInterceptor.onResponse interceptor with
      | Some onResponse =>
          match onResponse response with
          | Returns response' => onResponse_chain rest response'
          | Throws e => Throws e
          end
      | None => onResponse_chain rest response
      end
  end.

(** One call of every registered [onRequestError], in the order of
    registration. *)
Fixpoint requestError_calls (index : nat)
    (interceptors : list RequestInterceptor.t) (error : Thrown)
    : list Event :=
  match interceptors with
  | [] => []
  | interceptor :: rest =>
      match RequestInterceptor.onRequestError interceptor with
      | Some _ =>
          EvRequestError index error :: requestError_calls (S index) rest error
      | None => requestError_calls (S index) rest error
      end
  end.

Fixpoint responseError_calls (index : nat)
    (interceptors : list ResponseInterceptor.t) (error : Thrown)
    : list Event :=
  match interceptors with
  | [] => []
  | interceptor :: rest =>
      match ResponseInterceptor.onResponseError interceptor with
      | Some _ =>
          EvResponseError index error
          :: responseError_calls (S index) rest error
      | None => responseError_calls (S index) rest error
      end
  end.

(** No [onRequestError] throws on [error]. *)
Definition requestErrors_return (interceptors : list RequestInterceptor.t)
    (error : Thrown) : bool :=
  forallb
    (fun interceptor =>
       match RequestInterceptor.onRequestError interceptor with
       | Some f => returns (f error)
       | None => true
       end)
    interceptors.

Definition responseErrors_return
    (interceptors : list ResponseInterceptor.t) (error : Thrown) : bool :=
  forallb
    (fun interceptor =>
       match ResponseInterceptor.onResponseError interceptor with
       | Some f => returns (f error)
       | None => true
       end)
    interceptors.

(** Every [onResponseError] throws on [error]. *)
Definition responseErrors_throw
    (interceptors : list ResponseInterceptor.t) (error : Thrown) : bool :=
  forallb
    (fun interceptor =>
       match ResponseInterceptor.onResponseError interceptor with
       | Some f => negb (returns (f error))
       | None => true
       end)
    interceptors.

(** The failure that the loop of the [catch] ends with when every
    [onResponseError] throws: the last one thrown. *)
Fixpoint last_failure (interceptors : list ResponseInterceptor.t)
    (httpError error : Thrown) : Thrown :=
  match interceptors with
  | [] => error
  | interceptor :: rest =>
      match ResponseInterceptor.onResponseError interceptor with
      | Some f =>
          match f httpError with
          | Throws e => last_failure rest httpError e
          | Returns _ => error
          end
      | None => last_failure rest httpError error
      end
  end.

(** [c'] is [c] with some keys out of [pendingRequests], or [c]. *)
Definition same_instance (c c' : HttpClient.t) : Prop :=
  HttpClient.with_pendingRequests (HttpClient.pendingRequests c) c' = c
  /\ HttpClient.pendingRequests c' ⊆ HttpClient.pendingRequests c.

(** No retry policy is in effect, or its count is used up. *)
Definition retry_inactive (retryConfig : option RetryConfig.t) : bool :=
  match retryConfig with
  | Some r => negb (Js.gt (RetryConfig.count r) Js.zero)
  | None => true
  end.

(** The calls of the transport, their URLs and their bodies. *)
Definition fetch_calls (events : list Event)
    : list (string * RequestInit.t) :=
  omap (fun ev =>
          match ev with
          | EvFetch url init => Some (url, init)
          | _ => None
          end)
       events.

Definition fetch_urls (events : list Event) : list string :=
  map fst (fetch_calls events).

Definition fetch_bodies (events : list Event) : list (option string) :=
  map (fun c => RequestInit.body (snd c)) (fetch_calls events).

Definition abort_calls (events : list Event) : list nat :=
  omap (fun ev => match ev with EvAbort c => Some c | _ => None end) events.

Definition responseError_indices (events : list Event) : list nat :=
  omap (fun ev =>
          match ev with EvResponseError i _ => Some i | _ => None end)
       events.


(** The parameters that stay and their encoded form, as the interface
    describes them. *)
Definition param_kept (entry : string * ParamValue) : bool :=
  match snd entry with
  | PUndefined | PNull => false
  | value => negb (String.eqb (Js.trim (String_of value)) "")
  end.

Definition param_encoded (entry : string * ParamValue) : string :=
  Js.form_encode (fst entry) ++ "=" ++ Js.form_encode (String_of (snd entry)).

(** A new instance, before any call. *)
Definition new_HttpClient (config : HttpClientConfig.t) : State :=
  mkState (constructor config) 0 0 [].

(** ** Scenarios *)

(** A response without a body. *)
Definition bodiless (status : Z) : Response.t :=
  Response.mk status ∅ false (Returns VNull) (Returns "").

(** A transport that answers every call with the same status. *)
Definition host_status (status : Z) : Host :=
  mkHost (fun _ _ _ => Resolves (bodiless status)) (fun _ _ => true).

(** A transport that never answers before the timer fires. *)
Definition host_timeout : Host :=
  mkHost (fun _ _ _ => TimesOut "The operation was aborted.")
         (fun _ _ => true).

Definition use_request (interceptor : RequestInterceptor.t) (st : State)
    : State :=
  snd (addRequestInterceptor interceptor st).

Definition use_response (interceptor : ResponseInterceptor.t) (st : State)
    : State :=
  snd (addResponseInterceptor interceptor st).

(** [new HttpClient({ baseURL: "/api" })] *)
Definition api_client : State :=
  new_HttpClient (HttpClientConfig.mk (Some "/api") None None None None).

(** [{ params: { q: "a b", empty: "" } }] *)
Definition users_query : RequestOptions.t :=
  RequestOptions.mk None (HeadersRecord ∅) None
    (Some [("q", PString "a b"); ("empty", PString "")])
    None None None None.

(** [{ body: "x" }], without a method. *)
Definition body_only : RequestOptions.t :=
  RequestOptions.with_body (Some "x") RequestOptions.empty.

(** [{ retry: { count: 1 } }] *)
Definition retry_once : RequestOptions.t :=
  RequestOptions.with_retry (Some (RetryConfig.mk Js.one None None))
    RequestOptions.empty.

Definition token_failure : Thrown :=
  ThrownError (NativeError.mk "Error" "no token").

(** An interceptor that only watches request failures. *)
Definition observer : RequestInterceptor.t :=
  RequestInterceptor.mk None (Some (fun _ => Returns None)).

(** An interceptor whose [onRequest] throws until the call is a retry
    with nothing left. *)
Definition fails_until_retried : RequestInterceptor.t :=
  RequestInterceptor.mk
    (Some (fun config =>
             match RequestOptions.retry config with
             | Some r =>
                 if Js.gt (RetryConfig.count r) Js.zero
                 then Throws token_failure
                 else Returns config
             | None => Throws token_failure
             end))
    None.

Definition fallback : HttpResponse.t :=
  HttpResponse.mk (VStr "fallback") 200 ∅ RequestOptions.empty.

(** An interceptor whose [onResponseError] recovers every failure. *)
Definition recovering : ResponseInterceptor.t :=
  ResponseInterceptor.mk None (Some (fun _ => Returns (Envelope fallback))).



(** The Error Record of an opaque response, whose status is 0. *)
Definition opaque_failure : Thrown :=
  ThrownRecord
    (HttpRequestError.mk "HTTP error! status: 0" (Some 0) (Some VNull)
       (Some retry_once) None).

(** [{ retry: { count: 0 } }] *)
Definition retry_spent : RequestOptions.t :=
  RequestOptions.with_retry (Some (RetryConfig.mk Js.zero None None))
    RequestOptions.empty.

(** A new instance with [recovering] as its response interceptor. *)
Definition recovering_client : State :=
  use_response recovering (new_HttpClient HttpClientConfig.empty).

(** The Error Record of a response of status 404 to [retry_once]. *)
Definition not_found : Thrown :=
  ThrownRecord
    (HttpRequestError.mk "HTTP error! status: 404" (Some 404) (Some VNull)
       (Some retry_once) None).


(** A new instance with [fails_until_retried] as its request
    interceptor. *)
Definition retried_client : State :=
  use_request fails_until_retried (new_HttpClient HttpClientConfig.empty).

(** A new instance with the logging interceptor as its response
    interceptor. *)
Definition logging_client : State :=
  use_response (snd createLoggingInterceptor)
    (new_HttpClient HttpClientConfig.empty).

(** The [AbortError] of [host_timeout]. *)
Definition aborted : NativeError.t :=
  NativeError.mk "AbortError" "The operation was aborted.".


(** A response whose [content-length] header is 0. *)
Definition no_content : Response.t :=
  Response.mk 204 {[ "content-length" := "0" ]} true (Returns VNull)
    (Returns "").

(** A response that declares JSON and cannot be parsed. *)
Definition unexpected_token : NativeError.t :=
  NativeError.mk "SyntaxError" "Unexpected token < in JSON at position 0".

Definition malformed : Response.t :=
  Response.mk 200 {[ "content-type" := "application/json" ]} true
    (Throws (ThrownError unexpected_token)) (Returns "<html>").

(** A response of status 500 with a JSON body. *)
Definition server_error : Response.t :=
  Response.mk 500 {[ "content-type" := "application/json; charset=utf-8" ]}
    true (Returns (VObj [("error", VStr "boom")])) (Returns "").

(** The Error Record of a response of status 404 to a call without
    options. *)
Definition not_found_plain : Thrown :=
  ThrownRecord
    (HttpRequestError.mk "HTTP error! status: 404" (Some 404) (Some VNull)
       (Some RequestOptions.empty) None).

(** The Error Record of a response of status 500 to [retry_once]. *)
Definition unavailable : Thrown :=
  ThrownRecord
    (HttpRequestError.mk "HTTP error! status: 500" (Some 500) (Some VNull)
       (Some retry_once) None).

(** ** HttpClient.ts: the other operations *)

(** [cancelAllRequests]. [forEach] visits the entries in the order of
    their insertion, which the map of the model does not record: here
    the aborts come in the order of [map_to_list]. *)
Definition cancelAllRequests : M unit :=
  fun st =>
    (Returns tt,
     mkState (HttpClient.with_pendingRequests ∅ (this st)) (fetched st)
       (fresh st)
       (trace st
        ++ map (fun entry : string * nat => EvAbort (snd entry))
             (map_to_list (HttpClient.pendingRequests (this st))))%list).

(** [l.indexOf(x)], where [same y] tells whether [y] is the object [x];
    [None] stands for -1. *)
Fixpoint indexOf {A} (same : A -> bool) (l : list A) : option nat :=
  match l with
  | [] => None
  | y :: rest => if same y then Some O else S <$> indexOf same rest
  end.

(** [l.splice(index, 1)] *)
Definition splice_one {A} (index : nat) (l : list A) : list A :=
  (take index l ++ drop (S index) l)%list.

(** The function that [addRequestInterceptor] returns. *)
Definition unregisterRequestInterceptor
    (same : RequestInterceptor.t -> bool) : M unit :=
  fun st =>
    match indexOf same (HttpClient.requestInterceptors (this st)) with
    | Some index =>
        (Returns tt,
         with_this (HttpClient.with_requestInterceptors
                      (splice_one index
                         (HttpClient.requestInterceptors (this st)))
                      (this st)) st)
    | None => (Returns tt, st)
    end.

(** The function that [addResponseInterceptor] returns. *)
Definition unregisterResponseInterceptor
    (same : ResponseInterceptor.t -> bool) : M unit :=
  fun st =>
    match indexOf same (HttpClient.responseInterceptors (this st)) with
    | Some index =>
        (Returns tt,
         with_this (HttpClient.with_responseInterceptors
                      (splice_one index
                         (HttpClient.responseInterceptors (this st)))
                      (this st)) st)
    | None => (Returns tt, st)
    end.

(** [JSON.stringify(v)]; numbers are integers that JavaScript writes in
    decimal digits. *)
Fixpoint JSON_stringify_value (v : JsValue) : string :=
  match v with
  | VNull => "null"
  | VBool b => if b then "true" else "false"
  | VNum n => pretty n
  | VStr s => Js.JSON_stringify s
  | VArr items =>
      "["
      ++ (fix elements (l : list JsValue) : string :=
            match l with
            | [] => ""
            | x :: rest =>
                match rest with
                | [] => JSON_stringify_value x
                | _ :: _ => JSON_stringify_value x ++ "," ++ elements rest
                end
            end) items
      ++ "]"
  | VObj fields =>
      "{"
      ++ (fix members (l : list (string * JsValue)) : string :=
            match l with
            | [] => ""
            | (key, x) :: rest =>
                match rest with
                | [] => Js.JSON_stringify key ++ ":" ++ JSON_stringify_value x
                | _ :: _ =>
                    Js.JSON_stringify key ++ ":" ++ JSON_stringify_value x
                    ++ "," ++ members rest
                end
            end) fields
      ++ "}"
  end.

(** Truthiness of a value. *)
Definition truthy_value (v : JsValue) : bool :=
  match v with
  | VNull => false
  | VBool b => b
  | VNum n => negb (n =? 0)%Z
  | VStr s => Js.truthy s
  | VArr _ | VObj _ => true
  end.

(** The verbs other than [get]; [data] is [None] when the argument is
    left out, [depth] is the room for nested calls that [request] is run
    with. *)
Module Verbs.

(** [data ? JSON.stringify(data) : undefined] *)
Definition payload (data : option JsValue) : option string :=
  match data with
  | Some d => if truthy_value d then Some (JSON_stringify_value d) else None
  | None => None
  end.

Definition post (host : Host) (depth : nat) (url : string)
    (data : option JsValue) (options : RequestOptions.t) : Reentrant :=
  request host depth url
    (RequestOptions.with_body (payload data)
       (RequestOptions.with_method (Some "POST") options)).


Definition delete (host : Host) (depth : nat) (url : string)
    (options : RequestOptions.t) : Reentrant :=
  request host depth url
    (RequestOptions.with_method (Some "DELETE") options).

End Verbs.

(** ** More notions used in the statements *)

(** Every byte of [s] satisfies [p]. *)
Fixpoint all_bytes (p : ascii -> bool) (s : string) : bool :=
  match s with
  | EmptyString => true
  | String c s' => p c && all_bytes p s'
  end.

(** The bytes that a query string written by [createURLWithParams] is
    made of. *)
Definition query_byte (c : ascii) : bool :=
  Js.form_safe c
  || bool_decide (c ∈ ["+"; "%"; "="; "&"; "?"]%char).

(** A printable ASCII character other than the space. *)
Definition graphic (c : ascii) : bool :=
  ((33 <=? Js.byte c) && (Js.byte c <=? 126))%N.

Fixpoint has_graphic (s : string) : bool :=
  match s with
  | EmptyString => false
  | String c s' => graphic c || has_graphic s'
  end.

(** A parameter value whose string form cannot be blank. *)
Definition never_blank (value : ParamValue) : bool :=
  match value with
  | PUndefined | PNull => false
  | PString s => has_graphic s
  | PNumber _ | PBoolean _ => true
  end.

(** The timers armed and the timers cleared. *)
Definition timers_set (events : list Event) : list nat :=
  omap (fun ev => match ev with EvSetTimeout t _ => Some t | _ => None end)
       events.

Definition timers_cleared (events : list Event) : list nat :=
  omap (fun ev => match ev with EvClearTimeout t => Some t | _ => None end)
       events.


(** More scenarios. *)

(** [{ retry: { count: 2 } }] on an instance whose transport never
    answers in time. *)
Definition retry_twice : RequestOptions.t :=
  RequestOptions.with_retry
    (Some (RetryConfig.mk (Js.number_of_Z 2) None None))
    RequestOptions.empty.

(** A response of status 200 with a JSON body. *)
Definition json_ok : Response.t :=
  Response.mk 200 {[ "content-type" := "application/json" ]} true
    (Returns (VObj [("id", VNum 7)])) (Returns "").

(** A response of status 200 with a text body. *)
Definition text_ok : Response.t :=
  Response.mk 200 {[ "content-type" := "text/plain" ]} true
    (Returns VNull) (Returns "hello").

(** A response whose body cannot be read for a reason other than its
    syntax. *)
Definition stream_failure : NativeError.t :=
  NativeError.mk "TypeError" "body stream already read".

Definition unreadable : Response.t :=
  Response.mk 200 {[ "content-type" := "application/json" ]} true
    (Throws (ThrownError stream_failure)) (Returns "").

Definition host_json : Host :=
  mkHost (fun _ _ _ => Resolves json_ok) (fun _ _ => true).

(** An instance with two controllers registered. *)
Definition two_pending : State :=
  mkState
    (HttpClient.with_pendingRequests {[ "a" := 3%nat; "b" := 5%nat ]}
       (constructor HttpClientConfig.empty))
    0 6 [].



(** The count of the policy in effect for a call: that of the options,
    or else that of the instance; without a policy nothing is retried,
    as with the count 0. *)
Definition count_in_effect (this : HttpClient.t) (options : RequestOptions.t)
    : Js.number :=
  match RequestOptions.retry options with
  | Some r => RetryConfig.count r
  | None =>
      match HttpClient.defaultRetry this with
      | Some r => RetryConfig.count r
      | None => Js.zero
      end
  end.

(** The number of times that one can be taken from [count] before it is
    no longer above 0, when that is at most [bound]. *)
Fixpoint retries_left (bound : nat) (count : Js.number) : option nat :=
  if Js.gt count Js.zero
  then match bound with
       | O => None
       | S bound' => S <$> retries_left bound' (Js.minus count Js.one)
       end
  else Some O.

(** The waits between attempts. *)
Definition delay_calls (events : list Event) : list Z :=
  omap (fun ev => match ev with EvDelay ms => Some ms | _ => None end) events.

(** What [retryRequest] waits before the next attempt. *)
Definition waits (retryConfig : RetryConfig.t) : list Z :=
  match RetryConfig.delay retryConfig with
  | Some ms => if (ms =? 0)%Z then [] else [ms]
  | None => []
  end.

(** [{ retry: { count: 0.5 } }], and [{ retry: { count: 0.5 - 1 } }]. *)
Definition retry_half : RequestOptions.t :=
  RequestOptions.with_retry (Some (RetryConfig.mk Js.half None None))
    RequestOptions.empty.

Definition retry_below_zero : RequestOptions.t :=
  RequestOptions.with_retry
    (Some (RetryConfig.mk (Js.minus Js.half Js.one) None None))
    RequestOptions.empty.

(** [{ retry: { count: 2.5 } }] *)
Definition retry_two_and_a_half : RequestOptions.t :=
  RequestOptions.with_retry
    (Some (RetryConfig.mk (binary_normalize Js.prec Js.emax 5 (-1) false)
             None None))
    RequestOptions.empty.

(** [{ retry: { count: Infinity } }] *)
Definition retry_forever : RequestOptions.t :=
  RequestOptions.with_retry (Some (RetryConfig.mk Js.Infinity None None))
    RequestOptions.empty.

(** [{ retry: { count: 2 ** 54 } }] *)
Definition retry_huge : RequestOptions.t :=
  RequestOptions.with_retry
    (Some (RetryConfig.mk (Js.number_of_Z (2 ^ 54)) None None))
    RequestOptions.empty.


(** A transport that cannot reach the network. *)
Definition network_failure : Thrown :=
  ThrownError (NativeError.mk "TypeError" "Failed to fetch").

Definition host_down : Host :=
  mkHost (fun _ _ _ => Rejects network_failure) (fun _ _ => true).

(** [{ retry: { count: 2, delay: 100 } }] *)
Definition patient : RequestOptions.t :=
  RequestOptions.with_retry
    (Some (RetryConfig.mk (Js.number_of_Z 2) (Some 100) None))
    RequestOptions.empty.



(** An instance where the key of [request("/users")] is registered, with
    another key. *)
Definition users_pending : State :=
  mkState
    (HttpClient.with_pendingRequests
       {[ getRequestKey (constructor HttpClientConfig.empty) "/users"
            RequestOptions.empty := 3%nat;
          "b" := 5%nat ]}
       (constructor HttpClientConfig.empty))
    0 6 [].

(** [observer] registered twice, around [fails_until_retried]. *)
Definition observed_twice : State :=
  use_request observer
    (use_request fails_until_retried
       (use_request observer (new_HttpClient HttpClientConfig.empty))).

(** Whether an interceptor is [observer], which alone has no
    [onRequest]. *)
Definition is_observer (interceptor : RequestInterceptor.t) : bool :=
  match RequestInterceptor.onRequest interceptor with
  | Some _ => false
  | None => true
  end.

(** The Error Record of a response without a body to a call without
    options. *)
Definition status_failure (status : Z) : HttpRequestError.t :=
  HttpRequestError.mk ("HTTP error! status: " ++ pretty status) (Some status)
    (Some VNull) (Some RequestOptions.empty) None.

(** * Properties *)

(** ** JavaScript strings *)

Example includes_query : Js.includes "/users?page=2" "?" = true.
Proof. reflexivity. Qed.

Example toUpperCase_get : Js.toUpperCase "get" = "GET".
Proof. reflexivity. Qed.

Example trim_blank : Js.trim (String "009" (String " " EmptyString)) = "".
Proof. reflexivity. Qed.

Example trim_inner : Js.trim "  a b  " = "a b".
Proof. reflexivity. Qed.

(** U+00A0, which [trim] removes, is the bytes C2 A0. *)
Example trim_no_break_space :
  Js.trim (String "194" (String "160" "x")) = "x".
Proof. reflexivity. Qed.

Example form_encode_reserved : Js.form_encode "a b&c/d=é" = "a+b%26c%2Fd%3D%C3%A9".
Proof. reflexivity. Qed.

Example String_of_number : String_of (PNumber (-12)) = "-12".
Proof. reflexivity. Qed.

Example createRequestKey_get :
  createRequestKey (constructor HttpClientConfig.empty) "/users"
    RequestOptions.empty
  = "GET-/users-same-origin-" ++ Js.quote ++ Js.quote.
Proof. reflexivity. Qed.

(** ** States and events *)

Lemma log_nil (st : State) : log [] st = st.
Proof. destruct st; unfold log; simpl. by rewrite app_nil_r. Qed.

Lemma log_log (evs1 evs2 : list Event) (st : State) :
  log evs2 (log evs1 st) = log (evs1 ++ evs2) st.
Proof. unfold log; simpl. by rewrite app_assoc. Qed.

Lemma fetch_calls_app (evs1 evs2 : list Event) :
  fetch_calls (evs1 ++ evs2) = (fetch_calls evs1 ++ fetch_calls evs2)%list.
Proof. apply omap_app. Qed.


Lemma fetch_calls_responseError_calls l index error :
  fetch_calls (responseError_calls index l error) = [].
Proof.
  revert index; induction l as [|i l IH]; intros index; simpl; [done|].
  destruct (ResponseInterceptor.onResponseError i); simpl; apply IH.
Qed.

Lemma prefix_fetch_calls_nil (evs1 evs2 : list Event) :
  evs1 `prefix_of` evs2 -> fetch_calls evs2 = [] -> fetch_calls evs1 = [].
Proof.
  intros [k ->]. rewrite fetch_calls_app. by intros [? ?]%app_eq_nil.
Qed.

(** ** The loops over the error functions *)

(** The inner loop of [applyRequestInterceptors] calls the error
    functions in the order of registration and stops at the first that
    throws. *)
Lemma notifyRequestError_calls l index error st :
  exists evs r,
    notifyRequestError index l error st = (r, log evs st)
    /\ evs `prefix_of` requestError_calls index l error
    /\ (r = Returns tt -> evs = requestError_calls index l error)
    /\ (requestErrors_return l error = true -> r = Returns tt).
Proof.
  revert index st; induction l as [|i l IH]; intros index st; simpl.
  - exists [], (Returns tt). rewrite log_nil. by repeat split.
  - unfold requestErrors_return in *; simpl.
    destruct (RequestInterceptor.onRequestError i) as [f|] eqn:Hf.
    + unfold bind, emit, await; simpl.
      destruct (f error) as [v|e'] eqn:Hfe; simpl.
      * destruct (IH (S index) (log [EvRequestError index error] st))
          as (evs & r & Heq & Hpre & Hall & Hret).
        exists (EvRequestError index error :: evs), r.
        rewrite Heq, log_log. repeat split; [|by intros ->%Hall|done].
        by apply prefix_cons.
      * exists [EvRequestError index error], (Throws e').
        repeat split; [|done|done].
        apply prefix_cons, prefix_nil.
    + destruct (IH (S index) st) as (evs & r & Heq & Hpre & Hall & Hret).
      exists evs, r. by repeat split.
Qed.

Lemma notifyResponseError_calls l index error st :
  exists evs r,
    notifyResponseError index l error st = (r, log evs st)
    /\ evs `prefix_of` responseError_calls index l error
    /\ (r = Returns tt -> evs = responseError_calls index l error)
    /\ (responseErrors_return l error = true -> r = Returns tt).
Proof.
  revert index st; induction l as [|i l IH]; intros index st; simpl.
  - exists [], (Returns tt). rewrite log_nil. by repeat split.
  - unfold responseErrors_return in *; simpl.
    destruct (ResponseInterceptor.onResponseError i) as [f|] eqn:Hf.
    + unfold bind, emit, await; simpl.
      destruct (f error) as [v|e'] eqn:Hfe; simpl.
      * destruct (IH (S index) (log [EvResponseError index error] st))
          as (evs & r & Heq & Hpre & Hall & Hret).
        exists (EvResponseError index error :: evs), r.
        rewrite Heq, log_log. repeat split; [|by intros ->%Hall|done].
        by apply prefix_cons.
      * exists [EvResponseError index error], (Throws e').
        repeat split; [|done|done].
        apply prefix_cons, prefix_nil.
    + destruct (IH (S index) st) as (evs & r & Heq & Hpre & Hall & Hret).
      exists evs, r. by repeat split.
Qed.

(** ** The interceptor chains *)

Lemma requestInterceptors_loop_chain l config st :
  requestInterceptors_loop l config st =
  match onRequest_chain l config with
  | Returns config' => (Returns config', st)
  | Throws error =>
      (notifyRequestError 0 (HttpClient.requestInterceptors (this st)) error ;;
       throw error) st
  end.
Proof.
  revert config; induction l as [|i l IH]; intros config; simpl; [done|].
  unfold bind at 1, try_catch.
  destruct (RequestInterceptor.onRequest i) as [f|]; simpl.
  - unfold await. destruct (f config) as [config'|error]; simpl.
    + apply IH.
    + unfold bind, read_this; simpl.
      by destruct (notifyRequestError _ _ _ _) as [[] ?].
  - apply IH.
Qed.

Lemma responseInterceptors_loop_chain l response st :
  responseInterceptors_loop l response st =
  match onResponse_chain l response with
  | Returns response' => (Returns response', st)
  | Throws error =>
      (notifyResponseError 0 (HttpClient.responseInterceptors (this st))
         error ;;
       throw error) st
  end.
Proof.
  revert response; induction l as [|i l IH]; intros response; simpl; [done|].
  unfold bind at 1, try_catch.
  destruct (ResponseInterceptor.onResponse i) as [f|]; simpl.
  - unfold await. destruct (f response) as [response'|error]; simpl.
    + apply IH.
    + unfold bind, read_this; simpl.
      by destruct (notifyResponseError _ _ _ _) as [[] ?].
  - apply IH.
Qed.

Lemma applyRequestInterceptors_returns config config' st :
  onRequest_chain (HttpClient.requestInterceptors (this st)) config
  = Returns config' ->
  applyRequestInterceptors config st = (Returns config', st).
Proof.
  intros H. unfold applyRequestInterceptors, bind, read_this; simpl.
  by rewrite requestInterceptors_loop_chain, H.
Qed.

Lemma applyRequestInterceptors_throws config error st :
  onRequest_chain (HttpClient.requestInterceptors (this st)) config
  = Throws error ->
  exists evs e',
    applyRequestInterceptors config st = (Throws e', log evs st)
    /\ evs `prefix_of`
         requestError_calls 0 (HttpClient.requestInterceptors (this st)) error
    /\ (requestErrors_return (HttpClient.requestInterceptors (this st)) error
        = true ->
        evs = requestError_calls 0 (HttpClient.requestInterceptors (this st))
                error
        /\ e' = error).
Proof.
  intros H. unfold applyRequestInterceptors, bind at 1, read_this; simpl.
  rewrite requestInterceptors_loop_chain, H. unfold bind, throw.
  destruct (notifyRequestError_calls
              (HttpClient.requestInterceptors (this st)) 0 error st)
    as (evs & r & -> & Hpre & Hall & Hret).
  destruct r as [[]|e'].
  - exists evs, error. split; [done|]. split; [done|]. auto.
  - exists evs, e'. split; [done|]. split; [done|].
    intros Hr. by specialize (Hret Hr).
Qed.






Lemma applyResponseInterceptors_returns response response' st :
  onResponse_chain (HttpClient.responseInterceptors (this st)) response
  = Returns response' ->
  applyResponseInterceptors response st = (Returns response', st).
Proof.
  intros H. unfold applyResponseInterceptors, bind, read_this; simpl.
  by rewrite responseInterceptors_loop_chain, H.
Qed.

Lemma applyResponseInterceptors_throws response error st :
  onResponse_chain (HttpClient.responseInterceptors (this st)) response
  = Throws error ->
  exists evs e',
    applyResponseInterceptors response st = (Throws e', log evs st)
    /\ evs `prefix_of`
         responseError_calls 0 (HttpClient.responseInterceptors (this st))
           error
    /\ (responseErrors_return (HttpClient.responseInterceptors (this st))
          error = true ->
        evs = responseError_calls 0
                (HttpClient.responseInterceptors (this st)) error
        /\ e' = error).
Proof.
  intros H. unfold applyResponseInterceptors, bind at 1, read_this; simpl.
  rewrite responseInterceptors_loop_chain, H. unfold bind, throw.
  destruct (notifyResponseError_calls
              (HttpClient.responseInterceptors (this st)) 0 error st)
    as (evs & r & -> & Hpre & Hall & Hret).
  destruct r as [[]|e'].
  - exists evs, error. split; [done|]. split; [done|]. auto.
  - exists evs, e'. split; [done|]. split; [done|].
    intros Hr. by specialize (Hret Hr).
Qed.

(** ** The response normalizer *)

Lemma handleResponse_state response config st :
  snd (handleResponse response config st) = st.
Proof.
  unfold handleResponse, try_catch, bind, await, ret, throw.
  destruct (Response.body response && _); simpl.
  - destruct (read_body response) as [d|[e|r]]; simpl.
    + by destruct (negb (Response.ok response)).
    + by destruct (String.eqb _ _).
    + done.
  - by destruct (negb (Response.ok response)).
Qed.

(** C9. The response normalizer [handleResponse]: (1) when the body is
    empty (no body, or a [content-length] header equal to 0) the data is
    null and the status is passed through unchanged, in the envelope of a
    successful status and in the Error Record of a failing one; (2) when
    reading the body throws a [SyntaxError], whatever the status, it throws
    the Error Record "Invalid response format" with null data and the
    parse failure as cause; (3) when the status is outside the success
    range and reading the body did not throw, it throws an Error Record
    carrying the data read, the status and the configuration. The state
    is left as it was. *)
Theorem handleResponse_normalizes (response : Response.t)
    (config : RequestOptions.t) (st : State) :
  (Response.body response = false
   \/ Response.headers response !! "content-length" = Some "0" ->
   handleResponse response config st =
   (if Response.ok response
    then Returns (HttpResponse.mk VNull (Response.status response)
                    (Response.headers response) config)
    else Throws (ThrownRecord
                   (HttpRequestError.mk
                      ("HTTP error! status: "
                       ++ pretty (Response.status response))
                      (Some (Response.status response)) (Some VNull)
                      (Some config) None)),
    st))
  /\ (forall e,
        Response.body response = true ->
        Response.headers response !! "content-length" <> Some "0" ->
        read_body response = Throws (ThrownError e) ->
        NativeError.name e = "SyntaxError" ->
        handleResponse response config st =
        (Throws (ThrownRecord
                   (HttpRequestError.mk "Invalid response format"
                      (Some (Response.status response)) (Some VNull)
                      (Some config) (Some e))),
         st))
  /\ (forall data,
        Response.ok response = false ->
        ((Response.body response = false
          \/ Response.headers response !! "content-length" = Some "0")
         /\ data = VNull)
        \/ (Response.body response = true
            /\ Response.headers response !! "content-length" <> Some "0"
            /\ read_body response = Returns data) ->
        handleResponse response config st =
        (Throws (ThrownRecord
                   (HttpRequestError.mk
                      ("HTTP error! status: "
                       ++ pretty (Response.status response))
                      (Some (Response.status response)) (Some data)
                      (Some config) None)),
         st)).
Proof.
  assert (Hempty :
    Response.body response = false
    \/ Response.headers response !! "content-length" = Some "0" ->
    Response.body response
    && negb (bool_decide
               (Response.headers response !! "content-length" = Some "0"))
    = false).
  { intros [->| ->]; [done|]. rewrite bool_decide_eq_true_2 by done.
    apply andb_false_r. }
  assert (Hfull :
    Response.body response = true ->
    Response.headers response !! "content-length" <> Some "0" ->
    Response.body response
    && negb (bool_decide
               (Response.headers response !! "content-length" = Some "0"))
    = true).
  { intros -> Hne. by rewrite bool_decide_eq_false_2. }
  unfold handleResponse, try_catch, bind, await, ret, throw.
  split; [|split].
  - intros H. rewrite (Hempty H). by destruct (Response.ok response).
  - intros e Hb Hcl Hread Hname. rewrite (Hfull Hb Hcl), Hread. simpl.
    by rewrite Hname.
  - intros data Hok [[H ->]|(Hb & Hcl & Hread)].
    + rewrite (Hempty H). simpl. by rewrite Hok.
    + rewrite (Hfull Hb Hcl), Hread. simpl. by rewrite Hok.
Qed.

(** ** Query parameters *)

Lemma createURLWithParams_fold entries (sp : URLSearchParams.t) :
  fold_left
    (fun (sp : URLSearchParams.t) (entry : string * ParamValue) =>
       let (key, value) := entry in
       if negb (is_undefined value) && negb (is_null value)
          && negb (String.eqb (Js.trim (String_of value)) "")
       then URLSearchParams.append sp key (String_of value)
       else sp)
    entries sp
  = (sp ++ map (fun entry => (fst entry, String_of (snd entry)))
             (List.filter param_kept entries))%list.
Proof.
  revert sp; induction entries as [|[key value] entries IH]; intros sp.
  - simpl. by rewrite app_nil_r.
  - cbn [fold_left List.filter]. rewrite IH. unfold param_kept at 2.
    cbn [snd fst]. unfold URLSearchParams.append.
    destruct value; cbn [is_undefined is_null negb andb]; try done;
      destruct (negb _); cbn [map fst snd]; by rewrite <- ?app_assoc.
Qed.

Lemma toString_concat (sp : URLSearchParams.t) :
  URLSearchParams.toString sp
  = String.concat "&" (map URLSearchParams.pair_toString sp).
Proof.
  induction sp as [|p [|q sp] IH]; [done..|].
  change (URLSearchParams.toString (p :: q :: sp))
    with (URLSearchParams.pair_toString p ++ "&"
          ++ URLSearchParams.toString (q :: sp)).
  by rewrite IH.
Qed.

Lemma truthy_app_l (a b : string) :
  Js.truthy a = true -> Js.truthy (a ++ b) = true.
Proof. by destruct a. Qed.

Lemma truthy_pair_toString p :
  Js.truthy (URLSearchParams.pair_toString p) = true.
Proof.
  unfold URLSearchParams.pair_toString.
  by destruct (Js.form_encode p.1).
Qed.

Lemma truthy_toString (sp : URLSearchParams.t) :
  Js.truthy (URLSearchParams.toString sp)
  = match sp with [] => false | _ => true end.
Proof.
  destruct sp as [|p [|q sp]]; [done| |].
  - apply truthy_pair_toString.
  - change (URLSearchParams.toString (p :: q :: sp))
      with (URLSearchParams.pair_toString p ++ "&"
            ++ URLSearchParams.toString (q :: sp)).
    apply truthy_app_l, truthy_pair_toString.
Qed.

(** What [createURLWithParams] appends: the parameters that are kept, each
    as [name=value] with name and value form-encoded, joined by [&], after
    [?] or, when the URL has a [?] already, after [&]. *)
Lemma createURLWithParams_kept (url : string)
    (entries : list (string * ParamValue)) :
  createURLWithParams url (Some entries) =
  match List.filter param_kept entries with
  | [] => url
  | kept =>
      url ++ (if Js.includes url "?" then "&" else "?")
      ++ String.concat "&" (map param_encoded kept)
  end.
Proof.
  unfold createURLWithParams. rewrite createURLWithParams_fold. simpl.
  rewrite truthy_toString, toString_concat, map_map.
  by destruct (List.filter param_kept entries).
Qed.

(** ** Numbers *)

(** A number above 0 is not at most 0. *)
Lemma gt_zero_not_le (c : Js.number) :
  Js.gt c Js.zero = true -> Js.le c Js.zero = false.
Proof. by destruct c as [[]|[]| |[] m e]. Qed.

Lemma digits2_pos_lower (m : positive) :
  2 ^ (Z.pos (digits2_pos m) - 1) <= Z.pos m.
Proof.
  induction m as [m IH|m IH|]; simpl digits2_pos; [| |done].
  all: rewrite Pos2Z.inj_succ.
  all: replace (Z.succ (Z.pos (digits2_pos m)) - 1)
         with (Z.succ (Z.pos (digits2_pos m) - 1)) by lia.
  all: rewrite Z.pow_succ_r by lia; lia.
Qed.

Lemma iter_xO_ge (m d : positive) : (m <= Pos.iter xO m d)%positive.
Proof.
  apply (Pos.iter_invariant d _ xO (fun x => (m <= x)%positive)); [|lia].
  intros x Hx. lia.
Qed.

(** The sign of a rounded positive number. *)
Lemma binary_round_not_negative (m : positive) (e : Z) :
  Js.lt (binary_round Js.prec Js.emax false m e) Js.zero = false.
Proof.
  unfold binary_round. destruct (shl_align _ _ _) as [mz ez].
  unfold binary_round_aux.
  destruct (shr_fexp _ _ _ _ _) as [mrs' e'].
  destruct (shr_fexp _ _ _ _ _) as [mrs'' e''].
  destruct (shr_m mrs''); [done| |done].
  by destruct (Z.leb _ _).
Qed.

(** One less than a number that is at least 1 is not below 0. *)
Lemma minus_one_not_negative (c : Js.number) :
  Js.is_number c = true ->
  Js.le Js.one c = true ->
  Js.lt (Js.minus c Js.one) Js.zero = false.
Proof.
  intros Hvalid Hle.
  destruct c as [s|[]| |[] m e]; try done.
  change Js.one with (S754_finite false 4503599627370496 (-52)) in *.
  unfold Js.le, SFleb, SFcompare in Hle.
  unfold Js.is_number, valid_binary, bounded, canonical_mantissa, fexp,
    SpecFloat.emin, Js.prec, Js.emax in Hvalid.
  apply andb_true_iff in Hvalid as [Hcanonical _].
  apply Z.eqb_eq in Hcanonical.
  pose proof (digits2_pos_lower m) as Hdigits.
  assert (He : -52 <= e /\ 4503599627370496 <= Z.pos m).
  { destruct (Z.compare_spec (-52) e) as [<-|Hlt|Hgt]; [| |done].
    - split; [done|].
      destruct (Pos.compare_cont Eq 4503599627370496 m) eqn:Hcmp;
        [| |done].
      + apply Pos.compare_eq_iff in Hcmp. lia.
      + rewrite Pos.compare_lt_iff in Hcmp. lia.
    - split; [lia|].
      assert (Z.pos (digits2_pos m) = 53) as Hd by lia.
      rewrite Hd in Hdigits. exact Hdigits. }
  destruct He as [He Hm].
  unfold Js.minus, SFsub. rewrite Z.min_r by done.
  change (fst (shl_align 4503599627370496 (-52) (-52)))
    with 4503599627370496%positive.
  assert (Hm' : 4503599627370496 <= Z.pos (fst (shl_align m e (-52)))).
  { unfold shl_align. destruct (-52 - e) as [|d|d]; cbn [fst]; [done..|].
    pose proof (iter_xO_ge m d). lia. }
  unfold cond_Zopp.
  destruct (Z.pos (fst (shl_align m e (-52))) - Z.pos 4503599627370496)
    as [|p|p] eqn:Hdiff; [done| |lia].
  apply binary_round_not_negative.
Qed.

(** ** The facade *)

Section Facade.

Variable host : Host.

Lemma request_cleanup_state call st :
  request_cleanup call st
  = (Returns tt, unregister (requestKey call)
                   (log [EvClearTimeout (timeoutId call)] st)).
Proof. done. Qed.

(** One call of [request]: its body, with one nested call less for the
    [request] that [retryRequest] calls. *)
Lemma request_unfold depth url options st :
  request host (S depth) url options st
  = request_body host (request host depth) url options st.
Proof. done. Qed.

Lemma request_returns depth url options st call st1 response st2 :
  request_start url options st = (call, st1) ->
  request_try host call url options st1 = (Returns response, st2) ->
  request host (S depth) url options st
  = Some (Returns (Envelope response), st2).
Proof.
  intros H1 H2. rewrite request_unfold. unfold request_body.
  by rewrite H1, H2.
Qed.

Lemma request_falls_through depth url options st call st1 httpError st2 :
  request_start url options st = (call, st1) ->
  request_try host call url options st1 = (Throws httpError, st2) ->
  retry_inactive (retryConfig call) = true ->
  request host (S depth) url options st
  = Some (request_recover options httpError
            (snd (request_cleanup call st2))).
Proof.
  intros H1 H2 H3. rewrite request_unfold. unfold request_body.
  rewrite H1, H2. cbv zeta.
  unfold retry_inactive in H3. destruct (retryConfig call) as [rc|]; [|done].
  by destruct (Js.gt (RetryConfig.count rc) Js.zero).
Qed.

Lemma request_retries depth url options st call st1 httpError st2 rc :
  request_start url options st = (call, st1) ->
  request_try host call url options st1 = (Throws httpError, st2) ->
  retryConfig call = Some rc ->
  Js.gt (RetryConfig.count rc) Js.zero = true ->
  request host (S depth) url options st
  = retryRequest host (request host depth) url options httpError
      (RetryConfig.count rc) rc (snd (request_cleanup call st2)).
Proof.
  intros H1 H2 H3 H4. rewrite request_unfold. unfold request_body.
  by rewrite H1, H2, H3, H4.
Qed.

(** *** The loop of the [catch] over [onResponseError] *)

Lemma recover_loop_calls l index options httpError error st :
  exists evs r,
    recover_loop index l options httpError error st = (r, log evs st)
    /\ evs `prefix_of` responseError_calls index l httpError.
Proof.
  revert index error st; induction l as [|i l IH]; intros index error st.
  - exists [], (Throws (rethrow options error)). simpl.
    by rewrite log_nil.
  - simpl. destruct (ResponseInterceptor.onResponseError i) as [f|].
    + unfold try_catch, bind, emit, await; simpl.
      destruct (f httpError) as [v|e'].
      * exists [EvResponseError index httpError], (Returns v).
        split; [done|]. apply prefix_cons, prefix_nil.
      * destruct (IH (S index) e' (log [EvResponseError index httpError] st))
          as (evs & r & -> & Hpre).
        exists (EvResponseError index httpError :: evs), r.
        rewrite log_log. split; [done|]. by apply prefix_cons.
    + apply IH.
Qed.

Lemma recover_loop_all_throw l index options httpError error st :
  responseErrors_throw l httpError = true ->
  recover_loop index l options httpError error st
  = (Throws (rethrow options (last_failure l httpError error)),
     log (responseError_calls index l httpError) st).
Proof.
  revert index error st; induction l as [|i l IH]; intros index error st H.
  - simpl. by rewrite log_nil.
  - unfold responseErrors_throw in H. simpl in H.
    apply andb_true_iff in H as [Hi Hl]. simpl.
    destruct (ResponseInterceptor.onResponseError i) as [f|].
    + unfold try_catch, bind, emit, await; simpl.
      destruct (f httpError) as [v|e']; [done|].
      rewrite (IH _ _ _ Hl). by rewrite log_log.
    + by apply IH.
Qed.

Lemma recover_loop_first_returns pre i post f v index options httpError
    error st :
  ResponseInterceptor.onResponseError i = Some f ->
  f httpError = Returns v ->
  responseErrors_throw pre httpError = true ->
  recover_loop index (pre ++ i :: post) options httpError error st
  = (Returns v, log (responseError_calls index (pre ++ [i]) httpError) st).
Proof.
  intros Hf Hv.
  revert index error st; induction pre as [|p pre IH]; intros index error st H.
  - simpl. rewrite Hf. unfold try_catch, bind, emit, await; simpl.
    by rewrite Hv.
  - unfold responseErrors_throw in H. simpl in H.
    apply andb_true_iff in H as [Hp Hpre]. simpl.
    destruct (ResponseInterceptor.onResponseError p) as [g|].
    + unfold try_catch, bind, emit, await; simpl.
      destruct (g httpError) as [w|e']; [done|].
      rewrite (IH _ _ _ Hpre). by rewrite log_log.
    + by apply IH.
Qed.

(** *** Instances along a call *)

Lemma same_instance_refl c : same_instance c c.
Proof. split; [by destruct c|done]. Qed.

Lemma same_instance_trans c1 c2 c3 :
  same_instance c1 c2 -> same_instance c2 c3 -> same_instance c1 c3.
Proof.
  unfold same_instance. intros [<- H12] [<- H23].
  split; [by destruct c3|]. simpl in *. by transitivity
    (HttpClient.pendingRequests c2).
Qed.

Lemma same_instance_delete key c :
  same_instance c
    (HttpClient.with_pendingRequests
       (delete key (HttpClient.pendingRequests c)) c).
Proof. split; [by destruct c|apply delete_subseteq]. Qed.

Lemma same_instance_unregister key st :
  same_instance (this st) (this (unregister key st)).
Proof. apply same_instance_delete. Qed.

Lemma same_instance_responseInterceptors c c' :
  same_instance c c' ->
  HttpClient.responseInterceptors c' = HttpClient.responseInterceptors c.
Proof. by intros [<- _]. Qed.

Lemma same_instance_requestInterceptors c c' :
  same_instance c c' ->
  HttpClient.requestInterceptors c' = HttpClient.requestInterceptors c.
Proof. by intros [<- _]. Qed.

(** *** The [try] of [request] *)

Lemma request_send_throws call url options error st :
  onRequest_chain (HttpClient.requestInterceptors (this st)) options
  = Throws error ->
  exists evs e',
    request_send host call url options st = (Throws e', log evs st)
    /\ evs `prefix_of`
         requestError_calls 0 (HttpClient.requestInterceptors (this st)) error
    /\ (requestErrors_return (HttpClient.requestInterceptors (this st)) error
        = true ->
        evs = requestError_calls 0 (HttpClient.requestInterceptors (this st))
                error
        /\ e' = error).
Proof.
  intros H.
  destruct (applyRequestInterceptors_throws options error st H)
    as (evs & e' & Heq & Hrest).
  exists evs, e'. split; [|done].
  unfold request_send, bind at 1. by rewrite Heq.
Qed.


Lemma request_send_resolves call url options io response st :
  onRequest_chain (HttpClient.requestInterceptors (this st)) options
  = Returns io ->
  fetch host (fetched st)
    (createURLWithParams (HttpClient.baseURL (this st) ++ url)
       (RequestOptions.params io))
    (fetchOptions_of (this st) call io)
  = Resolves response ->
  let st' :=
    unregister (requestKey call)
      (log [EvClearTimeout (timeoutId call)]
         (fetching
            (createURLWithParams (HttpClient.baseURL (this st) ++ url)
               (RequestOptions.params io))
            (fetchOptions_of (this st) call io) st)) in
  request_send host call url options st
  = (fst (handleResponse response io st'), st').
Proof.
  intros Hio Hfetch st'.
  unfold request_send, bind at 1.
  rewrite (applyRequestInterceptors_returns _ _ _ Hio).
  unfold bind at 1, read_this. unfold bind at 1, call_fetch.
  rewrite Hfetch. unfold bind, clearTimeout, emit, pendingRequests_delete.
  fold st'. rewrite <- (handleResponse_state response io st') at 3.
  by destruct (handleResponse response io st').
Qed.

Lemma request_send_rejects call url options io error st :
  onRequest_chain (HttpClient.requestInterceptors (this st)) options
  = Returns io ->
  fetch host (fetched st)
    (createURLWithParams (HttpClient.baseURL (this st) ++ url)
       (RequestOptions.params io))
    (fetchOptions_of (this st) call io)
  = Rejects error ->
  request_send host call url options st
  = (Throws error,
     fetching
       (createURLWithParams (HttpClient.baseURL (this st) ++ url)
          (RequestOptions.params io))
       (fetchOptions_of (this st) call io) st).
Proof.
  intros Hio Hfetch.
  unfold request_send, bind at 1.
  rewrite (applyRequestInterceptors_returns _ _ _ Hio).
  unfold bind at 1, read_this. unfold bind at 1, call_fetch.
  by rewrite Hfetch.
Qed.

Lemma request_send_timesOut call url options io message st :
  onRequest_chain (HttpClient.requestInterceptors (this st)) options
  = Returns io ->
  fetch host (fetched st)
    (createURLWithParams (HttpClient.baseURL (this st) ++ url)
       (RequestOptions.params io))
    (fetchOptions_of (this st) call io)
  = TimesOut message ->
  request_send host call url options st
  = (Throws (ThrownError (NativeError.mk "AbortError" message)),
     unregister (requestKey call)
       (log [EvAbort (controller call)]
          (fetching
             (createURLWithParams (HttpClient.baseURL (this st) ++ url)
                (RequestOptions.params io))
             (fetchOptions_of (this st) call io) st))).
Proof.
  intros Hio Hfetch.
  unfold request_send, bind at 1.
  rewrite (applyRequestInterceptors_returns _ _ _ Hio).
  unfold bind at 1, read_this. unfold bind at 1, call_fetch.
  by rewrite Hfetch.
Qed.

Lemma request_try_throws call url options error st :
  onRequest_chain (HttpClient.requestInterceptors (this st)) options
  = Throws error ->
  exists evs e',
    request_try host call url options st = (Throws e', log evs st)
    /\ evs `prefix_of`
         requestError_calls 0 (HttpClient.requestInterceptors (this st)) error
    /\ (requestErrors_return (HttpClient.requestInterceptors (this st)) error
        = true ->
        evs = requestError_calls 0 (HttpClient.requestInterceptors (this st))
                error
        /\ e' = error).
Proof.
  intros H.
  destruct (request_send_throws call url options error st H)
    as (evs & e' & Heq & Hrest).
  exists evs, e'. split; [|done].
  unfold request_try, bind. by rewrite Heq.
Qed.

(** When the request interceptors let the configuration through, the
    transport is called once, with the URL and the options computed from
    the intercepted configuration. *)
Lemma request_try_sent call url options io st :
  onRequest_chain (HttpClient.requestInterceptors (this st)) options
  = Returns io ->
  exists r evs st',
    request_try host call url options st = (r, st')
    /\ fetched st' = S (fetched st)
    /\ same_instance (this st) (this st')
    /\ trace st'
       = (trace st
          ++ EvFetch
               (createURLWithParams (HttpClient.baseURL (this st) ++ url)
                  (RequestOptions.params io))
               (fetchOptions_of (this st) call io)
             :: evs)%list
    /\ fetch_calls evs = [].
Proof.
  intros Hio. unfold request_try, bind.
  destruct (fetch host (fetched st)
              (createURLWithParams (HttpClient.baseURL (this st) ++ url)
                 (RequestOptions.params io))
              (fetchOptions_of (this st) call io))
    as [response|error|message] eqn:Hfetch.
  - rewrite (request_send_resolves _ _ _ _ _ _ Hio Hfetch). cbv zeta.
    set (st' := unregister _ _).
    destruct (fst (handleResponse response io st')) as [handled|error].
    + destruct (onResponse_chain
                  (HttpClient.responseInterceptors (this st')) handled)
        as [handled'|error] eqn:Hchain.
      * rewrite (applyResponseInterceptors_returns _ _ _ Hchain).
        eexists _, [EvClearTimeout (timeoutId call)], _.
        split; [done|]. split; [done|].
        split; [apply same_instance_delete|].
        split; [|done]. simpl. by rewrite <- app_assoc.
      * destruct (applyResponseInterceptors_throws _ _ _ Hchain)
          as (evs & e' & -> & Hpre & _).
        eexists _, (EvClearTimeout (timeoutId call) :: evs), _.
        split; [done|]. split; [done|].
        split; [apply same_instance_delete|].
        split; [simpl; by rewrite <- !app_assoc|].
        simpl. eapply prefix_fetch_calls_nil; [done|].
        apply fetch_calls_responseError_calls.
    + eexists _, [EvClearTimeout (timeoutId call)], _.
      split; [done|]. split; [done|].
      split; [apply same_instance_delete|].
      split; [|done]. simpl. by rewrite <- app_assoc.
  - rewrite (request_send_rejects _ _ _ _ _ _ Hio Hfetch).
    eexists _, [], _. split; [done|]. split; [done|].
    split; [apply same_instance_refl|]. done.
  - rewrite (request_send_timesOut _ _ _ _ _ _ Hio Hfetch).
    eexists _, [EvAbort (controller call)], _.
    split; [done|]. split; [done|].
    split; [apply same_instance_delete|].
    split; [|done]. simpl. by rewrite <- app_assoc.
Qed.

(** A call of [request] that cannot retry and whose request interceptors
    let the configuration through calls the transport exactly once. *)
Lemma request_single_fetch depth url options io st r st' :
  retry_inactive (retryConfig (fst (request_start url options st))) = true ->
  onRequest_chain (HttpClient.requestInterceptors (this st)) options
  = Returns io ->
  request host depth url options st = Some (r, st') ->
  fetch_calls (trace st')
  = (fetch_calls (trace st)
     ++ [(createURLWithParams (HttpClient.baseURL (this st) ++ url)
            (RequestOptions.params io),
          fetchOptions_of (this st)
            (fst (request_start url options st)) io)])%list
  /\ fetched st' = S (fetched st).
Proof.
  intros Hretry Hio Hreq. destruct depth as [|depth]; [done|].
  destruct (request_start url options st) as [call st1] eqn:Hstart.
  assert (Hst1 : this st1 = this st /\ fetched st1 = fetched st
                 /\ fetch_calls (trace st1) = fetch_calls (trace st)).
  { unfold request_start in Hstart. injection Hstart as <- <-. simpl.
    split; [done|]. split; [done|].
    rewrite fetch_calls_app. simpl. by rewrite app_nil_r. }
  destruct Hst1 as (Hthis & Hfetched & Htrace).
  rewrite <- Hthis in Hio.
  destruct (request_try_sent call url options io st1 Hio)
    as (r2 & evs & st2 & Htry & Hf2 & Hsame & Ht2 & Hquiet).
  rewrite Hthis in Ht2.
  assert (Hurls : fetch_calls (trace st2)
                  = (fetch_calls (trace st)
                     ++ [(createURLWithParams
                            (HttpClient.baseURL (this st) ++ url)
                            (RequestOptions.params io),
                          fetchOptions_of (this st) call io)])%list).
  { rewrite Ht2, fetch_calls_app, Htrace. simpl. by rewrite Hquiet. }
  destruct r2 as [response|httpError].
  - rewrite (request_returns _ _ _ _ _ _ _ _ Hstart Htry) in Hreq.
    injection Hreq as <- <-. split; [done|]. by rewrite Hf2, Hfetched.
  - simpl in Hretry.
    rewrite (request_falls_through _ _ _ _ _ _ _ _ Hstart Htry Hretry)
      in Hreq.
    rewrite request_cleanup_state in Hreq. simpl snd in Hreq.
    unfold request_recover, bind, read_this in Hreq. simpl in Hreq.
    match type of Hreq with
    | Some (recover_loop ?i ?l ?o ?e1 ?e2 ?s) = _ =>
        destruct (recover_loop_calls l i o e1 e2 s) as (evs' & r' & Heq & Hpre)
    end.
    rewrite Heq in Hreq. injection Hreq as <- <-. simpl.
    split; [|by rewrite Hf2, Hfetched].
    rewrite !fetch_calls_app, Hurls. simpl.
    rewrite (prefix_fetch_calls_nil _ _ Hpre
               (fetch_calls_responseError_calls _ _ _)).
    by rewrite !app_nil_r.
Qed.

Lemma same_instance_request_try call url options st :
  same_instance (this st)
    (this (snd (request_try host call url options st))).
Proof.
  destruct (onRequest_chain (HttpClient.requestInterceptors (this st))
              options) as [io|error] eqn:Hchain.
  - by destruct (request_try_sent call url options io st Hchain)
      as (r & evs & st' & -> & _ & Hsame & _).
  - destruct (request_try_throws call url options error st Hchain)
      as (evs & e' & -> & _). apply same_instance_refl.
Qed.

(** *** The number of calls of the transport *)

Lemma fetched_wait_delay rc st :
  fetched (snd (wait_delay rc st)) = fetched st.
Proof.
  unfold wait_delay. destruct (RetryConfig.delay rc) as [ms|]; [|done].
  by destruct (ms =? 0)%Z.
Qed.

Lemma fetched_request_try call url options st :
  (fetched (snd (request_try host call url options st)) <= S (fetched st))%nat.
Proof.
  destruct (onRequest_chain (HttpClient.requestInterceptors (this st))
              options) as [io|error] eqn:Hchain.
  - destruct (request_try_sent call url options io st Hchain)
      as (r & evs & st' & -> & Hf & _). simpl. lia.
  - destruct (request_try_throws call url options error st Hchain)
      as (evs & e' & -> & _). simpl. lia.
Qed.

Lemma fetched_request_recover options httpError st :
  fetched (snd (request_recover options httpError st)) = fetched st.
Proof.
  unfold request_recover, bind, read_this.
  destruct (recover_loop_calls (HttpClient.responseInterceptors (this st)) 0
              options httpError httpError st) as (evs & r & -> & _).
  done.
Qed.

(** The policy in effect for a call has the count in effect. *)
Lemma count_in_effect_start url options st call st1 :
  request_start url options st = (call, st1) ->
  match retryConfig call with
  | Some rc => count_in_effect (this st) options = RetryConfig.count rc
  | None => count_in_effect (this st) options = Js.zero
  end.
Proof.
  unfold request_start, count_in_effect. intros [= <- _]. simpl.
  destruct (RequestOptions.retry options); [done|].
  by destruct (HttpClient.defaultRetry (this st)).
Qed.

(** Room for more nested calls does not change a result. *)
Lemma request_depth_mono depth url options st out :
  request host depth url options st = Some out ->
  request host (S depth) url options st = Some out.
Proof.
  revert url options st out.
  induction depth as [|depth IH]; intros url options st out; [done|].
  rewrite !request_unfold. unfold request_body.
  destruct (request_start url options st) as [call st1].
  destruct (request_try host call url options st1)
    as [[response|httpError] st2]; [done|].
  cbv zeta. destruct (retryConfig call) as [rc|]; [|done].
  destruct (Js.gt (RetryConfig.count rc) Js.zero); [|done].
  unfold retryRequest.
  destruct (Js.le (RetryConfig.count rc) Js.zero); [done|].
  destruct (negb _); [done|]. apply IH.
Qed.

Lemma request_depth_le depth depth' url options st out :
  (depth <= depth')%nat ->
  request host depth url options st = Some out ->
  request host depth' url options st = Some out.
Proof.
  induction 1 as [|depth' _ IH]; [done|].
  intros H. by apply request_depth_mono, IH.
Qed.

(** A call for which no retry is in effect settles without calling
    itself. *)
Lemma request_settles_inactive depth url options st :
  retry_inactive (retryConfig (fst (request_start url options st))) = true ->
  exists r st', request host (S depth) url options st = Some (r, st').
Proof.
  intros Hretry. rewrite request_unfold. unfold request_body.
  destruct (request_start url options st) as [call st1].
  destruct (request_try host call url options st1)
    as [[response|httpError] st2]; [by eexists _, _|].
  cbv zeta. cbn [fst] in Hretry. unfold retry_inactive in Hretry.
  destruct (retryConfig call) as [rc|].
  - destruct (Js.gt (RetryConfig.count rc) Js.zero); [done|].
    destruct (request_recover _ _ _). by eexists _, _.
  - destruct (request_recover _ _ _). by eexists _, _.
Qed.

(** When the count in effect can be lowered [n] times before it is no
    longer above 0, room for [n + 1] calls lets [request] settle. *)
Lemma request_settles bound n url options st :
  retries_left bound (count_in_effect (this st) options) = Some n ->
  exists r st', request host (S n) url options st = Some (r, st').
Proof.
  revert n url options st.
  induction bound as [|bound IH]; intros n url options st Hleft.
  all: rewrite request_unfold; unfold request_body.
  all: destruct (request_start url options st) as [call st1] eqn:Hstart.
  all: pose proof (count_in_effect_start _ _ _ _ _ Hstart) as Hcount.
  all: destruct (request_try host call url options st1)
         as [[response|httpError] st2] eqn:Htry; [by eexists _, _|].
  all: cbv zeta; destruct (retryConfig call) as [rc|] eqn:Hrc;
         [|destruct (request_recover _ _ _); by eexists _, _].
  all: rewrite Hcount in Hleft; simpl in Hleft.
  all: destruct (Js.gt (RetryConfig.count rc) Js.zero) eqn:Hpos;
         [|destruct (request_recover _ _ _); by eexists _, _].
  - done.
  - unfold retryRequest. rewrite (gt_zero_not_le _ Hpos).
    destruct (negb _); [by eexists _, _|].
    destruct (retries_left bound _) as [n'|] eqn:Hleft'; [|done].
    injection Hleft as <-. apply (IH n').
    by rewrite <- Hleft'.
Qed.

(** One call of [request] calls the transport at most once more than
    the count in effect can be lowered. *)
Lemma request_fetched_bound bound n depth url options st r st' :
  retries_left bound (count_in_effect (this st) options) = Some n ->
  request host depth url options st = Some (r, st') ->
  (fetched st' <= fetched st + S n)%nat.
Proof.
  revert bound n url options st r st'.
  induction depth as [|depth IH]; intros bound n url options st r st' Hleft;
    [done|].
  rewrite request_unfold. unfold request_body.
  destruct (request_start url options st) as [call st1] eqn:Hstart.
  pose proof (count_in_effect_start _ _ _ _ _ Hstart) as Hcount.
  assert (Hf1 : fetched st1 = fetched st).
  { unfold request_start in Hstart. by injection Hstart as <- <-. }
  pose proof (fetched_request_try call url options st1) as Hf2.
  destruct (request_try host call url options st1)
    as [[response|httpError] st2].
  { intros [= <- <-]. simpl in Hf2. lia. }
  cbv zeta. rewrite request_cleanup_state. simpl snd. simpl in Hf2.
  set (st3 := unregister _ _).
  assert (Hf3 : fetched st3 = fetched st2) by done.
  assert (Hrecover :
    Some (request_recover options httpError st3) = Some (r, st') ->
    (fetched st' <= fetched st + S n)%nat).
  { intros [= Heq].
    pose proof (fetched_request_recover options httpError st3) as Hf.
    rewrite Heq in Hf. simpl in Hf. lia. }
  destruct (retryConfig call) as [rc|] eqn:Hrc; [|done].
  destruct (Js.gt (RetryConfig.count rc) Js.zero) eqn:Hpos; [|done].
  unfold retryRequest.
  destruct (Js.le (RetryConfig.count rc) Js.zero) eqn:Hle;
    [intros [= <- <-]; lia|].
  destruct (negb _); [intros [= <- <-]; lia|].
  intros Hreq.
  rewrite Hcount in Hleft. destruct bound as [|bound]; simpl in Hleft;
    rewrite Hpos in Hleft; [done|].
  destruct (retries_left bound _) as [n'|] eqn:Hleft'; [|done].
  injection Hleft as <-.
  eapply (IH bound n') in Hreq; [|exact Hleft'].
  rewrite fetched_wait_delay in Hreq. lia.
Qed.

(** ** The cancellation registry *)

Lemma this_request_recover options httpError st :
  this (snd (request_recover options httpError st)) = this st.
Proof.
  unfold request_recover, bind, read_this.
  destruct (recover_loop_calls (HttpClient.responseInterceptors (this st)) 0
              options httpError httpError st) as (evs & r & -> & _).
  done.
Qed.

Lemma this_wait_delay rc st : this (snd (wait_delay rc st)) = this st.
Proof.
  unfold wait_delay. destruct (RetryConfig.delay rc) as [ms|]; [|done].
  by destruct (ms =? 0)%Z.
Qed.

(** A call of [request] takes keys out of [pendingRequests] and changes
    nothing else in the instance. *)
Lemma same_instance_request depth url options st r st' :
  request host depth url options st = Some (r, st') ->
  same_instance (this st) (this st').
Proof.
  revert url options st r st'.
  induction depth as [|depth IH]; intros url options st r st'; [done|].
  rewrite request_unfold. unfold request_body.
  destruct (request_start url options st) as [call st1] eqn:Hstart.
  assert (Hthis : this st1 = this st).
  { unfold request_start in Hstart. by injection Hstart as <- <-. }
  pose proof (same_instance_request_try call url options st1) as Htry.
  rewrite Hthis in Htry.
  destruct (request_try host call url options st1)
    as [[response|httpError] st2]; [by intros [= <- <-]|].
  cbv zeta. rewrite request_cleanup_state. cbn [snd] in *.
  set (st3 := unregister _ _).
  assert (H3 : same_instance (this st) (this st3)).
  { eapply same_instance_trans; [exact Htry|].
    apply same_instance_delete. }
  assert (Hrecover :
    Some (request_recover options httpError st3) = Some (r, st') ->
    same_instance (this st) (this st')).
  { intros [= Heq].
    pose proof (this_request_recover options httpError st3) as Hrec.
    rewrite Heq in Hrec. simpl in Hrec. by rewrite Hrec. }
  destruct (retryConfig call) as [rc|] eqn:Hrc; [|done].
  destruct (Js.gt (RetryConfig.count rc) Js.zero) eqn:Hpos; [|done].
  unfold retryRequest.
  destruct (Js.le (RetryConfig.count rc) Js.zero) eqn:Hle;
    [by intros [= <- <-]|].
  destruct (negb _); [by intros [= <- <-]|].
  intros Hreq. apply IH in Hreq.
  rewrite this_wait_delay in Hreq.
  by eapply same_instance_trans.
Qed.

(** C1. [request] never stores the controller it creates. Its start
    leaves the instance, and so [pendingRequests], as it was: on a new
    instance the key of the request in flight is not registered, and
    [cancelRequest] with that key aborts nothing and changes nothing. And
    a whole call only takes keys out of [pendingRequests]: a new instance
    has none before and none after the call has settled. *)
Theorem request_start_registers_nothing (url : string)
    (options : RequestOptions.t) :
  (forall st, this (snd (request_start url options st)) = this st)
  /\ (forall config,
        let (call, st) := request_start url options (new_HttpClient config) in
        requestKey call = getRequestKey (constructor config) url options
        /\ HttpClient.pendingRequests (this st) !! requestKey call = None
        /\ cancelRequest (requestKey call) st = (Returns tt, st))
  /\ (forall config depth r st',
        request host depth url options (new_HttpClient config)
        = Some (r, st') ->
        HttpClient.pendingRequests (this st') = ∅).
Proof.
  split; [done|]. split.
  - intros config. simpl.
    split; [done|]. split; [apply lookup_empty|].
    unfold cancelRequest, bind, read_this. simpl.
    by rewrite lookup_empty.
  - intros config depth r st' Hreq.
    apply same_instance_request in Hreq as [_ Hsub].
    apply (anti_symm (⊆)); [exact Hsub|apply map_empty_subseteq].
Qed.

(** ** The options handed to the transport *)

Lemma fetchOptions_of_get_head this call io :
  Js.or_else (Js.toUpperCase <$> RequestOptions.method io) "" ∈ ["GET"; "HEAD"] ->
  RequestInit.body (fetchOptions_of this call io) = None.
Proof.
  intros H. unfold fetchOptions_of. cbn [RequestInit.method].
  by rewrite bool_decide_eq_true_2.
Qed.

(** C2. When the options name no method, [request] hands the body of the
    caller to the transport: the test that drops the body compares the
    method with [GET] and [HEAD] after putting the empty string, not
    [GET], in place of a missing method. So a new instance that is asked
    for [request("/users", { body: "x" })] calls the transport once, with
    the body ["x"]. *)
Theorem request_without_method_keeps_body :
  (forall this call io,
     RequestInit.body
       (fetchOptions_of this call (RequestOptions.with_method None io))
     = RequestOptions.body io)
  /\ forall depth,
       match request host (S depth) "/users" body_only
               (new_HttpClient HttpClientConfig.empty) with
       | Some (_, st) =>
           map (fun c =>
                  (RequestInit.method (snd c), RequestInit.body (snd c)))
             (fetch_calls (trace st))
           = [(None, Some "x")]
       | None => False
       end.
Proof.
  split; [done|]. intros depth.
  destruct (request_settles_inactive depth "/users" body_only
              (new_HttpClient HttpClientConfig.empty) eq_refl)
    as (r & st & Hreq).
  rewrite Hreq.
  destruct (request_single_fetch (S depth) "/users" body_only body_only
              (new_HttpClient HttpClientConfig.empty) r st
              eq_refl eq_refl Hreq) as [-> _].
  done.
Qed.

(** ** Query parameters on the way to the transport *)

(** C3, as stated, fails: for [get("/users", { params: { q: "a b",
    empty: "" } })] on an instance with base URL [/api] the transport is
    not called with [/api/users?q=a%20b]: [URLSearchParams] writes the
    space as [+]. *)
Lemma get_users_query_not_percent20 :
  match get (host_status 200) 1 "/users" users_query api_client with
  | Some (_, st) => fetch_urls (trace st)
  | None => []
  end
  <> ["/api/users?q=a%20b"].
Proof. vm_compute. discriminate. Qed.

(** C3, amended. [createURLWithParams] leaves out every parameter whose
    value is undefined, null, or blank once trimmed, writes the others as
    [name=value] in the application/x-www-form-urlencoded form (a space
    becomes [+], the bytes other than letters, digits and [*-._] are
    percent-encoded), and joins them with [&] after [?], or after [&] when
    the URL has a [?] already. With base URL [/api],
    [get("/users", { params: { q: "a b", empty: "" } })] calls the
    transport once, with the URL [/api/users?q=a+b], whatever the
    transport answers. *)
Theorem createURLWithParams_serializes :
  (forall url entries,
     createURLWithParams url (Some entries) =
     match List.filter param_kept entries with
     | [] => url
     | kept =>
         url ++ (if Js.includes url "?" then "&" else "?")
         ++ String.concat "&" (map param_encoded kept)
     end)
  /\ Js.form_encode "a b" = "a+b"
  /\ forall depth,
       match get host (S depth) "/users" users_query api_client with
       | Some (_, st) => fetch_urls (trace st) = ["/api/users?q=a+b"]
       | None => False
       end.
Proof.
  split; [apply createURLWithParams_kept|]. split; [done|].
  intros depth. unfold get.
  destruct (request_settles_inactive depth "/users"
              (RequestOptions.with_method (Some "GET") users_query)
              api_client eq_refl) as (r & st & Hreq).
  rewrite Hreq.
  destruct (request_single_fetch (S depth) "/users"
              (RequestOptions.with_method (Some "GET") users_query)
              (RequestOptions.with_method (Some "GET") users_query)
              api_client r st eq_refl eq_refl Hreq) as [Hcalls _].
  unfold fetch_urls. rewrite Hcalls. done.
Qed.

(** ** The retry policy *)

(** C7, as stated, fails: without a [shouldRetry], a failure whose status
    is 0 (the status of an opaque response) is retried, although its
    status is present and below 500. The transport is called twice. *)
Lemma status_zero_is_retried :
  shouldRetry (host_status 0) (RetryConfig.mk Js.one None None) opaque_failure
  = true
  /\ ~ (status_of opaque_failure = None
        \/ exists s, status_of opaque_failure = Some s /\ (500 <= s)%Z)
  /\ match request (host_status 0) 2 "/users" retry_once
             (new_HttpClient HttpClientConfig.empty) with
     | Some (r, st) => fetched st = 2%nat
     | None => False
     end.
Proof.
  split; [done|]. split; [|by vm_compute].
  intros [H|(s & H & Hs)]; [done|]. injection H as <-. lia.
Qed.

(** C7, amended. In [retryRequest] with a remaining count above 0, the
    request is issued again if and only if the failure is eligible; when
    the policy has no [shouldRetry], the failure is eligible if and only
    if its status is absent, 0, or at least 500; when it has one, the
    verdict of that function on the failure decides. *)
Theorem retryRequest_eligibility
    (self : string -> RequestOptions.t -> Reentrant)
    (url : string) (options : RequestOptions.t) (error : Thrown)
    (retryCount : Js.number) (rc : RetryConfig.t) (st : State) :
  Js.gt retryCount Js.zero = true ->
  (RetryConfig.shouldRetry rc = None ->
   (shouldRetry host rc error = true <->
    status_of error = None \/ status_of error = Some 0
    \/ exists s, status_of error = Some s /\ (500 <= s)%Z))
  /\ (forall f, RetryConfig.shouldRetry rc = Some f ->
                shouldRetry host rc error = closure host f error)
  /\ retryRequest host self url options error retryCount rc st
     = if shouldRetry host rc error
       then self url
              (RequestOptions.with_retry
                 (Some (RetryConfig.mk (Js.minus retryCount Js.one)
                          (RetryConfig.delay rc)
                          (RetryConfig.shouldRetry rc)))
                 options)
              (snd (wait_delay rc st))
       else Some (Throws error, st).
Proof.
  intros Hpos. split; [|split].
  - intros Hnone. unfold shouldRetry. rewrite Hnone.
    destruct (status_of error) as [s|]; [|by split; [left|]].
    destruct (s =? 0)%Z eqn:Hs.
    + apply Z.eqb_eq in Hs as ->. split; [by right; left|done].
    + apply Z.eqb_neq in Hs. rewrite Z.leb_le. split.
      * intros H. right; right. by exists s.
      * intros [H|[H|(s' & H & Hs')]]; [done|congruence|].
        by injection H as ->.
  - intros f Hf. unfold shouldRetry. by rewrite Hf.
  - unfold retryRequest. rewrite (gt_zero_not_le _ Hpos).
    by destruct (shouldRetry host rc error).
Qed.

(** C8, as stated, fails: the count is a number and nothing makes it
    whole. With the policy [{ count: 0.5 }] and a transport that answers
    500, the first attempt fails, 0.5 is above 0, and the request is
    issued again with the count -0.5, which is below 0; the failure of
    that second attempt, which carries the policy with the count -0.5, is
    what the caller receives. *)
Lemma half_count_goes_below_zero :
  Js.is_number Js.half = true
  /\ Js.gt Js.half Js.zero = true
  /\ Js.lt (Js.minus Js.half Js.one) Js.zero = true
  /\ match request (host_status 500) 3 "/users" retry_half
             (new_HttpClient HttpClientConfig.empty) with
     | Some (r, st) =>
         r = Throws
               (ThrownRecord
                  (HttpRequestError.mk "HTTP error! status: 500" (Some 500)
                     (Some VNull) (Some retry_below_zero) None))
         /\ fetched st = 2%nat
     | None => False
     end.
Proof. by vm_compute. Qed.

(** C8, amended. (1) Whatever the policy, a call of [request] either
    settles without calling itself, or calls itself once, with the count
    of the policy in effect, which was above 0, lowered by one; when that
    count was 1 or more, as every whole number above 0 is, the lowered
    count is not below 0. (2) With a policy whose count is not above 0,
    the count 0 among them, it settles without calling itself, and the
    transport is called at most once. (3) With the policy [{ count: 1 }]
    and a transport that answers 500, the transport is called twice, also
    when there is room for more calls: one retry, whose failure, of status
    500 and carrying the policy with count 0, is what the caller
    receives. *)
Theorem retry_count_never_negative :
  (forall url options st,
     (exists out, forall self,
        request_body host self url options st = Some out)
     \/ (exists rc st',
           retryConfig (fst (request_start url options st)) = Some rc
           /\ Js.gt (RetryConfig.count rc) Js.zero = true
           /\ (Js.is_number (RetryConfig.count rc) = true ->
               Js.le Js.one (RetryConfig.count rc) = true ->
               Js.lt (Js.minus (RetryConfig.count rc) Js.one) Js.zero
               = false)
           /\ forall self,
                request_body host self url options st
                = self url
                    (RequestOptions.with_retry
                       (Some (RetryConfig.mk
                                (Js.minus (RetryConfig.count rc) Js.one)
                                (RetryConfig.delay rc)
                                (RetryConfig.shouldRetry rc)))
                       options)
                    st'))
  /\ (forall url options st rc,
        retryConfig (fst (request_start url options st)) = Some rc ->
        Js.gt (RetryConfig.count rc) Js.zero = false ->
        exists out,
          (forall self, request_body host self url options st = Some out)
          /\ (forall depth,
                request host (S depth) url options st = Some out)
          /\ (fetched (snd out) <= S (fetched st))%nat)
  /\ Js.gt Js.zero Js.zero = false
  /\ match request (host_status 500) 3 "/users" retry_once
             (new_HttpClient HttpClientConfig.empty) with
     | Some (r, st) =>
         r = Throws
               (ThrownRecord
                  (HttpRequestError.mk "HTTP error! status: 500" (Some 500)
                     (Some VNull) (Some retry_spent) None))
         /\ fetched st = 2%nat
         /\ fetch_urls (trace st) = ["/users"; "/users"]
     | None => False
     end.
Proof.
  split; [|split; [|split]].
  - intros url options st. unfold request_body.
    destruct (request_start url options st) as [call st1].
    destruct (request_try host call url options st1)
      as [[response|httpError] st2]; [by left; eexists|].
    cbv zeta. cbn [fst].
    destruct (retryConfig call) as [rc|]; [|by left; eexists].
    destruct (Js.gt (RetryConfig.count rc) Js.zero) eqn:Hpos;
      [|by left; eexists].
    unfold retryRequest. rewrite (gt_zero_not_le _ Hpos).
    destruct (negb _); [by left; eexists|].
    right. eexists rc, _. split; [done|]. split; [done|].
    split; [apply minus_one_not_negative|done].
  - intros url options st rc Hrc Hzero.
    assert (Hbody : forall self,
              request_body host self url options st
              = request_body host (fun _ _ _ => None) url options st).
    { intros self. unfold request_body.
      destruct (request_start url options st) as [call st1].
      destruct (request_try host call url options st1)
        as [[response|httpError] st2]; [done|].
      cbv zeta. cbn [fst] in Hrc. rewrite Hrc, Hzero. done. }
    assert (Hretry : retry_inactive
                       (retryConfig (fst (request_start url options st)))
                     = true).
    { rewrite Hrc. simpl. by rewrite Hzero. }
    destruct (request_settles_inactive 0 url options st Hretry)
      as (r & st' & Hreq).
    exists (r, st'). split; [|split].
    + intros self. by rewrite (Hbody self), <- (Hbody (request host 0)).
    + intros depth. rewrite request_unfold.
      by rewrite (Hbody (request host depth)), <- (Hbody (request host 0)).
    + assert (Hleft : retries_left 0 (count_in_effect (this st) options)
                      = Some O).
      { destruct (request_start url options st) as [call st1] eqn:Hstart.
        pose proof (count_in_effect_start _ _ _ _ _ Hstart) as Hcount.
        cbn [fst] in Hrc. rewrite Hrc in Hcount. rewrite Hcount. simpl.
        by rewrite Hzero. }
      pose proof (request_fetched_bound 0 0 1 url options st r st' Hleft
                    Hreq) as Hb.
      simpl. lia.
  - done.
  - by vm_compute.
Qed.

(** ** The failure path of the facade *)

(** C4, as stated, fails: with the policy [{ count: 1 }] and a response
    of status 404 the attempt fails, the default rule rejects the failure,
    and [request] throws it at once: the [onResponseError] of the
    registered interceptor, which would have recovered it, is not
    called. *)
Lemma ineligible_failure_skips_recovery :
  fst (request_try (host_status 404)
         (fst (request_start "/users" retry_once recovering_client))
         "/users" retry_once
         (snd (request_start "/users" retry_once recovering_client)))
  = Throws not_found
  /\ shouldRetry (host_status 404) (RetryConfig.mk Js.one None None) not_found
     = false
  /\ match request (host_status 404) 2 "/users" retry_once
             recovering_client with
     | Some (r, st) =>
         r = Throws not_found
         /\ responseError_indices (trace st) = []
         /\ fst (request_recover retry_once not_found st)
            = Returns (Envelope fallback)
     | None => False
     end.
Proof. by vm_compute. Qed.

(** C4, amended. When an attempt fails, the retry decision comes first.
    If no policy is in effect or its count is not above 0, the failure
    falls through to the loop over the response-error functions, then to
    the translation of an abort, and is thrown ([request_recover]). If
    the count is above 0 and the failure is not eligible, [request] throws
    the failure as it is, without calling a response-error function or
    translating an abort. If the count is above 0 and the failure is
    eligible, the request is issued again with the count lowered by
    one. *)
Theorem retry_decision_first (depth : nat) (url : string)
    (options : RequestOptions.t) (st : State) (call : Call) (st1 : State)
    (httpError : Thrown) (st2 : State) :
  request_start url options st = (call, st1) ->
  request_try host call url options st1 = (Throws httpError, st2) ->
  (retry_inactive (retryConfig call) = true ->
   request host (S depth) url options st
   = Some (request_recover options httpError
             (snd (request_cleanup call st2))))
  /\ (forall rc,
        retryConfig call = Some rc ->
        Js.gt (RetryConfig.count rc) Js.zero = true ->
        shouldRetry host rc httpError = false ->
        request host (S depth) url options st
        = Some (Throws httpError, snd (request_cleanup call st2)))
  /\ (forall rc,
        retryConfig call = Some rc ->
        Js.gt (RetryConfig.count rc) Js.zero = true ->
        shouldRetry host rc httpError = true ->
        request host (S depth) url options st
        = request host depth url
            (RequestOptions.with_retry
               (Some (RetryConfig.mk
                        (Js.minus (RetryConfig.count rc) Js.one)
                        (RetryConfig.delay rc)
                        (RetryConfig.shouldRetry rc)))
               options)
            (snd (wait_delay rc (snd (request_cleanup call st2))))).
Proof.
  intros Hstart Htry. split; [|split].
  - by apply (request_falls_through _ _ _ _ _ st1).
  - intros rc Hrc Hpos Hno.
    rewrite (request_retries _ _ _ _ _ _ _ _ _ Hstart Htry Hrc Hpos).
    unfold retryRequest. rewrite (gt_zero_not_le _ Hpos).
    by rewrite Hno.
  - intros rc Hrc Hpos Hyes.
    rewrite (request_retries _ _ _ _ _ _ _ _ _ Hstart Htry Hrc Hpos).
    unfold retryRequest. rewrite (gt_zero_not_le _ Hpos).
    by rewrite Hyes.
Qed.

(** ** Failures of the request interceptors *)






(** ** Recovery by the response-error functions *)

Lemma rethrow_other options error :
  is_error_named "AbortError" error = false -> rethrow options error = error.
Proof.
  destruct error as [e|r]; [|done]. simpl. by intros ->.
Qed.



(** ** Failures of the response interceptors *)


Lemma responseError_calls_silent pre n error :
  responseError_calls n pre error = [] ->
  responseErrors_throw pre error = true
  /\ forall l,
       responseError_calls n (pre ++ l) error
       = responseError_calls (n + length pre) l error.
Proof.
  revert n; induction pre as [|x pre IH]; intros n; simpl.
  - intros _. split; [done|]. intros l. by rewrite Nat.add_0_r.
  - unfold responseErrors_throw. simpl.
    destruct (ResponseInterceptor.onResponseError x); [done|].
    intros [Hthrow Happ]%IH. split; [done|].
    intros l. rewrite Happ. f_equal. lia.
Qed.



End Facade.


(** * Instances *)

Lemma request_start_registers_nothing_witness :
  exists r st',
    request (host_status 200) 1 "/users" RequestOptions.empty
      (new_HttpClient HttpClientConfig.empty)
    = Some (r, st')
    /\ HttpClient.pendingRequests (this st') = ∅.
Proof.
  destruct (request (host_status 200) 1 "/users" RequestOptions.empty
              (new_HttpClient HttpClientConfig.empty))
    as [[r st']|] eqn:Hreq; [|by vm_compute in Hreq].
  exists r, st'. split; [reflexivity|].
  destruct (request_start_registers_nothing (host_status 200) "/users"
              RequestOptions.empty) as (_ & _ & H).
  exact (H HttpClientConfig.empty 1%nat r st' Hreq).
Defined.

Lemma handleResponse_normalizes_witness :
  (Response.headers no_content !! "content-length" = Some "0"
   /\ handleResponse no_content RequestOptions.empty api_client
      = (Returns (HttpResponse.mk VNull 204 (Response.headers no_content)
                    RequestOptions.empty),
         api_client))
  /\ (read_body malformed = Throws (ThrownError unexpected_token)
      /\ handleResponse malformed RequestOptions.empty api_client
         = (Throws (ThrownRecord
                      (HttpRequestError.mk "Invalid response format"
                         (Some 200) (Some VNull) (Some RequestOptions.empty)
                         (Some unexpected_token))),
            api_client))
  /\ (Response.ok server_error = false
      /\ handleResponse server_error RequestOptions.empty api_client
         = (Throws (ThrownRecord
                      (HttpRequestError.mk "HTTP error! status: 500"
                         (Some 500) (Some (VObj [("error", VStr "boom")]))
                         (Some RequestOptions.empty) None)),
            api_client)).
Proof.
  split; [|split].
  - split; [reflexivity|].
    exact (proj1 (handleResponse_normalizes no_content RequestOptions.empty
                    api_client)
             (or_intror eq_refl)).
  - split; [reflexivity|].
    refine (proj1 (proj2 (handleResponse_normalizes malformed
                            RequestOptions.empty api_client))
              unexpected_token eq_refl _ eq_refl eq_refl).
    vm_compute. discriminate.
  - split; [reflexivity|].
    refine (proj2 (proj2 (handleResponse_normalizes server_error
                            RequestOptions.empty api_client))
              (VObj [("error", VStr "boom")]) eq_refl
              (or_intror (conj eq_refl (conj _ eq_refl)))).
    vm_compute. discriminate.
Defined.

Lemma retryRequest_eligibility_witness :
  Js.gt Js.one Js.zero = true
  /\ retryRequest (host_status 500) (request (host_status 500) 1) "/users"
       retry_once unavailable Js.one (RetryConfig.mk Js.one None None)
       (new_HttpClient HttpClientConfig.empty)
     = request (host_status 500) 1 "/users" retry_spent
         (new_HttpClient HttpClientConfig.empty).
Proof.
  split; [reflexivity|].
  apply (proj2 (proj2 (retryRequest_eligibility (host_status 500)
                         (request (host_status 500) 1) "/users" retry_once
                         unavailable Js.one (RetryConfig.mk Js.one None None)
                         (new_HttpClient HttpClientConfig.empty)
                         eq_refl))).
Defined.

Lemma retry_count_never_negative_witness :
  (retryConfig
     (fst (request_start "/users" retry_spent
             (new_HttpClient HttpClientConfig.empty)))
   = Some (RetryConfig.mk Js.zero None None)
   /\ Js.gt Js.zero Js.zero = false
   /\ exists out,
        (forall self,
           request_body (host_status 500) self "/users" retry_spent
             (new_HttpClient HttpClientConfig.empty)
           = Some out)
        /\ (forall depth,
              request (host_status 500) (S depth) "/users" retry_spent
                (new_HttpClient HttpClientConfig.empty)
              = Some out)
        /\ (fetched (snd out) <= 1)%nat)
  /\ (Js.is_number (Js.number_of_Z 3) = true
      /\ Js.le Js.one (Js.number_of_Z 3) = true
      /\ Js.lt (Js.minus (Js.number_of_Z 3) Js.one) Js.zero = false).
Proof.
  split.
  - split; [reflexivity|]. split; [reflexivity|].
    destruct (retry_count_never_negative (host_status 500)) as (_ & H & _).
    apply (H "/users" retry_spent (new_HttpClient HttpClientConfig.empty)
             (RetryConfig.mk Js.zero None None)); reflexivity.
  - split; [reflexivity|]. split; [reflexivity|].
    destruct (retry_count_never_negative (host_status 500)) as (H & _).
    destruct (H "/users"
                (RequestOptions.with_retry
                   (Some (RetryConfig.mk (Js.number_of_Z 3) None None))
                   RequestOptions.empty)
                (new_HttpClient HttpClientConfig.empty))
      as [(out & Hout)|(rc & st' & Hrc & _ & Hnot & _)].
    + specialize (Hout (fun _ _ _ => None)). by vm_compute in Hout.
    + injection Hrc as <-. apply Hnot; reflexivity.
Defined.

Lemma retry_decision_first_witness :
  shouldRetry (host_status 404) (RetryConfig.mk Js.one None None) not_found
  = false
  /\ request (host_status 404) 1 "/users" retry_once recovering_client
     = Some (Throws not_found,
             snd (request_cleanup
                    (fst (request_start "/users" retry_once
                            recovering_client))
                    (snd (request_try (host_status 404)
                            (fst (request_start "/users" retry_once
                                    recovering_client))
                            "/users" retry_once
                            (snd (request_start "/users" retry_once
                                    recovering_client)))))).
Proof.
  split; [reflexivity|].
  assert (Htry :
    request_try (host_status 404)
      (fst (request_start "/users" retry_once recovering_client))
      "/users" retry_once
      (snd (request_start "/users" retry_once recovering_client))
    = (Throws not_found,
       snd (request_try (host_status 404)
              (fst (request_start "/users" retry_once recovering_client))
              "/users" retry_once
              (snd (request_start "/users" retry_once recovering_client))))).
  { vm_compute. reflexivity. }
  destruct (retry_decision_first (host_status 404) 0 "/users" retry_once
              recovering_client _ _ not_found _ eq_refl Htry)
    as (_ & H & _).
  apply (H (RetryConfig.mk Js.one None None)); reflexivity.
Defined.





(** * Further properties *)

#[local] Set Warnings "-clear-no-such-hyp".

(** ** One call of [request], case by case *)

Section Calls.

Variable host : Host.

(** The four ways in which a call of [request] ends; the last one hands
    over to another call. *)
Lemma request_cases
    (P : string -> RequestOptions.t -> State -> Result Settled -> State
         -> Prop) :
  (forall url options st call st1 response st2,
     request_start url options st = (call, st1) ->
     request_try host call url options st1 = (Returns response, st2) ->
     P url options st (Returns (Envelope response)) st2) ->
  (forall url options st call st1 httpError st2 r st',
     request_start url options st = (call, st1) ->
     request_try host call url options st1 = (Throws httpError, st2) ->
     retry_inactive (retryConfig call) = true ->
     request_recover options httpError (snd (request_cleanup call st2))
     = (r, st') ->
     P url options st r st') ->
  (forall url options st call st1 httpError st2 rc,
     request_start url options st = (call, st1) ->
     request_try host call url options st1 = (Throws httpError, st2) ->
     retryConfig call = Some rc ->
     Js.gt (RetryConfig.count rc) Js.zero = true ->
     shouldRetry host rc httpError = false ->
     P url options st (Throws httpError) (snd (request_cleanup call st2))) ->
  (forall url options st call st1 httpError st2 rc r st',
     request_start url options st = (call, st1) ->
     request_try host call url options st1 = (Throws httpError, st2) ->
     retryConfig call = Some rc ->
     Js.gt (RetryConfig.count rc) Js.zero = true ->
     shouldRetry host rc httpError = true ->
     P url
       (RequestOptions.with_retry
          (Some (RetryConfig.mk (Js.minus (RetryConfig.count rc) Js.one)
                   (RetryConfig.delay rc) (RetryConfig.shouldRetry rc)))
          options)
       (snd (wait_delay rc (snd (request_cleanup call st2)))) r st' ->
     P url options st r st') ->
  forall depth url options st r st',
    request host depth url options st = Some (r, st') ->
    P url options st r st'.
Proof.
  intros Hreturns Hrecover Hthrows Hretry depth.
  induction depth as [|depth IH]; intros url options st r st'; [done|].
  destruct (request_start url options st) as [call st1] eqn:Hstart.
  destruct (request_try host call url options st1)
    as [[response|httpError] st2] eqn:Htry.
  { rewrite (request_returns _ _ _ _ _ _ _ _ _ Hstart Htry).
    intros [= <- <-]. by eapply Hreturns. }
  destruct (retry_inactive (retryConfig call)) eqn:Hinactive.
  { rewrite (request_falls_through _ _ _ _ _ _ _ _ _ Hstart Htry Hinactive).
    intros [= Hrec]. eapply Hrecover; [done..|].
    by destruct (request_recover _ _ _). }
  unfold retry_inactive in Hinactive.
  destruct (retryConfig call) as [rc|] eqn:Hrc; [|done].
  apply negb_false_iff in Hinactive.
  rewrite (request_retries _ _ _ _ _ _ _ _ _ _ Hstart Htry Hrc Hinactive).
  unfold retryRequest. rewrite (gt_zero_not_le _ Hinactive).
  destruct (shouldRetry host rc httpError) eqn:Hshould; simpl.
  - intros Hreq. eapply Hretry; [done..|]. by eapply IH.
  - intros [= <- <-]. by eapply Hthrows.
Qed.


(** *** What the [try] does to the timers and to the registry *)

Lemma omap_prefix_nil {A B} (f : A -> option B) (l1 l2 : list A) :
  l1 `prefix_of` l2 -> omap f l2 = [] -> omap f l1 = [].
Proof. intros [k ->]. rewrite omap_app. by intros [? ?]%app_eq_nil. Qed.

Lemma omap_requestError_calls {B} (f : Event -> option B) l index error :
  (forall i e, f (EvRequestError i e) = None) ->
  omap f (requestError_calls index l error) = [].
Proof.
  intros Hf. revert index; induction l as [|x l IH]; intros index; [done|].
  simpl. destruct (RequestInterceptor.onRequestError x); simpl;
    rewrite ?Hf; apply IH.
Qed.

Lemma omap_responseError_calls {B} (f : Event -> option B) l index error :
  (forall i e, f (EvResponseError i e) = None) ->
  omap f (responseError_calls index l error) = [].
Proof.
  intros Hf. revert index; induction l as [|x l IH]; intros index; [done|].
  simpl. destruct (ResponseInterceptor.onResponseError x); simpl;
    rewrite ?Hf; apply IH.
Qed.

Lemma request_try_sent_or_not call url options st :
  fetched (snd (request_try host call url options st)) = fetched st
  \/ fetched (snd (request_try host call url options st)) = S (fetched st).
Proof.
  destruct (onRequest_chain (HttpClient.requestInterceptors (this st))
              options) as [io|error] eqn:Hchain.
  - destruct (request_try_sent host call url options io st Hchain)
      as (r & evs & st' & -> & Hf & _). by right.
  - destruct (request_try_throws host call url options error st Hchain)
      as (evs & e' & -> & _). by left.
Qed.

Local Ltac inclusions :=
  repeat split; first [done | apply list_subseteq_nil | set_solver].

Lemma request_try_effects call url options st :
  exists evs,
    trace (snd (request_try host call url options st))
    = (trace st ++ evs)%list
    /\ timers_set evs = []
    /\ (this (snd (request_try host call url options st)) = this st
        \/ this (snd (request_try host call url options st))
           = this (unregister (requestKey call) st))
    /\ (returns (fst (request_try host call url options st)) = true ->
        this (snd (request_try host call url options st))
        = this (unregister (requestKey call) st)
        /\ timers_cleared evs = [timeoutId call])
    /\ timers_cleared evs ⊆ [timeoutId call]
    /\ abort_calls evs ⊆ [controller call].
Proof.
  destruct (onRequest_chain (HttpClient.requestInterceptors (this st))
              options) as [io|error] eqn:Hio.
  2:{ destruct (request_try_throws host call url options error st Hio)
        as (evs & e' & -> & Hpre & _).
      exists evs. simpl. split; [done|].
      split; [by eapply omap_prefix_nil, omap_requestError_calls|].
      split; [by left|]. split; [done|].
      unfold timers_cleared, abort_calls.
      rewrite !(omap_prefix_nil _ _ _ Hpre) by
        by apply omap_requestError_calls.
      inclusions. }
  unfold request_try, bind.
  destruct (fetch host (fetched st)
              (createURLWithParams (HttpClient.baseURL (this st) ++ url)
                 (RequestOptions.params io))
              (fetchOptions_of (this st) call io))
    as [response|error|message] eqn:Hfetch.
  - rewrite (request_send_resolves _ _ _ _ _ _ _ Hio Hfetch). cbv zeta.
    set (st' := unregister _ _).
    destruct (fst (handleResponse response io st')) as [handled|error].
    + destruct (onResponse_chain
                  (HttpClient.responseInterceptors (this st')) handled)
        as [handled'|error] eqn:Hchain.
      * rewrite (applyResponseInterceptors_returns _ _ _ Hchain).
        eexists [_; _]. simpl. rewrite <- app_assoc.
        split; [done|]. split; [done|]. split; [by right|].
        inclusions.
      * destruct (applyResponseInterceptors_throws _ _ _ Hchain)
          as (evs & e' & -> & Hpre & _).
        eexists (_ :: _ :: evs). simpl. rewrite <- !app_assoc.
        split; [done|].
        split; [by eapply omap_prefix_nil, omap_responseError_calls|].
        split; [by right|]. split; [done|].
        unfold timers_cleared, abort_calls. simpl.
        rewrite !(omap_prefix_nil _ _ _ Hpre) by
          by apply omap_responseError_calls.
        inclusions.
    + eexists [_; _]. simpl. rewrite <- app_assoc.
      split; [done|]. split; [done|]. split; [by right|]. inclusions.
  - rewrite (request_send_rejects _ _ _ _ _ _ _ Hio Hfetch).
    eexists [_]. simpl. split; [done|]. split; [done|]. split; [by left|].
    inclusions.
  - rewrite (request_send_timesOut _ _ _ _ _ _ _ Hio Hfetch).
    eexists [_; _]. simpl. rewrite <- app_assoc.
    split; [done|]. split; [done|]. split; [by right|].
    inclusions.
Qed.


Lemma request_try_effects_of call url options st r st2 :
  request_try host call url options st = (r, st2) ->
  exists evs,
    trace st2 = (trace st ++ evs)%list
    /\ timers_set evs = []
    /\ (this st2 = this st
        \/ this st2 = this (unregister (requestKey call) st))
    /\ (returns r = true ->
        this st2 = this (unregister (requestKey call) st)
        /\ timers_cleared evs = [timeoutId call])
    /\ timers_cleared evs ⊆ [timeoutId call]
    /\ abort_calls evs ⊆ [controller call].
Proof.
  intros H. pose proof (request_try_effects call url options st) as He.
  by rewrite H in He.
Qed.

Lemma trace_wait_delay rc st :
  exists evs,
    trace (snd (wait_delay rc st)) = (trace st ++ evs)%list
    /\ timers_set evs = [] /\ timers_cleared evs = []
    /\ abort_calls evs = [].
Proof.
  unfold wait_delay. destruct (RetryConfig.delay rc) as [ms|].
  - destruct (ms =? 0)%Z; [exists []|by exists [EvDelay ms]].
    simpl. by rewrite app_nil_r.
  - exists []. simpl. by rewrite app_nil_r.
Qed.

Lemma trace_request_recover options httpError st :
  exists evs,
    trace (snd (request_recover options httpError st))
    = (trace st ++ evs)%list
    /\ timers_set evs = [] /\ timers_cleared evs = []
    /\ abort_calls evs = [].
Proof.
  unfold request_recover, bind, read_this.
  destruct (recover_loop_calls (HttpClient.responseInterceptors (this st)) 0
              options httpError httpError st) as (evs & r & -> & Hpre).
  exists evs. split; [done|].
  unfold timers_set, timers_cleared, abort_calls.
  by rewrite !(omap_prefix_nil _ _ _ Hpre) by
    by apply omap_responseError_calls.
Qed.

(** ** Termination and the transport *)

(** X1. When every promise that [request] awaits settles (the
    transport, the reading of a body, the interceptors and the delay
    answer with a value or a failure, as they do here), and the count of
    the policy in effect (that of the options if they have one, else that
    of the instance, else none) can be lowered by one [n] times before it
    is no longer above 0 (twice from 2, three times from 2.5), a call of
    [request] settles within [n + 1] nested calls, and calls the transport
    at most [n + 1] times, whatever [shouldRetry] answers and however many
    nested calls it is allowed. *)
Theorem request_settles_within_budget (bound n : nat) (url : string)
    (options : RequestOptions.t) (st : State) :
  retries_left bound (count_in_effect (this st) options) = Some n ->
  (exists r st', request host (S n) url options st = Some (r, st'))
  /\ forall depth r st',
       request host depth url options st = Some (r, st') ->
       (fetched st <= fetched st')%nat
       /\ (fetched st' <= fetched st + S n)%nat.
Proof.
  intros Hleft. split; [by eapply request_settles|].
  intros depth r st' Hreq.
  split; [|by eapply request_fetched_bound].
  clear Hleft.
  revert depth url options st r st' Hreq.
  apply (request_cases (fun _ _ st _ st' => (fetched st <= fetched st')%nat)).
  - intros url options st call st1 response st2 Hstart Htry.
    destruct (request_try_sent_or_not call url options st1) as [H|H];
      rewrite Htry in H; simpl in H.
    all: unfold request_start in Hstart; injection Hstart as <- <-;
      simpl in *; lia.
  - intros url options st call st1 httpError st2 r st' Hstart Htry _ Hrec.
    pose proof (fetched_request_recover options httpError
                  (snd (request_cleanup call st2))) as Hf.
    rewrite Hrec in Hf. simpl in Hf.
    destruct (request_try_sent_or_not call url options st1) as [H|H];
      rewrite Htry in H; simpl in H.
    all: unfold request_start in Hstart; injection Hstart as <- <-;
      simpl in *; lia.
  - intros url options st call st1 httpError st2 rc Hstart Htry _ _ _.
    destruct (request_try_sent_or_not call url options st1) as [H|H];
      rewrite Htry in H; simpl in H.
    all: unfold request_start in Hstart; injection Hstart as <- <-;
      simpl in *; lia.
  - intros url options st call st1 httpError st2 rc r st' Hstart Htry _ _ _.
    rewrite fetched_wait_delay. simpl.
    destruct (request_try_sent_or_not call url options st1) as [H|H];
      rewrite Htry in H; simpl in H.
    all: unfold request_start in Hstart; injection Hstart as <- <-;
      simpl in *; lia.
Qed.


(** ** The registry and the timers along a call *)

Lemma createRequestKey_with_retry c m retry url options :
  createRequestKey (HttpClient.with_pendingRequests m c) url
    (RequestOptions.with_retry retry options)
  = createRequestKey c url options.
Proof. done. Qed.

(** X2. When a call of [request] has settled, the instance is what it
    was but for the key of the request, which is out of
    [pendingRequests], whether or not it was there and whoever had put
    it; the other keys, the interceptors and the defaults are as they
    were. *)
Theorem request_unregisters_own_key (depth : nat) (url : string)
    (options : RequestOptions.t) (st : State) (r : Result Settled)
    (st' : State) :
  request host depth url options st = Some (r, st') ->
  this st'
  = HttpClient.with_pendingRequests
      (delete (createRequestKey (this st) url options)
         (HttpClient.pendingRequests (this st)))
      (this st).
Proof.
  revert depth url options st r st'.
  apply (request_cases
           (fun url options st _ st' =>
              this st'
              = HttpClient.with_pendingRequests
                  (delete (createRequestKey (this st) url options)
                     (HttpClient.pendingRequests (this st)))
                  (this st))).
  - intros url options st call st1 response st2 Hstart Htry.
    destruct (request_try_effects_of _ _ _ _ _ _ Htry)
      as (evs & _ & _ & _ & Hret & _).
    destruct (Hret eq_refl) as [-> _].
    unfold request_start in Hstart. by injection Hstart as <- <-.
  - intros url options st call st1 httpError st2 r st' Hstart Htry _ Hrec.
    pose proof (this_request_recover options httpError
                  (snd (request_cleanup call st2))) as Hthis.
    rewrite Hrec in Hthis. simpl in Hthis. rewrite Hthis.
    destruct (request_try_effects_of _ _ _ _ _ _ Htry)
      as (evs & _ & _ & [H|H] & _);
      rewrite H; unfold request_start in Hstart; injection Hstart as <- <-;
      simpl; by rewrite ?delete_delete_eq.
  - intros url options st call st1 httpError st2 rc Hstart Htry _ _ _.
    simpl.
    destruct (request_try_effects_of _ _ _ _ _ _ Htry)
      as (evs & _ & _ & [H|H] & _);
      rewrite H; unfold request_start in Hstart; injection Hstart as <- <-;
      simpl; by rewrite ?delete_delete_eq.
  - intros url options st call st1 httpError st2 rc r st' Hstart Htry _ _ _.
    rewrite this_wait_delay. simpl. intros ->.
    destruct (request_try_effects_of _ _ _ _ _ _ Htry)
      as (evs & _ & _ & [H|H] & _);
      rewrite H; unfold request_start in Hstart; injection Hstart as <- <-;
      simpl; rewrite createRequestKey_with_retry;
      by rewrite ?delete_delete_eq.
Qed.

Lemma request_start_effects url options st call st1 :
  request_start url options st = (call, st1) ->
  controller call = fresh st
  /\ timeoutId call = S (fresh st)
  /\ requestKey call = createRequestKey (this st) url options
  /\ this st1 = this st
  /\ fetched st1 = fetched st
  /\ exists ms,
       trace st1
       = (trace st
          ++ [EvNewController (fresh st); EvSetTimeout (S (fresh st)) ms])%list.
Proof.
  unfold request_start. intros [= <- <-]. simpl. repeat split. by eexists.
Qed.

Lemma trace_request_cleanup call st :
  trace (snd (request_cleanup call st))
  = (trace st ++ [EvClearTimeout (timeoutId call)])%list.
Proof. done. Qed.

Lemma timers_set_app evs1 evs2 :
  timers_set (evs1 ++ evs2) = (timers_set evs1 ++ timers_set evs2)%list.
Proof. apply omap_app. Qed.

Lemma timers_cleared_app evs1 evs2 :
  timers_cleared (evs1 ++ evs2)
  = (timers_cleared evs1 ++ timers_cleared evs2)%list.
Proof. apply omap_app. Qed.

(** X3. A call of [request] starts by creating a controller and arming
    a timer, and by the time it has settled every timer that it has armed
    (one for each attempt) has been cleared, and no other timer has. *)
Theorem request_clears_its_timers (depth : nat) (url : string)
    (options : RequestOptions.t) (st : State) (r : Result Settled)
    (st' : State) :
  request host depth url options st = Some (r, st') ->
  exists ms evs,
    trace st'
    = (trace st
       ++ EvNewController (fresh st) :: EvSetTimeout (S (fresh st)) ms
          :: evs)%list
    /\ timers_set (EvSetTimeout (S (fresh st)) ms :: evs)
       ⊆ timers_cleared evs
    /\ timers_cleared evs
       ⊆ timers_set (EvSetTimeout (S (fresh st)) ms :: evs).
Proof.
  revert depth url options st r st'.
  apply (request_cases
           (fun url options st _ st' =>
              exists ms evs,
                trace st'
                = (trace st
                   ++ EvNewController (fresh st)
                      :: EvSetTimeout (S (fresh st)) ms :: evs)%list
                /\ timers_set (EvSetTimeout (S (fresh st)) ms :: evs)
                   ⊆ timers_cleared evs
                /\ timers_cleared evs
                   ⊆ timers_set (EvSetTimeout (S (fresh st)) ms :: evs))).
  - intros url options st call st1 response st2 Hstart Htry.
    destruct (request_start_effects _ _ _ _ _ Hstart)
      as (_ & Ht & _ & _ & _ & ms & Htrace1).
    destruct (request_try_effects_of _ _ _ _ _ _ Htry)
      as (evs & Htrace & Hset & _ & Hret & _).
    destruct (Hret eq_refl) as [_ Hclear].
    exists ms, evs. rewrite Htrace, Htrace1, <- app_assoc.
    split; [done|].
    change (timers_set (EvSetTimeout (S (fresh st)) ms :: evs))
      with (S (fresh st) :: timers_set evs).
    by rewrite Hset, Hclear, Ht.
  - intros url options st call st1 httpError st2 r st' Hstart Htry _ Hrec.
    destruct (request_start_effects _ _ _ _ _ Hstart)
      as (_ & Ht & _ & _ & _ & ms & Htrace1).
    destruct (request_try_effects_of _ _ _ _ _ _ Htry)
      as (evs & Htrace & Hset & _ & _ & Hclear & _).
    destruct (trace_request_recover options httpError
                (snd (request_cleanup call st2)))
      as (evs3 & Htrace3 & Hset3 & Hclear3 & _).
    rewrite Hrec, trace_request_cleanup in Htrace3. cbn [snd] in Htrace3.
    exists ms, (evs ++ EvClearTimeout (timeoutId call) :: evs3)%list.
    rewrite Htrace3, Htrace, Htrace1, <- !app_assoc.
    split; [done|].
    change (timers_set (EvSetTimeout (S (fresh st)) ms
                        :: evs ++ EvClearTimeout (timeoutId call) :: evs3))
      with (S (fresh st)
            :: timers_set (evs ++ EvClearTimeout (timeoutId call) :: evs3)).
    rewrite timers_set_app, timers_cleared_app, Hset.
    change (timers_set (EvClearTimeout (timeoutId call) :: evs3))
      with (timers_set evs3).
    change (timers_cleared (EvClearTimeout (timeoutId call) :: evs3))
      with (timeoutId call :: timers_cleared evs3).
    rewrite Hset3, Hclear3, Ht in *. split; set_solver.
  - intros url options st call st1 httpError st2 rc Hstart Htry _ _ _.
    destruct (request_start_effects _ _ _ _ _ Hstart)
      as (_ & Ht & _ & _ & _ & ms & Htrace1).
    destruct (request_try_effects_of _ _ _ _ _ _ Htry)
      as (evs & Htrace & Hset & _ & _ & Hclear & _).
    exists ms, (evs ++ [EvClearTimeout (timeoutId call)])%list.
    rewrite trace_request_cleanup, Htrace, Htrace1, <- !app_assoc.
    split; [done|].
    change (timers_set (EvSetTimeout (S (fresh st)) ms
                        :: evs ++ [EvClearTimeout (timeoutId call)]))
      with (S (fresh st)
            :: timers_set (evs ++ [EvClearTimeout (timeoutId call)])).
    rewrite timers_set_app, timers_cleared_app, Hset.
    change (timers_set [EvClearTimeout (timeoutId call)]) with (@nil nat).
    change (timers_cleared [EvClearTimeout (timeoutId call)])
      with [timeoutId call].
    rewrite Ht in *. split; set_solver.
  - intros url options st call st1 httpError st2 rc r st' Hstart Htry _ _ _.
    intros (ms' & evs' & Htrace' & Hsub1 & Hsub2).
    destruct (request_start_effects _ _ _ _ _ Hstart)
      as (_ & Ht & _ & _ & _ & ms & Htrace1).
    destruct (request_try_effects_of _ _ _ _ _ _ Htry)
      as (evs & Htrace & Hset & _ & _ & Hclear & _).
    destruct (trace_wait_delay rc (snd (request_cleanup call st2)))
      as (evsd & Htraced & Hsetd & Hcleard & _).
    rewrite trace_request_cleanup in Htraced.
    set (st3 := snd (wait_delay rc (snd (request_cleanup call st2)))) in *.
    exists ms,
      (evs ++ EvClearTimeout (timeoutId call)
           :: evsd ++ EvNewController (fresh st3)
           :: EvSetTimeout (S (fresh st3)) ms' :: evs')%list.
    rewrite Htrace', Htraced, Htrace, Htrace1, <- !app_assoc.
    split; [done|].
    change (timers_set
              (EvSetTimeout (S (fresh st)) ms
               :: evs ++ EvClearTimeout (timeoutId call)
               :: evsd ++ EvNewController (fresh st3)
               :: EvSetTimeout (S (fresh st3)) ms' :: evs'))
      with (S (fresh st)
            :: timers_set
                 (evs ++ EvClearTimeout (timeoutId call)
                  :: evsd ++ EvNewController (fresh st3)
                  :: EvSetTimeout (S (fresh st3)) ms' :: evs')).
    rewrite timers_set_app, timers_cleared_app, Hset.
    change (timers_set
              (EvClearTimeout (timeoutId call)
               :: evsd ++ EvNewController (fresh st3)
               :: EvSetTimeout (S (fresh st3)) ms' :: evs'))
      with (timers_set
              (evsd ++ EvNewController (fresh st3)
               :: EvSetTimeout (S (fresh st3)) ms' :: evs')).
    change (timers_cleared
              (EvClearTimeout (timeoutId call)
               :: evsd ++ EvNewController (fresh st3)
               :: EvSetTimeout (S (fresh st3)) ms' :: evs'))
      with (timeoutId call
            :: timers_cleared
                 (evsd ++ EvNewController (fresh st3)
                  :: EvSetTimeout (S (fresh st3)) ms' :: evs')).
    rewrite timers_set_app, timers_cleared_app, Hsetd, Hcleard.
    change (timers_set
              (EvNewController (fresh st3)
               :: EvSetTimeout (S (fresh st3)) ms' :: evs'))
      with (timers_set (EvSetTimeout (S (fresh st3)) ms' :: evs')).
    change (timers_cleared
              (EvNewController (fresh st3)
               :: EvSetTimeout (S (fresh st3)) ms' :: evs'))
      with (timers_cleared evs').
    rewrite Ht in *. split; set_solver.
Qed.


(** ** The success path and the timeout *)

Lemma handleResponse_fst response config st st' :
  fst (handleResponse response config st)
  = fst (handleResponse response config st').
Proof.
  unfold handleResponse, try_catch, bind, await, ret, throw.
  destruct (Response.body response && _); simpl.
  - destruct (read_body response) as [d|[e|r]]; simpl.
    + by destruct (negb (Response.ok response)).
    + by destruct (String.eqb _ _).
    + done.
  - by destruct (negb (Response.ok response)).
Qed.

(** X4. When the request interceptors, the transport, the normalizer
    and the response interceptors all succeed, [request] resolves with the
    envelope as the [onResponse] functions have left it, after one call of
    the transport with the intercepted options, whatever the retry policy;
    the timer of the call is cleared and its key taken out of
    [pendingRequests] once. *)
Theorem request_success (depth : nat) (url : string)
    (options : RequestOptions.t) (st : State) (call : Call) (st1 : State)
    (io : RequestOptions.t) (response : Response.t)
    (handled handled' : HttpResponse.t) :
  request_start url options st = (call, st1) ->
  onRequest_chain (HttpClient.requestInterceptors (this st)) options
  = Returns io ->
  fetch host (fetched st)
    (createURLWithParams (HttpClient.baseURL (this st) ++ url)
       (RequestOptions.params io))
    (fetchOptions_of (this st) call io)
  = Resolves response ->
  fst (handleResponse response io st) = Returns handled ->
  onResponse_chain (HttpClient.responseInterceptors (this st)) handled
  = Returns handled' ->
  request host (S depth) url options st
  = Some (Returns (Envelope handled'),
          unregister (requestKey call)
            (log [EvClearTimeout (timeoutId call)]
               (fetching
                  (createURLWithParams (HttpClient.baseURL (this st) ++ url)
                     (RequestOptions.params io))
                  (fetchOptions_of (this st) call io) st1))).
Proof.
  intros Hstart Hio Hfetch Hhandled Hchain.
  destruct (request_start_effects _ _ _ _ _ Hstart)
    as (_ & _ & _ & Hthis & Hfetched & _).
  rewrite <- Hthis, <- Hfetched in *.
  eapply request_returns; [done|].
  unfold request_try, bind.
  rewrite (request_send_resolves _ _ _ _ _ _ _ Hio Hfetch). cbv zeta.
  erewrite handleResponse_fst, Hhandled.
  by rewrite (applyResponseInterceptors_returns handled handled').
Qed.

Lemma unregister_twice key evs1 evs2 st :
  unregister key (log evs2 (unregister key (log evs1 st)))
  = unregister key (log (evs1 ++ evs2) st).
Proof.
  unfold unregister, log, with_this, HttpClient.with_pendingRequests.
  cbn [this fetched fresh trace HttpClient.pendingRequests
       HttpClient.baseURL HttpClient.defaultHeaders
       HttpClient.defaultTimeout HttpClient.defaultCredentials
       HttpClient.defaultRetry HttpClient.requestInterceptors
       HttpClient.responseInterceptors].
  by rewrite delete_delete_eq, <- app_assoc.
Qed.

Lemma last_failure_silent l httpError error :
  responseError_calls 0 l httpError = [] ->
  last_failure l httpError error = error.
Proof.
  generalize 0%nat. induction l as [|x l IH]; intros n; [done|].
  simpl. destruct (ResponseInterceptor.onResponseError x); [done|].
  apply IH.
Qed.

(** X5. When the timer fires before the transport answers, the
    controller of the call is aborted once and its key taken out of
    [pendingRequests]. If no retry is in effect and no response-error
    function is registered, the caller receives the record "Request was
    cancelled" with the options of the call and the [AbortError] as
    cause. If a policy without [shouldRetry] is in effect with a count
    above 0, the request is issued again instead. *)
Theorem request_timeout (depth : nat) (url : string)
    (options : RequestOptions.t) (st : State) (call : Call) (st1 : State)
    (io : RequestOptions.t) (message : string) :
  request_start url options st = (call, st1) ->
  onRequest_chain (HttpClient.requestInterceptors (this st)) options
  = Returns io ->
  fetch host (fetched st)
    (createURLWithParams (HttpClient.baseURL (this st) ++ url)
       (RequestOptions.params io))
    (fetchOptions_of (this st) call io)
  = TimesOut message ->
  let aborted := NativeError.mk "AbortError" message in
  let st3 :=
    unregister (requestKey call)
      (log [EvAbort (controller call); EvClearTimeout (timeoutId call)]
         (fetching
            (createURLWithParams (HttpClient.baseURL (this st) ++ url)
               (RequestOptions.params io))
            (fetchOptions_of (this st) call io) st1)) in
  HttpClient.pendingRequests (this st3) !! requestKey call = None
  /\ (retry_inactive (retryConfig call) = true ->
      responseError_calls 0 (HttpClient.responseInterceptors (this st))
        (ThrownError aborted) = [] ->
      request host (S depth) url options st
      = Some (Throws
                (ThrownRecord
                   (HttpRequestError.mk "Request was cancelled" None None
                      (Some options) (Some aborted))),
              st3))
  /\ (forall rc,
        retryConfig call = Some rc ->
        Js.gt (RetryConfig.count rc) Js.zero = true ->
        RetryConfig.shouldRetry rc = None ->
        request host (S depth) url options st
        = request host depth url
            (RequestOptions.with_retry
               (Some (RetryConfig.mk
                        (Js.minus (RetryConfig.count rc) Js.one)
                        (RetryConfig.delay rc) None))
               options)
            (snd (wait_delay rc st3))).
Proof.
  intros Hstart Hio Hfetch.
  destruct (request_start_effects _ _ _ _ _ Hstart)
    as (_ & _ & _ & Hthis & Hfetched & _).
  rewrite <- Hthis, <- Hfetched in *. intros aborted st3.
  assert (Htry : request_try host call url options st1
                 = (Throws (ThrownError aborted),
                    unregister (requestKey call)
                      (log [EvAbort (controller call)]
                         (fetching
                            (createURLWithParams
                               (HttpClient.baseURL (this st1) ++ url)
                               (RequestOptions.params io))
                            (fetchOptions_of (this st1) call io) st1)))).
  { unfold request_try, bind.
    by rewrite (request_send_timesOut _ _ _ _ _ _ _ Hio Hfetch). }
  assert (Hst3 : snd (request_cleanup call
                        (unregister (requestKey call)
                           (log [EvAbort (controller call)]
                              (fetching
                                 (createURLWithParams
                                    (HttpClient.baseURL (this st1) ++ url)
                                    (RequestOptions.params io))
                                 (fetchOptions_of (this st1) call io) st1))))
                 = st3).
  { rewrite request_cleanup_state. apply unregister_twice. }
  split; [apply lookup_delete_eq|]. split.
  - intros Hretry Hsilent.
    rewrite (request_falls_through _ _ _ _ _ _ _ _ _ Hstart Htry Hretry),
      Hst3.
    unfold request_recover, bind, read_this.
    change (HttpClient.responseInterceptors (this st3))
      with (HttpClient.responseInterceptors (this st1)).
    destruct (responseError_calls_silent _ _ _ Hsilent) as [Hthrow _].
    rewrite (recover_loop_all_throw _ _ _ _ _ _ Hthrow).
    by rewrite Hsilent, (last_failure_silent _ _ _ Hsilent), log_nil.
  - intros rc Hrc Hpos Hnone.
    rewrite (request_retries _ _ _ _ _ _ _ _ _ _ Hstart Htry Hrc Hpos), Hst3.
    unfold retryRequest, shouldRetry.
    rewrite (gt_zero_not_le _ Hpos).
    by rewrite Hnone.
Qed.

End Calls.

(** ** Cancelling *)

(** X6. [cancelRequest] on a registered key aborts its controller once
    and takes the key out of [pendingRequests], leaving the other keys as
    they are; on a key that is not registered it does nothing and does not
    fail. In both cases a second call with the same key does nothing. *)
Theorem cancelRequest_aborts_once (key : string) (st : State) :
  cancelRequest key st
  = (Returns tt,
     match HttpClient.pendingRequests (this st) !! key with
     | Some controller => unregister key (log [EvAbort controller] st)
     | None => st
     end)
  /\ HttpClient.pendingRequests (this (snd (cancelRequest key st))) !! key
     = None
  /\ (forall key',
        key' <> key ->
        HttpClient.pendingRequests (this (snd (cancelRequest key st))) !! key'
        = HttpClient.pendingRequests (this st) !! key')
  /\ cancelRequest key (snd (cancelRequest key st))
     = (Returns tt, snd (cancelRequest key st)).
Proof.
  unfold cancelRequest, bind, read_this. cbn [fst snd].
  destruct (HttpClient.pendingRequests (this st) !! key) as [c|] eqn:Hkey.
  - cbn. split; [done|]. split; [apply lookup_delete_eq|].
    split; [intros key' Hne; by apply lookup_delete_ne|].
    by rewrite lookup_delete_eq.
  - cbn. split; [done|]. split; [done|]. split; [done|].
    by rewrite Hkey.
Qed.

(** X7. [cancelAllRequests] aborts the controller of every entry of
    [pendingRequests] once (the order is not modelled), empties the map
    and leaves the rest of the instance as it is; after it,
    [cancelAllRequests] and [cancelRequest] do nothing. *)
Theorem cancelAllRequests_aborts_each_once (st : State) :
  exists evs,
    cancelAllRequests st
    = (Returns tt,
       log evs
         (with_this (HttpClient.with_pendingRequests ∅ (this st)) st))
    /\ abort_calls evs
       ≡ₚ map snd (map_to_list (HttpClient.pendingRequests (this st)))
    /\ length evs = size (HttpClient.pendingRequests (this st))
    /\ cancelAllRequests (snd (cancelAllRequests st))
       = (Returns tt, snd (cancelAllRequests st))
    /\ forall key,
         cancelRequest key (snd (cancelAllRequests st))
         = (Returns tt, snd (cancelAllRequests st)).
Proof.
  eexists. split; [reflexivity|].
  split.
  { unfold abort_calls.
    induction (map_to_list (HttpClient.pendingRequests (this st)))
      as [|[k c] l IH]; [done|]. simpl. by rewrite IH. }
  split; [by rewrite length_map, length_map_to_list|].
  split.
  - unfold cancelAllRequests. cbn [snd this]. cbn.
    rewrite map_to_list_empty. cbn. by rewrite app_nil_r.
  - intros key. unfold cancelRequest, bind, read_this. cbn.
    by rewrite lookup_empty.
Qed.

(** ** Unregistering an interceptor *)

Lemma indexOf_none {A} (same : A -> bool) (l : list A) :
  forallb (fun y => negb (same y)) l = true -> indexOf same l = None.
Proof.
  induction l as [|y l IH]; [done|]. simpl.
  intros [Hy Hl]%andb_true_iff. apply negb_true_iff in Hy.
  by rewrite Hy, IH.
Qed.

Lemma indexOf_first {A} (same : A -> bool) (l1 l2 : list A) (x : A) :
  forallb (fun y => negb (same y)) l1 = true ->
  same x = true ->
  indexOf same (l1 ++ x :: l2) = Some (length l1).
Proof.
  intros Hl1 Hx. induction l1 as [|y l1 IH]; simpl.
  - by rewrite Hx.
  - simpl in Hl1. apply andb_true_iff in Hl1 as [Hy Hl1].
    apply negb_true_iff in Hy. by rewrite Hy, IH.
Qed.

Lemma splice_one_middle {A} (l1 l2 : list A) (x : A) :
  splice_one (length l1) (l1 ++ x :: l2) = (l1 ++ l2)%list.
Proof.
  unfold splice_one. rewrite take_app_length.
  replace (S (length l1)) with (length l1 + 1)%nat by lia.
  by rewrite drop_app_add.
Qed.

Lemma with_requestInterceptors_same (c : HttpClient.t) :
  HttpClient.with_requestInterceptors (HttpClient.requestInterceptors c) c = c.
Proof. by destruct c. Qed.

Lemma with_responseInterceptors_same (c : HttpClient.t) :
  HttpClient.with_responseInterceptors (HttpClient.responseInterceptors c) c
  = c.
Proof. by destruct c. Qed.

Lemma with_this_same (st : State) : with_this (this st) st = st.
Proof. by destruct st. Qed.

(** X8. The function that [addRequestInterceptor] and
    [addResponseInterceptor] return takes out the first occurrence of its
    interceptor only: with the interceptor at the end of [before] and
    nowhere in [before], the list [before ++ x :: after] becomes
    [before ++ after], later occurrences in [after] included, and nothing
    else of the instance changes. *)
Theorem unregister_removes_first_occurrence
    (st : State) :
  (forall (same : RequestInterceptor.t -> bool) before x after,
     HttpClient.requestInterceptors (this st) = (before ++ x :: after)%list ->
     forallb (fun y => negb (same y)) before = true ->
     same x = true ->
     unregisterRequestInterceptor same st
     = (Returns tt,
        with_this (HttpClient.with_requestInterceptors (before ++ after)
                     (this st)) st))
  /\ (forall (same : ResponseInterceptor.t -> bool) before x after,
        HttpClient.responseInterceptors (this st)
        = (before ++ x :: after)%list ->
        forallb (fun y => negb (same y)) before = true ->
        same x = true ->
        unregisterResponseInterceptor same st
        = (Returns tt,
           with_this (HttpClient.with_responseInterceptors (before ++ after)
                        (this st)) st)).
Proof.
  split; intros same before x after Hl Hbefore Hx.
  - unfold unregisterRequestInterceptor.
    by rewrite Hl, (indexOf_first same before after x Hbefore Hx),
      splice_one_middle.
  - unfold unregisterResponseInterceptor.
    by rewrite Hl, (indexOf_first same before after x Hbefore Hx),
      splice_one_middle.
Qed.

(** X9. Registering an interceptor that is not registered yet and then
    calling the function that the registration returned gives the instance
    back as it was; calling that function once more, or calling it for an
    interceptor that is not registered, changes nothing. *)
Theorem register_then_unregister (st : State) :
  (forall (same : RequestInterceptor.t -> bool) x,
     forallb (fun y => negb (same y))
       (HttpClient.requestInterceptors (this st)) = true ->
     same x = true ->
     unregisterRequestInterceptor same (snd (addRequestInterceptor x st))
     = (Returns tt, st)
     /\ unregisterRequestInterceptor same st = (Returns tt, st))
  /\ (forall (same : ResponseInterceptor.t -> bool) x,
        forallb (fun y => negb (same y))
          (HttpClient.responseInterceptors (this st)) = true ->
        same x = true ->
        unregisterResponseInterceptor same (snd (addResponseInterceptor x st))
        = (Returns tt, st)
        /\ unregisterResponseInterceptor same st = (Returns tt, st)).
Proof.
  split; intros same x Hnone Hx.
  - split.
    + unfold unregisterRequestInterceptor, addRequestInterceptor.
      cbn [snd]. destruct st as [c n f tr]. destruct c. cbn in *.
      rewrite (indexOf_first same _ [] x Hnone Hx).
      by rewrite splice_one_middle, app_nil_r.
    + unfold unregisterRequestInterceptor. by rewrite indexOf_none.
  - split.
    + unfold unregisterResponseInterceptor, addResponseInterceptor.
      cbn [snd]. destruct st as [c n f tr]. destruct c. cbn in *.
      rewrite (indexOf_first same _ [] x Hnone Hx).
      by rewrite splice_one_middle, app_nil_r.
    + unfold unregisterResponseInterceptor. by rewrite indexOf_none.
Qed.

(** ** Request keys *)

Lemma string_app_assoc (a b c : string) : (a ++ b) ++ c = a ++ (b ++ c).
Proof.
  induction a as [|x a IH]; [done|].
  change (String x ((a ++ b) ++ c) = String x (a ++ (b ++ c))).
  by rewrite IH.
Qed.

(** X10. The parts of a key are joined with hyphens that are not
    escaped: a method [m] with the address [u1 ++ "-" ++ u2] has the key
    of the method [m ++ "-" ++ u1] with the address [u2], so two
    different requests can share a key. *)
Theorem getRequestKey_hyphen_collision (c : HttpClient.t)
    (m u1 u2 : string) (o : RequestOptions.t) :
  Js.truthy m = true ->
  getRequestKey c (u1 ++ "-" ++ u2)
    (RequestOptions.with_method (Some m) o)
  = getRequestKey c u2
      (RequestOptions.with_method (Some (m ++ "-" ++ u1)) o).
Proof.
  intros Hm. unfold getRequestKey, createRequestKey.
  destruct o; cbn [RequestOptions.with_method RequestOptions.method
    RequestOptions.credentials RequestOptions.body].
  unfold Js.or_else at 1 3.
  rewrite Hm. rewrite truthy_app_l by done.
  by rewrite !string_app_assoc.
Qed.

(** ** Query strings *)

Lemma all_bytes_app p (a b : string) :
  all_bytes p (a ++ b) = all_bytes p a && all_bytes p b.
Proof.
  induction a as [|c a IH]; [done|].
  change (String c a ++ b) with (String c (a ++ b)). simpl.
  by rewrite IH, andb_assoc.
Qed.

Lemma query_byte_form_encode_byte c :
  all_bytes query_byte (Js.form_encode_byte c) = true.
Proof. by destruct c as [[] [] [] [] [] [] [] []]. Qed.

Lemma query_byte_form_encode s :
  all_bytes query_byte (Js.form_encode s) = true.
Proof.
  induction s as [|c s IH]; [done|]. simpl.
  by rewrite all_bytes_app, query_byte_form_encode_byte, IH.
Qed.

Lemma query_byte_param_encoded entry :
  all_bytes query_byte (param_encoded entry) = true.
Proof.
  unfold param_encoded.
  by rewrite !all_bytes_app, !query_byte_form_encode.
Qed.

Lemma query_byte_concat (l : list string) :
  Forall (fun s => all_bytes query_byte s = true) l ->
  all_bytes query_byte (String.concat "&" l) = true.
Proof.
  induction 1 as [|s l Hs Hl IH]; [done|].
  destruct l as [|s' l]; [done|].
  change (String.concat "&" (s :: s' :: l))
    with (s ++ "&" ++ String.concat "&" (s' :: l)).
  by rewrite !all_bytes_app, Hs, IH.
Qed.

(** X11. Whatever the names and values of the parameters,
    [createURLWithParams] gives the URL it was given followed by a query
    that is empty or starts with [?] or [&] and is made only of ASCII
    letters, digits and [* - . _ + % = & ?]: no parameter can bring a
    space, a [#], a control character or a byte outside ASCII into the
    URL. *)
Theorem createURLWithParams_query_is_safe (url : string)
    (params : option (list (string * ParamValue))) :
  exists query,
    createURLWithParams url params = url ++ query
    /\ all_bytes query_byte query = true
    /\ (query = ""
        \/ exists rest,
             query = (if Js.includes url "?" then "&" else "?") ++ rest
             /\ Js.truthy rest = true).
Proof.
  destruct params as [entries|].
  2:{ exists "". split; [|by split; [|left]]. simpl.
      induction url as [|c url IH]; [done|].
      change (String c url ++ "") with (String c (url ++ "")).
      by rewrite <- IH. }
  rewrite createURLWithParams_kept.
  destruct (List.filter param_kept entries) as [|entry kept] eqn:Hkept.
  { exists "". split; [|by split; [|left]].
    induction url as [|c url IH]; [done|].
    change (String c url ++ "") with (String c (url ++ "")).
    by rewrite <- IH. }
  eexists. split; [done|]. split.
  - rewrite all_bytes_app, query_byte_concat.
    + by destruct (Js.includes url "?").
    + apply Forall_map, Forall_forall. intros e _.
      apply query_byte_param_encoded.
  - right. eexists. split; [done|].
    destruct kept as [|entry' kept]; simpl.
    + unfold param_encoded. by destruct (Js.form_encode (fst entry)).
    + unfold param_encoded. by destruct (Js.form_encode (fst entry)).
Qed.

(** *** Values that are never dropped *)

Lemma graphic_not_low c : (Js.byte c <= 32)%N -> graphic c = false.
Proof.
  intros H. unfold graphic.
  destruct (N.leb_spec 33 (Js.byte c)); [lia|done].
Qed.

Lemma graphic_not_high c : (127 <= Js.byte c)%N -> graphic c = false.
Proof.
  intros H. unfold graphic.
  destruct (N.leb_spec (Js.byte c) 126); [lia|].
  by rewrite andb_false_r.
Qed.

Lemma has_graphic_skip_ws s r :
  Js.skip_ws s = Some r -> has_graphic s = has_graphic r.
Proof.
  unfold Js.skip_ws.
  destruct s as [|c1 r1]; [done|]. cbv zeta.
  lazymatch goal with
  | |- (if ?b then _ else _) = _ -> _ => destruct b eqn:H1
  end.
  { intros [= <-]. simpl. rewrite graphic_not_low; [done|].
    rewrite orb_true_iff, andb_true_iff, !N.leb_le, N.eqb_eq in H1. lia. }
  destruct r1 as [|c2 r2]; [done|].
  lazymatch goal with
  | |- (if ?b then _ else _) = _ -> _ => destruct b eqn:H2
  end.
  { intros [= <-]. simpl.
    rewrite andb_true_iff, !N.eqb_eq in H2.
    rewrite !graphic_not_high by lia. done. }
  destruct r2 as [|c3 r3]; [done|].
  lazymatch goal with
  | |- (if ?b then _ else _) = _ -> _ => destruct b eqn:H3; [|done]
  end.
  intros [= <-]. simpl.
  rewrite !orb_true_iff, !andb_true_iff, !orb_true_iff, !andb_true_iff,
    !N.leb_le, !N.eqb_eq in H3.
  rewrite !graphic_not_high by lia. done.
Qed.

Lemma has_graphic_trimStart_upto n s :
  has_graphic (Js.trimStart_upto n s) = has_graphic s.
Proof.
  revert s; induction n as [|n IH]; intros s; [done|]. simpl.
  destruct (Js.skip_ws s) as [r|] eqn:Hr; [|done].
  by rewrite IH, (has_graphic_skip_ws s r).
Qed.

Lemma has_graphic_skip_ws_rev s r :
  Js.skip_ws_rev s = Some r -> has_graphic s = has_graphic r.
Proof.
  unfold Js.skip_ws_rev.
  destruct s as [|c1 r1]; [done|]. cbv zeta.
  lazymatch goal with
  | |- (if ?b then _ else _) = _ -> _ => destruct b eqn:H1
  end.
  { intros [= <-]. simpl. rewrite graphic_not_low; [done|].
    rewrite orb_true_iff, andb_true_iff, !N.leb_le, N.eqb_eq in H1. lia. }
  destruct r1 as [|c2 r2]; [done|].
  lazymatch goal with
  | |- (if ?b then _ else _) = _ -> _ => destruct b eqn:H2
  end.
  { intros [= <-]. simpl.
    rewrite andb_true_iff, !N.eqb_eq in H2.
    rewrite !graphic_not_high by lia. done. }
  destruct r2 as [|c3 r3]; [done|].
  lazymatch goal with
  | |- (if ?b then _ else _) = _ -> _ => destruct b eqn:H3; [|done]
  end.
  intros [= <-]. simpl.
  rewrite !orb_true_iff, !andb_true_iff, !orb_true_iff, !andb_true_iff,
    !N.leb_le, !N.eqb_eq in H3.
  rewrite !graphic_not_high by lia. done.
Qed.

Lemma has_graphic_trimEnd_upto n s :
  has_graphic (Js.trimEnd_upto n s) = has_graphic s.
Proof.
  revert s; induction n as [|n IH]; intros s; [done|]. simpl.
  destruct (Js.skip_ws_rev s) as [r|] eqn:Hr; [|done].
  by rewrite IH, (has_graphic_skip_ws_rev s r).
Qed.

Lemma has_graphic_rev_app s1 s2 :
  has_graphic (String.rev_app s1 s2) = has_graphic s1 || has_graphic s2.
Proof.
  revert s2; induction s1 as [|c s1 IH]; intros s2; [done|]. simpl.
  rewrite IH. simpl. by destruct (graphic c), (has_graphic s1).
Qed.

Lemma has_graphic_rev s : has_graphic (String.rev s) = has_graphic s.
Proof.
  unfold String.rev. by rewrite has_graphic_rev_app, orb_false_r.
Qed.

Lemma has_graphic_trim s : has_graphic (Js.trim s) = has_graphic s.
Proof.
  unfold Js.trim, Js.trimEnd, Js.trimStart.
  by rewrite has_graphic_rev, has_graphic_trimEnd_upto, has_graphic_rev,
    has_graphic_trimStart_upto.
Qed.

Lemma has_graphic_pretty_N_go (x : N) (s : string) :
  has_graphic s = true -> has_graphic (pretty_N_go x s) = true.
Proof.
  revert s. induction (N.lt_wf_0 x) as [x _ IH]. intros s Hs.
  destruct (decide (0 < x)%N) as [Hx|Hx].
  - rewrite pretty_N_go_step by done. apply IH.
    + by apply N.div_lt.
    + simpl. by rewrite Hs, orb_true_r.
  - assert (x = 0%N) as -> by lia. by rewrite pretty_N_go_0.
Qed.

Lemma graphic_pretty_N_char (x : N) : graphic (pretty_N_char x) = true.
Proof. by destruct x as [|[[[[]|[]|]|[[]|[]|]|]|[[[]|[]|]|[[]|[]|]|]|]]. Qed.

Lemma has_graphic_pretty_Z (n : Z) : has_graphic (pretty n) = true.
Proof.
  assert (Hpos : forall p, has_graphic (pretty (Npos p)) = true).
  { intros p. unfold pretty, pretty_N. rewrite pretty_N_go_step by lia.
    destruct (decide (0 < N.pos p `div` 10)%N).
    - apply has_graphic_pretty_N_go. simpl.
      by rewrite graphic_pretty_N_char.
    - apply has_graphic_pretty_N_go. simpl.
      by rewrite graphic_pretty_N_char. }
  destruct n as [|p|p]; [done|apply Hpos|].
  change (pretty (Z.neg p)) with ("-" ++ pretty (Npos p)).
  done.
Qed.

Lemma param_kept_never_blank (entry : string * ParamValue) :
  never_blank (snd entry) = true -> param_kept entry = true.
Proof.
  destruct entry as [key value]. unfold param_kept, never_blank. cbn [snd].
  assert (Hkept : forall s, has_graphic s = true ->
                    negb (String.eqb (Js.trim s) "") = true).
  { intros s Hs. rewrite <- has_graphic_trim in Hs.
    by destruct (Js.trim s). }
  destruct value as [| |s|n|[]]; try done.
  - apply Hkept.
  - intros _. apply Hkept, has_graphic_pretty_Z.
Qed.

(** X12. [createURLWithParams] drops no number and no boolean, zero and
    [false] included, and no string that has a visible ASCII character:
    when every value is one of these, every parameter is written, in the
    order of the entries. *)
Theorem createURLWithParams_keeps_values (url : string)
    (entry : string * ParamValue) (entries : list (string * ParamValue)) :
  forallb (fun e => never_blank (snd e)) (entry :: entries) = true ->
  createURLWithParams url (Some (entry :: entries))
  = url ++ (if Js.includes url "?" then "&" else "?")
    ++ String.concat "&" (map param_encoded (entry :: entries)).
Proof.
  intros Hall. rewrite createURLWithParams_kept.
  replace (List.filter param_kept (entry :: entries))
    with (entry :: entries); [done|].
  symmetry. clear url.
  induction (entry :: entries) as [|e l IH]; [done|].
  simpl in Hall. apply andb_true_iff in Hall as [He Hl].
  cbn [List.filter]. rewrite param_kept_never_blank by done.
  by rewrite IH.
Qed.

(** ** Reading the body *)

(** X13. [handleResponse] returns an envelope only for a status from
    200 to 299, and the envelope then has the status and the headers of
    the response and the configuration it was given. With a body to read,
    the data is what [response.json()] gives when the [content-type]
    header contains [application/json], and otherwise, the header being
    absent included, the text of the body as a string. A failure of the
    read other than a [SyntaxError] is thrown as it is, whatever the
    status. *)
Theorem handleResponse_reads_body (response : Response.t)
    (config : RequestOptions.t) (st : State) :
  (forall handled,
     fst (handleResponse response config st) = Returns handled ->
     (200 <= Response.status response <= 299)%Z
     /\ handled
        = HttpResponse.mk (HttpResponse.data handled)
            (Response.status response) (Response.headers response) config)
  /\ (Response.ok response = true ->
      Response.body response = true ->
      Response.headers response !! "content-length" <> Some "0" ->
      (forall contentType value,
         Response.headers response !! "content-type" = Some contentType ->
         Js.includes contentType "application/json" = true ->
         Response.json response = Returns value ->
         fst (handleResponse response config st)
         = Returns (HttpResponse.mk value (Response.status response)
                      (Response.headers response) config))
      /\ (forall text,
            match Response.headers response !! "content-type" with
            | Some contentType =>
                Js.includes contentType "application/json" = false
            | None => True
            end ->
            Response.text response = Returns text ->
            fst (handleResponse response config st)
            = Returns (HttpResponse.mk (VStr text) (Response.status response)
                         (Response.headers response) config)))
  /\ (forall error,
        Response.body response = true ->
        Response.headers response !! "content-length" <> Some "0" ->
        read_body response = Throws error ->
        is_error_named "SyntaxError" error = false ->
        fst (handleResponse response config st) = Throws error).
Proof.
  unfold handleResponse, try_catch, bind, await, ret, throw.
  split; [|split].
  - intros handled.
    destruct (Response.body response && _); simpl.
    + destruct (read_body response) as [d|[e|r]]; simpl.
      * destruct (Response.ok response) eqn:Hok; simpl; [|done].
        intros [= <-]. split; [|done]. unfold Response.ok in Hok. lia.
      * by destruct (String.eqb _ _).
      * done.
    + destruct (Response.ok response) eqn:Hok; simpl; [|done].
      intros [= <-]. split; [|done]. unfold Response.ok in Hok. lia.
  - intros Hok Hbody Hlength.
    rewrite Hbody, Hok, bool_decide_eq_false_2 by done. simpl.
    split.
    + intros contentType value Htype Hjson Hvalue.
      unfold read_body. by rewrite Htype, Hjson, Hvalue.
    + intros text Htype Htext. unfold read_body.
      destruct (Response.headers response !! "content-type") as [ct|].
      * by rewrite Htype, Htext.
      * by rewrite Htext.
  - intros error Hbody Hlength Hread Hname.
    rewrite Hbody, bool_decide_eq_false_2 by done. simpl.
    rewrite Hread. simpl.
    destruct error as [e|r]; [|done].
    unfold is_error_named in Hname. simpl in Hname. by rewrite Hname.
Qed.

(** ** What the transport is given *)

Section Transport.

Variable host : Host.








(** ** The verbs *)


(** ** The common interceptors *)

Lemma onRequest_chain_app l1 l2 config :
  onRequest_chain (l1 ++ l2) config
  = match onRequest_chain l1 config with
    | Returns config' => onRequest_chain l2 config'
    | Throws e => Throws e
    end.
Proof.
  revert config; induction l1 as [|x l1 IH]; intros config; [done|].
  simpl. destruct (RequestInterceptor.onRequest x) as [f|]; [|apply IH].
  destruct (f config); [apply IH|done].
Qed.

Lemma requestInterceptors_after_attempt url options st call st1 r2 st2 :
  request_start url options st = (call, st1) ->
  request_try host call url options st1 = (r2, st2) ->
  HttpClient.requestInterceptors (this (snd (request_cleanup call st2)))
  = HttpClient.requestInterceptors (this st).
Proof.
  intros Hstart Htry.
  destruct (request_start_effects _ _ _ _ _ Hstart)
    as (_ & _ & _ & Hthis & _).
  pose proof (same_instance_request_try host call url options st1) as Hsame.
  rewrite Htry, Hthis in Hsame. cbn [snd] in Hsame.
  by apply same_instance_requestInterceptors in Hsame.
Qed.




Lemma responseInterceptors_after_attempt url options st call st1 r2 st2 :
  request_start url options st = (call, st1) ->
  request_try host call url options st1 = (r2, st2) ->
  HttpClient.responseInterceptors (this (snd (request_cleanup call st2)))
  = HttpClient.responseInterceptors (this st).
Proof.
  intros Hstart Htry.
  destruct (request_start_effects _ _ _ _ _ Hstart)
    as (_ & _ & _ & Hthis & _).
  pose proof (same_instance_request_try host call url options st1) as Hsame.
  rewrite Htry, Hthis in Hsame. cbn [snd] in Hsame.
  by apply same_instance_responseInterceptors in Hsame.
Qed.

Lemma responseErrors_throw_app l1 l2 error :
  responseErrors_throw (l1 ++ l2) error
  = responseErrors_throw l1 error && responseErrors_throw l2 error.
Proof. apply forallb_app. Qed.

Lemma last_failure_last pre i f httpError error e :
  responseErrors_throw pre httpError = true ->
  ResponseInterceptor.onResponseError i = Some f ->
  f httpError = Throws e ->
  last_failure (pre ++ [i]) httpError error = e.
Proof.
  intros Hpre Hf He. revert error.
  induction pre as [|x pre IH]; intros error; simpl.
  - by rewrite Hf, He.
  - unfold responseErrors_throw in Hpre. simpl in Hpre.
    apply andb_true_iff in Hpre as [Hx Hpre].
    destruct (ResponseInterceptor.onResponseError x) as [g|]; [|by apply IH].
    destruct (g httpError); [done|by apply IH].
Qed.

(** The handler registered last decides what is thrown when none of the
    earlier ones recovers. *)
Lemma request_last_handler depth url options st call st1 httpError st2 pre i
    f e :
  request_start url options st = (call, st1) ->
  request_try host call url options st1 = (Throws httpError, st2) ->
  retry_inactive (retryConfig call) = true ->
  HttpClient.responseInterceptors (this st) = (pre ++ [i])%list ->
  responseErrors_throw pre httpError = true ->
  ResponseInterceptor.onResponseError i = Some f ->
  f httpError = Throws e ->
  request host (S depth) url options st
  = Some (Throws (rethrow options e),
          log (responseError_calls 0 (pre ++ [i]) httpError)
            (snd (request_cleanup call st2))).
Proof.
  intros Hstart Htry Hretry Hlist Hpre Hf He.
  rewrite (request_falls_through host _ _ _ _ _ _ _ _ Hstart Htry Hretry).
  unfold request_recover, bind, read_this.
  rewrite (responseInterceptors_after_attempt _ _ _ _ _ _ _ Hstart Htry),
    Hlist.
  rewrite recover_loop_all_throw.
  - by rewrite (last_failure_last pre i f httpError httpError e).
  - rewrite responseErrors_throw_app, Hpre. unfold responseErrors_throw.
    simpl. by rewrite Hf, He.
Qed.

(** X17. With [createRetryInterceptor] registered first among the
    response interceptors and no retry policy in effect, a request that
    fails with an Error Record of status 500 or more does not fail for the
    caller, and is not sent again: when the count given to the interceptor
    is positive, [request] returns the Error Record itself as its result.
    With a status under 500, or a count that is not positive, and no other
    response interceptor, the caller gets the Error Record as a failure. *)
Theorem retry_interceptor_returns_the_failure (rc : RetryConfig.t)
    (rest : list ResponseInterceptor.t) (depth : nat) (url : string)
    (options : RequestOptions.t) (st : State) (call : Call) (st1 : State)
    (record : HttpRequestError.t) (status : Z) (st2 : State) :
  request_start url options st = (call, st1) ->
  request_try host call url options st1
  = (Throws (ThrownRecord record), st2) ->
  retry_inactive (retryConfig call) = true ->
  HttpClient.responseInterceptors (this st)
  = createRetryInterceptor rc :: rest ->
  HttpRequestError.status record = Some status ->
  ((500 <= status)%Z ->
   Js.gt (RetryConfig.count rc) Js.zero = true ->
   request host (S depth) url options st
   = Some (Returns (Returned record),
           log [EvResponseError 0 (ThrownRecord record)]
             (snd (request_cleanup call st2))))
  /\ ((status < 500)%Z \/ Js.gt (RetryConfig.count rc) Js.zero = false ->
      rest = [] ->
      request host (S depth) url options st
      = Some (Throws (ThrownRecord record),
              log [EvResponseError 0 (ThrownRecord record)]
                (snd (request_cleanup call st2)))).
Proof.
  intros Hstart Htry Hretry Hlist Hstatus. split.
  - intros H500 Hcount.
    rewrite (request_falls_through host _ _ _ _ _ _ _ _ Hstart Htry Hretry).
    unfold request_recover, bind, read_this.
    rewrite (responseInterceptors_after_attempt _ _ _ _ _ _ _ Hstart Htry),
      Hlist.
    rewrite (recover_loop_first_returns [] (createRetryInterceptor rc) rest
               _ (Returned record) 0 options _ _ _ eq_refl); [done| |done].
    rewrite Hstatus.
    replace (status =? 0)%Z with false by lia.
    replace (500 <=? status)%Z with true by lia.
    by rewrite Hcount.
  - intros Hnot ->.
    rewrite (request_last_handler depth url options st call st1 _ st2 []
               (createRetryInterceptor rc) _ (ThrownRecord record)
               Hstart Htry Hretry Hlist eq_refl eq_refl); [done|].
    rewrite Hstatus.
    destruct Hnot as [Hnot| ->]; [|by rewrite andb_false_r].
    replace (500 <=? status)%Z with false by lia.
    by rewrite andb_false_r.
Qed.

(** X18. [createLoggingInterceptor] registered last leaves what passes
    through it as it is: the configuration and the envelope on the way
    through, and, when no retry policy is in effect and no earlier
    [onResponseError] recovers, the failure: the caller gets the failure
    of the request itself (an [AbortError] as the record "Request was
    cancelled"), not what the earlier functions have thrown. *)
Theorem logging_interceptor_is_transparent (depth : nat) (url : string)
    (options : RequestOptions.t) (st : State) (call : Call) (st1 : State)
    (httpError : Thrown) (st2 : State)
    (before : list RequestInterceptor.t)
    (pre : list ResponseInterceptor.t) :
  (forall config,
     onRequest_chain (before ++ [fst createLoggingInterceptor]) config
     = onRequest_chain before config)
  /\ (forall response,
        onResponse_chain (pre ++ [snd createLoggingInterceptor]) response
        = onResponse_chain pre response)
  /\ (request_start url options st = (call, st1) ->
      request_try host call url options st1 = (Throws httpError, st2) ->
      retry_inactive (retryConfig call) = true ->
      HttpClient.responseInterceptors (this st)
      = (pre ++ [snd createLoggingInterceptor])%list ->
      responseErrors_throw pre httpError = true ->
      request host (S depth) url options st
      = Some (Throws (rethrow options httpError),
              log (responseError_calls 0
                     (pre ++ [snd createLoggingInterceptor]) httpError)
                (snd (request_cleanup call st2)))).
Proof.
  split; [|split].
  - intros config. rewrite onRequest_chain_app.
    by destruct (onRequest_chain before config).
  - intros response. induction pre as [|x pre IH] in response |- *; [done|].
    simpl. destruct (ResponseInterceptor.onResponse x) as [f|]; [|apply IH].
    destruct (f response); [apply IH|done].
  - intros Hstart Htry Hretry Hlist Hpre.
    by apply (request_last_handler depth url options st call st1 httpError
                st2 pre
                (snd createLoggingInterceptor) _ httpError Hstart Htry Hretry
                Hlist Hpre eq_refl).
Qed.

(** X19. With [createErrorTransformInterceptor] registered last, no
    retry policy in effect and no earlier [onResponseError] recovering, a
    request that fails with an Error Record of status 401 fails for the
    caller with that record under the message "Authentication required",
    one of status 403 under the message "Permission denied", the status,
    data, configuration and cause being kept; with any other status, or
    none, the record is thrown as it is. *)
Theorem error_transform_interceptor_messages (depth : nat) (url : string)
    (options : RequestOptions.t) (st : State) (call : Call) (st1 : State)
    (record : HttpRequestError.t) (st2 : State)
    (pre : list ResponseInterceptor.t) :
  request_start url options st = (call, st1) ->
  request_try host call url options st1
  = (Throws (ThrownRecord record), st2) ->
  retry_inactive (retryConfig call) = true ->
  HttpClient.responseInterceptors (this st)
  = (pre ++ [createErrorTransformInterceptor])%list ->
  responseErrors_throw pre (ThrownRecord record) = true ->
  exists st',
    request host (S depth) url options st
    = Some (Throws
              (ThrownRecord
                 (HttpRequestError.mk
                    (if bool_decide (HttpRequestError.status record = Some 401)
                     then "Authentication required"
                     else if bool_decide
                               (HttpRequestError.status record = Some 403)
                     then "Permission denied"
                     else HttpRequestError.message record)
                    (HttpRequestError.status record)
                    (HttpRequestError.data record)
                    (HttpRequestError.config record)
                    (HttpRequestError.cause record))),
            st')
    /\ fetched st' = fetched st2.
Proof.
  intros Hstart Htry Hretry Hlist Hpre.
  rewrite (request_last_handler depth url options st call st1 _ st2 pre
             createErrorTransformInterceptor _
             (ThrownRecord
                (with_message
                   (if bool_decide (HttpRequestError.status record = Some 401)
                    then "Authentication required"
                    else if bool_decide
                              (HttpRequestError.status record = Some 403)
                    then "Permission denied"
                    else HttpRequestError.message record)
                   record))
             Hstart Htry Hretry Hlist Hpre eq_refl).
  { eexists. split; [reflexivity|done]. }
  destruct (bool_decide (HttpRequestError.status record = Some 401)); [done|].
  destruct (bool_decide (HttpRequestError.status record = Some 403)); [done|].
  by destruct record.
Qed.

(** ** A transport that keeps failing *)

Lemma delay_calls_app evs1 evs2 :
  delay_calls (evs1 ++ evs2) = (delay_calls evs1 ++ delay_calls evs2)%list.
Proof. apply omap_app. Qed.

Lemma delay_calls_wait_delay rc st :
  delay_calls (trace (snd (wait_delay rc st)))
  = (delay_calls (trace st) ++ waits rc)%list.
Proof.
  unfold wait_delay, waits. destruct (RetryConfig.delay rc) as [ms|].
  - destruct (ms =? 0)%Z; simpl; [by rewrite app_nil_r|].
    by rewrite delay_calls_app.
  - simpl. by rewrite app_nil_r.
Qed.

Lemma request_rejected_attempt url options st call st1 error :
  (forall n u init, fetch host n u init = Rejects error) ->
  HttpClient.requestInterceptors (this st) = [] ->
  request_start url options st = (call, st1) ->
  exists st2,
    request_try host call url options st1 = (Throws error, st2)
    /\ fetched (snd (request_cleanup call st2)) = S (fetched st)
    /\ delay_calls (trace (snd (request_cleanup call st2)))
       = delay_calls (trace st).
Proof.
  intros Hfetch Hnone Hstart.
  destruct (request_start_effects _ _ _ _ _ Hstart)
    as (_ & _ & _ & Hthis & Hfetched & ms & Htrace).
  eexists. split.
  - unfold request_try, bind.
    rewrite (request_send_rejects host call url options options error st1);
      [done| |apply Hfetch].
    by rewrite Hthis, Hnone.
  - rewrite request_cleanup_state. simpl. split; [by rewrite Hfetched|].
    rewrite Htrace, !delay_calls_app. simpl. by rewrite !app_nil_r.
Qed.

(** X20. When every call of the transport is rejected with a failure
    other than an [AbortError] that is eligible for a retry, on an
    instance without interceptors, a request with a retry policy calls
    the transport [n + 1] times, [n] being the number of times that 1 can
    be taken from the count of the policy before it is no longer above 0
    (twice from 2, three times from 2.5), waits the delay of the policy
    (when it has one that is not zero) between two attempts, [n] times in
    all, and then fails with the failure of the transport. *)
Theorem request_exhausts_retries (error : Thrown) (bound n : nat)
    (url : string) (options : RequestOptions.t) (rc : RetryConfig.t)
    (st : State) :
  (forall k u init, fetch host k u init = Rejects error) ->
  HttpClient.requestInterceptors (this st) = [] ->
  HttpClient.responseInterceptors (this st) = [] ->
  RequestOptions.retry options = Some rc ->
  retries_left bound (RetryConfig.count rc) = Some n ->
  shouldRetry host rc error = true ->
  is_error_named "AbortError" error = false ->
  exists st',
    request host (S n) url options st = Some (Throws error, st')
    /\ fetched st' = (fetched st + S n)%nat
    /\ delay_calls (trace st')
       = (delay_calls (trace st) ++ concat (replicate n (waits rc)))%list.
Proof.
  intros Hfetch. revert n options rc st.
  induction bound as [|bound IH];
    intros n options rc st Hnone Hnone' Hrc Hleft Hshould Hname.
  all: destruct (request_start url options st) as [call st1] eqn:Hstart.
  all: destruct (request_rejected_attempt _ _ _ _ _ _ Hfetch Hnone Hstart)
         as (st2 & Htry & Hfetched & Hdelays).
  all: assert (Hcall : retryConfig call = Some rc)
         by (replace call with (fst (request_start url options st))
               by (by rewrite Hstart); simpl; by rewrite Hrc).
  all: simpl in Hleft.
  all: destruct (Js.gt (RetryConfig.count rc) Js.zero) eqn:Hpos.
  1: done.
  2: destruct (retries_left bound _) as [n'|] eqn:Hleft'; [|done].
  2: injection Hleft as <-.
  2: { rewrite (request_retries host _ _ _ _ _ _ _ _ _ Hstart Htry Hcall Hpos).
       unfold retryRequest. rewrite (gt_zero_not_le _ Hpos).
       rewrite Hshould. cbn [negb]. cbv zeta.
       set (rc' := RetryConfig.mk _ _ _).
       set (st3 := snd (wait_delay rc _)).
       destruct (IH n' (RequestOptions.with_retry (Some rc') options) rc' st3)
         as (st' & Hreq & Hfetched' & Hdelays').
       - unfold st3. rewrite this_wait_delay.
         by rewrite (requestInterceptors_after_attempt _ _ _ _ _ _ _
                       Hstart Htry).
       - unfold st3. rewrite this_wait_delay.
         by rewrite (responseInterceptors_after_attempt _ _ _ _ _ _ _
                       Hstart Htry).
       - done.
       - exact Hleft'.
       - done.
       - done.
       - exists st'. split; [done|]. rewrite Hfetched', Hdelays'.
         unfold st3. rewrite fetched_wait_delay, delay_calls_wait_delay,
           Hfetched, Hdelays.
         split; [simpl; lia|]. simpl. by rewrite <- !app_assoc. }
  all: injection Hleft as <-.
  all: assert (Hretry : retry_inactive (retryConfig call) = true)
         by (rewrite Hcall; simpl; by rewrite Hpos).
  all: rewrite (request_falls_through host _ _ _ _ _ _ _ _ Hstart Htry
                  Hretry).
  all: unfold request_recover, bind, read_this.
  all: rewrite (responseInterceptors_after_attempt _ _ _ _ _ _ _ Hstart
                  Htry), Hnone'.
  all: simpl recover_loop; unfold throw; rewrite rethrow_other by done.
  all: rewrite request_cleanup_state in Hfetched, Hdelays.
  all: cbn [snd] in Hfetched, Hdelays.
  all: eexists; split; [done|]; rewrite Hfetched, Hdelays; simpl.
  all: split; [lia|by rewrite app_nil_r].
Qed.

(** X21. When every call of the transport is rejected with a failure
    that is eligible for a retry, on an instance without request
    interceptors, a request whose retry policy has a count above 0 that
    taking 1 from leaves as it is ([Infinity], or 2 to the power 54) does
    not settle: however many times [request] may call itself, the call
    made last is still waiting for the next one. *)
Theorem request_never_settles (error : Thrown) (url : string)
    (options : RequestOptions.t) (rc : RetryConfig.t) (st : State) :
  (forall k u init, fetch host k u init = Rejects error) ->
  HttpClient.requestInterceptors (this st) = [] ->
  RequestOptions.retry options = Some rc ->
  Js.gt (RetryConfig.count rc) Js.zero = true ->
  Js.minus (RetryConfig.count rc) Js.one = RetryConfig.count rc ->
  shouldRetry host rc error = true ->
  forall depth, request host depth url options st = None.
Proof.
  intros Hfetch Hnone Hrc Hpos Hsame Hshould depth.
  revert options st Hnone Hrc.
  induction depth as [|depth IH]; intros options st Hnone Hrc; [done|].
  destruct (request_start url options st) as [call st1] eqn:Hstart.
  destruct (request_rejected_attempt _ _ _ _ _ _ Hfetch Hnone Hstart)
    as (st2 & Htry & _).
  assert (Hcall : retryConfig call = Some rc).
  { replace call with (fst (request_start url options st))
      by (by rewrite Hstart).
    simpl. by rewrite Hrc. }
  rewrite (request_retries host _ _ _ _ _ _ _ _ _ Hstart Htry Hcall Hpos).
  unfold retryRequest. rewrite (gt_zero_not_le _ Hpos), Hshould.
  cbn [negb]. cbv zeta. rewrite Hsame. apply IH.
  - rewrite this_wait_delay.
    by rewrite (requestInterceptors_after_attempt _ _ _ _ _ _ _ Hstart Htry).
  - by destruct rc.
Qed.

End Transport.


(** ** Further instances *)

Lemma request_settles_within_budget_witness :
  retries_left 3
    (count_in_effect (this (new_HttpClient HttpClientConfig.empty))
       retry_two_and_a_half)
  = Some 3%nat
  /\ exists r st',
       request host_down 4 "/users" retry_two_and_a_half
         (new_HttpClient HttpClientConfig.empty)
       = Some (r, st')
       /\ (fetched st' <= 4)%nat.
Proof.
  assert (Hleft : retries_left 3
                    (count_in_effect
                       (this (new_HttpClient HttpClientConfig.empty))
                       retry_two_and_a_half)
                  = Some 3%nat) by (vm_compute; reflexivity).
  split; [exact Hleft|].
  destruct (request_settles_within_budget host_down 3 3 "/users"
              retry_two_and_a_half (new_HttpClient HttpClientConfig.empty)
              Hleft)
    as ((r & st' & Hreq) & Hbound).
  exists r, st'. split; [exact Hreq|].
  exact (proj2 (Hbound 4%nat r st' Hreq)).
Defined.

Lemma request_unregisters_own_key_witness :
  exists r st',
    request (host_status 200) 1 "/users" RequestOptions.empty users_pending
    = Some (r, st')
    /\ this st'
       = HttpClient.with_pendingRequests
           (delete
              (createRequestKey (this users_pending) "/users"
                 RequestOptions.empty)
              (HttpClient.pendingRequests (this users_pending)))
           (this users_pending).
Proof.
  destruct (request (host_status 200) 1 "/users" RequestOptions.empty
              users_pending) as [[r st']|] eqn:Hreq;
    [|by vm_compute in Hreq].
  exists r, st'. split; [reflexivity|].
  exact (request_unregisters_own_key (host_status 200) 1 "/users"
           RequestOptions.empty users_pending r st' Hreq).
Defined.

Lemma request_clears_its_timers_witness :
  exists r st' ms evs,
    request host_timeout 3 "/users" retry_twice
      (new_HttpClient HttpClientConfig.empty)
    = Some (r, st')
    /\ trace st'
       = (EvNewController 0 :: EvSetTimeout 1 ms :: evs)%list
    /\ timers_set (EvSetTimeout 1 ms :: evs) ⊆ timers_cleared evs
    /\ timers_cleared evs ⊆ timers_set (EvSetTimeout 1 ms :: evs).
Proof.
  destruct (request host_timeout 3 "/users" retry_twice
              (new_HttpClient HttpClientConfig.empty))
    as [[r st']|] eqn:Hreq; [|by vm_compute in Hreq].
  destruct (request_clears_its_timers host_timeout 3 "/users" retry_twice
              (new_HttpClient HttpClientConfig.empty) r st' Hreq)
    as (ms & evs & Htrace & Hset & Hcleared).
  exists r, st', ms, evs. split; [reflexivity|].
  split; [exact Htrace|]. split; [exact Hset|exact Hcleared].
Defined.

Lemma request_success_witness :
  fst (handleResponse json_ok RequestOptions.empty api_client)
  = Returns (HttpResponse.mk (VObj [("id", VNum 7)]) 200
               (Response.headers json_ok) RequestOptions.empty)
  /\ exists st',
       request host_json 1 "/users" RequestOptions.empty api_client
       = Some (Returns
                 (Envelope
                    (HttpResponse.mk (VObj [("id", VNum 7)]) 200
                       (Response.headers json_ok) RequestOptions.empty)),
               st').
Proof.
  split; [reflexivity|].
  eexists.
  exact (request_success host_json 0 "/users" RequestOptions.empty api_client
           _ _ RequestOptions.empty json_ok _ _
           eq_refl eq_refl eq_refl eq_refl eq_refl).
Defined.

Lemma request_timeout_witness :
  fetch host_timeout 0 "/users"
    (fetchOptions_of (constructor HttpClientConfig.empty)
       (fst (request_start "/users" RequestOptions.empty
               (new_HttpClient HttpClientConfig.empty)))
       RequestOptions.empty)
  = TimesOut "The operation was aborted."
  /\ exists st',
       request host_timeout 1 "/users" RequestOptions.empty
         (new_HttpClient HttpClientConfig.empty)
       = Some (Throws
                 (ThrownRecord
                    (HttpRequestError.mk "Request was cancelled" None None
                       (Some RequestOptions.empty) (Some aborted))),
               st').
Proof.
  split; [reflexivity|].
  destruct (request_timeout host_timeout 0 "/users" RequestOptions.empty
              (new_HttpClient HttpClientConfig.empty) _ _
              RequestOptions.empty "The operation was aborted."
              eq_refl eq_refl eq_refl)
    as (_ & H & _).
  eexists. apply H; reflexivity.
Defined.

Lemma cancelRequest_aborts_once_witness :
  "b" <> "a"
  /\ HttpClient.pendingRequests
       (this (snd (cancelRequest "a" two_pending))) !! "b"
     = Some 5%nat.
Proof.
  split; [discriminate|].
  destruct (cancelRequest_aborts_once "a" two_pending) as (_ & _ & H & _).
  rewrite (H "b"); [reflexivity|discriminate].
Defined.

Lemma unregister_removes_first_occurrence_witness :
  HttpClient.requestInterceptors (this observed_twice)
  = ([] ++ observer :: [fails_until_retried; observer])%list
  /\ unregisterRequestInterceptor is_observer observed_twice
     = (Returns tt,
        with_this
          (HttpClient.with_requestInterceptors
             [fails_until_retried; observer] (this observed_twice))
          observed_twice).
Proof.
  split; [reflexivity|].
  exact (proj1 (unregister_removes_first_occurrence observed_twice)
           is_observer [] observer [fails_until_retried; observer]
           eq_refl eq_refl eq_refl).
Defined.

Lemma register_then_unregister_witness :
  forallb (fun y => negb (is_observer y))
    (HttpClient.requestInterceptors (this retried_client)) = true
  /\ unregisterRequestInterceptor is_observer
       (snd (addRequestInterceptor observer retried_client))
     = (Returns tt, retried_client).
Proof.
  split; [reflexivity|].
  exact (proj1 (proj1 (register_then_unregister retried_client)
                  is_observer observer eq_refl eq_refl)).
Defined.

Lemma getRequestKey_hyphen_collision_witness :
  Js.truthy "GET" = true
  /\ getRequestKey (constructor HttpClientConfig.empty) ("/a" ++ "-" ++ "b")
       (RequestOptions.with_method (Some "GET") RequestOptions.empty)
     = getRequestKey (constructor HttpClientConfig.empty) "b"
         (RequestOptions.with_method (Some ("GET" ++ "-" ++ "/a"))
            RequestOptions.empty).
Proof.
  split; [reflexivity|].
  exact (getRequestKey_hyphen_collision (constructor HttpClientConfig.empty)
           "GET" "/a" "b" RequestOptions.empty eq_refl).
Defined.

Lemma createURLWithParams_keeps_values_witness :
  forallb (fun e => never_blank (snd e))
    [("page", PNumber 0); ("all", PBoolean false)] = true
  /\ createURLWithParams "/users"
       (Some [("page", PNumber 0); ("all", PBoolean false)])
     = "/users?page=0&all=false".
Proof.
  split; [reflexivity|].
  rewrite (createURLWithParams_keeps_values "/users" ("page", PNumber 0)
             [("all", PBoolean false)] eq_refl).
  reflexivity.
Defined.

Lemma handleResponse_reads_body_witness :
  (Response.ok text_ok = true
   /\ Response.headers text_ok !! "content-length" <> Some "0"
   /\ fst (handleResponse text_ok RequestOptions.empty api_client)
      = Returns (HttpResponse.mk (VStr "hello") 200
                   (Response.headers text_ok) RequestOptions.empty))
  /\ (read_body unreadable = Throws (ThrownError stream_failure)
      /\ fst (handleResponse unreadable RequestOptions.empty api_client)
         = Throws (ThrownError stream_failure)).
Proof.
  destruct (handleResponse_reads_body text_ok RequestOptions.empty
              api_client) as (_ & Hread & _).
  destruct (handleResponse_reads_body unreadable RequestOptions.empty
              api_client) as (_ & _ & Hfail).
  split.
  - split; [reflexivity|]. split; [vm_compute; discriminate|].
    apply Hread; [reflexivity|reflexivity|vm_compute; discriminate| |];
      reflexivity.
  - split; [reflexivity|].
    apply Hfail; [reflexivity|vm_compute; discriminate|reflexivity|
                  reflexivity].
Defined.




Lemma retry_interceptor_returns_the_failure_witness :
  (500 <= 503)%Z /\ Js.gt (Js.number_of_Z 3) Js.zero = true
  /\ exists st',
       request (host_status 503) 1 "/users" RequestOptions.empty
         (use_response
            (createRetryInterceptor
               (RetryConfig.mk (Js.number_of_Z 3) None None))
            (new_HttpClient HttpClientConfig.empty))
       = Some (Returns (Returned (status_failure 503)), st').
Proof.
  split; [lia|]. split; [reflexivity|].
  assert (Htry :
    request_try (host_status 503)
      (fst (request_start "/users" RequestOptions.empty
              (use_response
                 (createRetryInterceptor
                    (RetryConfig.mk (Js.number_of_Z 3) None None))
                 (new_HttpClient HttpClientConfig.empty))))
      "/users" RequestOptions.empty
      (snd (request_start "/users" RequestOptions.empty
              (use_response
                 (createRetryInterceptor
                    (RetryConfig.mk (Js.number_of_Z 3) None None))
                 (new_HttpClient HttpClientConfig.empty))))
    = (Throws (ThrownRecord (status_failure 503)),
       snd (request_try (host_status 503)
              (fst (request_start "/users" RequestOptions.empty
                      (use_response
                         (createRetryInterceptor
                            (RetryConfig.mk (Js.number_of_Z 3) None None))
                         (new_HttpClient HttpClientConfig.empty))))
              "/users" RequestOptions.empty
              (snd (request_start "/users" RequestOptions.empty
                      (use_response
                         (createRetryInterceptor
                            (RetryConfig.mk (Js.number_of_Z 3) None None))
                         (new_HttpClient HttpClientConfig.empty))))))).
  { vm_compute. reflexivity. }
  destruct (retry_interceptor_returns_the_failure (host_status 503)
              (RetryConfig.mk (Js.number_of_Z 3) None None) [] 0 "/users"
              RequestOptions.empty
              (use_response
                 (createRetryInterceptor
                    (RetryConfig.mk (Js.number_of_Z 3) None None))
                 (new_HttpClient HttpClientConfig.empty))
              _ _ (status_failure 503) 503 _
              eq_refl Htry eq_refl eq_refl eq_refl)
    as (H & _).
  eexists. apply H; [lia|reflexivity].
Defined.

Lemma logging_interceptor_is_transparent_witness :
  responseErrors_throw [] not_found_plain = true
  /\ exists st',
       request (host_status 404) 1 "/users" RequestOptions.empty
         logging_client
       = Some (Throws not_found_plain, st').
Proof.
  split; [reflexivity|].
  assert (Htry :
    request_try (host_status 404)
      (fst (request_start "/users" RequestOptions.empty logging_client))
      "/users" RequestOptions.empty
      (snd (request_start "/users" RequestOptions.empty logging_client))
    = (Throws not_found_plain,
       snd (request_try (host_status 404)
              (fst (request_start "/users" RequestOptions.empty
                      logging_client))
              "/users" RequestOptions.empty
              (snd (request_start "/users" RequestOptions.empty
                      logging_client))))).
  { vm_compute. reflexivity. }
  destruct (logging_interceptor_is_transparent (host_status 404) 0 "/users"
              RequestOptions.empty logging_client
              (fst (request_start "/users" RequestOptions.empty
                      logging_client))
              (snd (request_start "/users" RequestOptions.empty
                      logging_client))
              not_found_plain
              (snd (request_try (host_status 404)
                      (fst (request_start "/users" RequestOptions.empty
                              logging_client))
                      "/users" RequestOptions.empty
                      (snd (request_start "/users" RequestOptions.empty
                              logging_client))))
              [] [])
    as (_ & _ & H).
  eexists. exact (H eq_refl Htry eq_refl eq_refl eq_refl).
Defined.

Lemma error_transform_interceptor_messages_witness :
  responseErrors_throw [] (ThrownRecord (status_failure 401)) = true
  /\ exists st',
       request (host_status 401) 1 "/users" RequestOptions.empty
         (use_response createErrorTransformInterceptor
            (new_HttpClient HttpClientConfig.empty))
       = Some (Throws
                 (ThrownRecord
                    (HttpRequestError.mk "Authentication required" (Some 401)
                       (Some VNull) (Some RequestOptions.empty) None)),
               st').
Proof.
  split; [reflexivity|].
  assert (Htry :
    request_try (host_status 401)
      (fst (request_start "/users" RequestOptions.empty
              (use_response createErrorTransformInterceptor
                 (new_HttpClient HttpClientConfig.empty))))
      "/users" RequestOptions.empty
      (snd (request_start "/users" RequestOptions.empty
              (use_response createErrorTransformInterceptor
                 (new_HttpClient HttpClientConfig.empty))))
    = (Throws (ThrownRecord (status_failure 401)),
       snd (request_try (host_status 401)
              (fst (request_start "/users" RequestOptions.empty
                      (use_response createErrorTransformInterceptor
                         (new_HttpClient HttpClientConfig.empty))))
              "/users" RequestOptions.empty
              (snd (request_start "/users" RequestOptions.empty
                      (use_response createErrorTransformInterceptor
                         (new_HttpClient HttpClientConfig.empty))))))).
  { vm_compute. reflexivity. }
  destruct (error_transform_interceptor_messages (host_status 401) 0
              "/users"
              RequestOptions.empty
              (use_response createErrorTransformInterceptor
                 (new_HttpClient HttpClientConfig.empty))
              _ _ (status_failure 401) _ [] eq_refl Htry eq_refl eq_refl
              eq_refl)
    as (st' & Hreq & _).
  exists st'. exact Hreq.
Defined.

Lemma request_exhausts_retries_witness :
  (retries_left 2 (Js.number_of_Z 2) = Some 2%nat
   /\ shouldRetry host_down
        (RetryConfig.mk (Js.number_of_Z 2) (Some 100) None) network_failure
      = true
   /\ is_error_named "AbortError" network_failure = false
   /\ exists st',
        request host_down 3 "/users" patient
          (new_HttpClient HttpClientConfig.empty)
        = Some (Throws network_failure, st')
        /\ fetched st' = 3%nat
        /\ delay_calls (trace st') = [100; 100])
  /\ (retries_left 3 (binary_normalize Js.prec Js.emax 5 (-1) false)
      = Some 3%nat
      /\ exists st',
           request host_down 4 "/users" retry_two_and_a_half
             (new_HttpClient HttpClientConfig.empty)
           = Some (Throws network_failure, st')
           /\ fetched st' = 4%nat).
Proof.
  assert (Htwo : retries_left 2 (Js.number_of_Z 2) = Some 2%nat)
    by (vm_compute; reflexivity).
  assert (Hhalf : retries_left 3
                    (binary_normalize Js.prec Js.emax 5 (-1) false)
                  = Some 3%nat) by (vm_compute; reflexivity).
  split.
  - split; [exact Htwo|]. split; [reflexivity|]. split; [reflexivity|].
    destruct (request_exhausts_retries host_down network_failure 2 2 "/users"
                patient (RetryConfig.mk (Js.number_of_Z 2) (Some 100) None)
                (new_HttpClient HttpClientConfig.empty)
                (fun _ _ _ => eq_refl) eq_refl eq_refl eq_refl
                Htwo eq_refl eq_refl)
      as (st' & Hreq & Hfetched & Hdelays).
    exists st'. split; [exact Hreq|]. split; [exact Hfetched|exact Hdelays].
  - split; [exact Hhalf|].
    destruct (request_exhausts_retries host_down network_failure 3 3 "/users"
                retry_two_and_a_half
                (RetryConfig.mk
                   (binary_normalize Js.prec Js.emax 5 (-1) false) None None)
                (new_HttpClient HttpClientConfig.empty)
                (fun _ _ _ => eq_refl) eq_refl eq_refl eq_refl
                Hhalf eq_refl eq_refl)
      as (st' & Hreq & Hfetched & _).
    exists st'. split; [exact Hreq|exact Hfetched].
Defined.

Lemma request_never_settles_witness :
  (Js.gt Js.Infinity Js.zero = true
   /\ Js.minus Js.Infinity Js.one = Js.Infinity
   /\ forall depth,
        request host_down depth "/users" retry_forever
          (new_HttpClient HttpClientConfig.empty)
        = None)
  /\ (Js.gt (Js.number_of_Z (2 ^ 54)) Js.zero = true
      /\ Js.minus (Js.number_of_Z (2 ^ 54)) Js.one = Js.number_of_Z (2 ^ 54)
      /\ forall depth,
           request host_down depth "/users" retry_huge
             (new_HttpClient HttpClientConfig.empty)
           = None).
Proof.
  assert (Hpos : Js.gt (Js.number_of_Z (2 ^ 54)) Js.zero = true)
    by (vm_compute; reflexivity).
  assert (Hsame : Js.minus (Js.number_of_Z (2 ^ 54)) Js.one
                  = Js.number_of_Z (2 ^ 54)) by (vm_compute; reflexivity).
  split.
  - split; [reflexivity|]. split; [reflexivity|].
    exact (request_never_settles host_down network_failure "/users"
             retry_forever (RetryConfig.mk Js.Infinity None None)
             (new_HttpClient HttpClientConfig.empty)
             (fun _ _ _ => eq_refl) eq_refl eq_refl eq_refl eq_refl
             eq_refl).
  - split; [exact Hpos|]. split; [exact Hsame|].
    exact (request_never_settles host_down network_failure "/users"
             retry_huge (RetryConfig.mk (Js.number_of_Z (2 ^ 54)) None None)
             (new_HttpClient HttpClientConfig.empty)
             (fun _ _ _ => eq_refl) eq_refl eq_refl Hpos Hsame eq_refl).
Defined.
